(** * Query variable reducer (public/app/features/templating/state/queryVariablesReducer.ts)

    A shallow embedding of the per-instance reducer [queryVariableReducer], of
    its helpers ([sortVariableValues], [metricNamesToVariableValues],
    [updateLinkText], [updateOptions], ...) and of the collection router
    ([updateChildState], [queryVariablesReducer]), followed by the properties
    of the specification stated and settled on that embedding.

    Conventions of the embedding.
    - A JavaScript string is a [string]: a sequence of code units below 256.
      Comparison is by code unit, as [<] on JavaScript strings is.
    - An index or a sort mode is a [Z]. The number that [parseInt] returns
      is the [Z] that the double stands for. A number among the raw results
      is only ever printed, and is given by its printed form.
    - Code that can raise returns a [Result]; [Throw TypeError] is the
      property access on [undefined] / [null]. [Untyped] is a normal return
      with a value that the data model has no term for.
    - Objects are immutable values, except where the allocation matters: the
      collection holds references ([InstanceRef]) so that "the same object"
      can be told from "an equal object". *)

From Stdlib Require Import List String Ascii ZArith Bool Arith Lia Permutation Sorted.
Import ListNotations.

Local Open Scope string_scope.
Local Open Scope list_scope.

(** ** Exceptions *)

Inductive JsError : Type := TypeError.

(** The outcomes of a piece of code: it returns a value of the data model,
    it raises, or it returns a value that the data model cannot hold (an
    option whose text or value is [undefined] or [null], which the type
    [VariableOption] does not admit). The embedding does not follow the
    code beyond an [Untyped] outcome. *)
Inductive Result (A : Type) : Type :=
| Ok (a : A)
| Throw (e : JsError)
| Untyped.

Arguments Ok {A} a.
Arguments Throw {A} e.
Arguments Untyped {A}.

Definition bind {A B : Type} (c : Result A) (k : A -> Result B) : Result B :=
  match c with
  | Ok a => k a
  | Throw e => Throw e
  | Untyped => Untyped
  end.

Notation "x <- c ;; k" := (bind c (fun x => k))
  (at level 61, c at next level, right associativity).

(** ** JavaScript array and string primitives used by the file *)

(** [Array.prototype.findIndex]: the first index whose element satisfies
    [p], [-1] when there is none. *)
Fixpoint findIndex {A : Type} (p : A -> bool) (l : list A) : Z :=
  match l with
  | [] => (-1)%Z
  | x :: l' =>
      if p x then 0%Z
      else
        let i := findIndex p l' in
        if (i =? -1)%Z then (-1)%Z else (i + 1)%Z
  end.

(** [Array.prototype.slice(b, e)] for in-range, non-negative bounds. *)
Definition slice {A : Type} (b e : nat) (l : list A) : list A :=
  firstn (e - b) (skipn b l).

(** [Array.prototype.filter] with a callback that can raise: elements are
    visited in order and the first exception aborts the traversal. *)
Fixpoint filterR {A : Type} (f : A -> Result bool) (l : list A) : Result (list A) :=
  match l with
  | [] => Ok []
  | x :: l' =>
      keep <- f x ;;
      rest <- filterR f l' ;;
      Ok (if keep then x :: rest else rest)
  end.

(** [Array.prototype.map] with the index passed to the callback. *)
Fixpoint mapi_from {A B : Type} (i : Z) (f : A -> Z -> Result B) (l : list A) : Result (list B) :=
  match l with
  | [] => Ok []
  | x :: l' =>
      y <- f x i ;;
      rest <- mapi_from (i + 1)%Z f l' ;;
      Ok (y :: rest)
  end.

Definition mapi {A B : Type} (f : A -> Z -> Result B) (l : list A) : Result (list B) :=
  mapi_from 0%Z f l.

(** [Array.prototype.join] on an array of strings. *)
Definition join (sep : string) (l : list string) : string := String.concat sep l.

Definition isDigit (c : ascii) : bool :=
  let n := nat_of_ascii c in ((48 <=? n) && (n <=? 57))%nat.

(** [String.prototype.toLowerCase] on the code units the embedding has:
    the capitals [A]..[Z] (65..90) and the Latin-1 capitals 192..222, the
    multiplication sign 215 apart, are 32 below their small letter; no
    other code unit below 256 changes. *)
Definition toLowerChar (c : ascii) : ascii :=
  let n := nat_of_ascii c in
  if ((65 <=? n) && (n <=? 90))%nat
     || ((192 <=? n) && (n <=? 222) && negb (n =? 215))%nat
  then ascii_of_nat (n + 32) else c.

Fixpoint toLower (s : string) : string :=
  match s with
  | EmptyString => EmptyString
  | String c s' => String (toLowerChar c) (toLower s')
  end.

(** The capture of [/.*?(\d+).*/]: the first maximal run of decimal digits
    of the text, [None] when the text has no digit ([match] returns
    [null]). *)
Fixpoint takeDigits (s : string) : string :=
  match s with
  | EmptyString => EmptyString
  | String c s' => if isDigit c then String c (takeDigits s') else EmptyString
  end.

Fixpoint firstDigitRun (s : string) : option string :=
  match s with
  | EmptyString => None
  | String c s' => if isDigit c then Some (takeDigits s) else firstDigitRun s'
  end.

(** The integer that a run of decimal digits writes. *)
Fixpoint parseDigits (acc : Z) (s : string) : Z :=
  match s with
  | EmptyString => acc
  | String c s' => parseDigits (10 * acc + (Z.of_nat (nat_of_ascii c) - 48))%Z s'
  end.

(** The double nearest to a natural number, ties to the even significand:
    a number below [2^53] is a double; above, the 53 leading bits are kept
    and rounded. A result of [2^1024] or more is [Infinity], for which
    [2^1024] stands: it is above every finite double, so order and
    equality of the results are those of the doubles. *)
Definition roundToDouble (n : Z) : Z :=
  if (n <? 2 ^ 53)%Z then n
  else
    let e := (Z.log2 n - 52)%Z in
    let q := Z.shiftr n e in
    let r := (n mod 2 ^ e)%Z in
    let half := (2 ^ (e - 1))%Z in
    let q' := if (half <? r)%Z || ((r =? half)%Z && Z.odd q) then (q + 1)%Z else q in
    Z.min (Z.shiftl q' e) (2 ^ 1024)%Z.

(** [parseInt(digits, 10)] on a run of decimal digits: a number, that is
    the double nearest to the integer written (the rounding of the engines;
    ECMAScript lets an implementation read the digits after the twentieth
    as zeros). *)
Definition parseInt10 (s : string) : Z := roundToDouble (parseDigits 0%Z s).

(** ** [_.sortBy] and [_.uniqBy]

    [_.sortBy] computes one key per element and orders the elements by
    ascending key, elements with equal keys staying in input order. It is
    embedded as the stable insertion sort, which is the only list with that
    property. *)
Section Lodash.
Context {A K : Type}.
Variable leb : K -> K -> bool.
Variable key : A -> K.

Fixpoint insertBy (x : A) (l : list A) : list A :=
  match l with
  | [] => [x]
  | y :: l' => if leb (key x) (key y) then x :: l else y :: insertBy x l'
  end.

Definition sortBy (l : list A) : list A := fold_right insertBy [] l.

Variable eqb : K -> K -> bool.

(** [_.uniqBy]: an element is kept when its key was not seen before. *)
Fixpoint uniqBy_from (seen : list K) (l : list A) : list A :=
  match l with
  | [] => []
  | x :: l' =>
      if existsb (eqb (key x)) seen then uniqBy_from seen l'
      else x :: uniqBy_from (key x :: seen) l'
  end.

Definition uniqBy (l : list A) : list A := uniqBy_from [] l.
End Lodash.

(** ** Data model

    The types [VariableOption], [VariableTag], [QueryVariableModel],
    [VariableHide], [VariableRefresh] and [VariableSort] are imported from
    ../variable and [Deferred] from ../deferred; the records below give
    them the fields this file reads and writes. *)

(** Modelled from the spec: a value that the model types as
    [string | string[]] and that the code also encounters as [undefined]
    (a field of [{}]) or [null] (the initial picker fields). *)
Inductive TextValue : Type :=
| TUndefined
| TNull
| TString (s : string)
| TArray (l : list string).

(** Modelled from the spec: Option, [{ text: string, value: string,
    selected: boolean, isNone?: boolean }]. [isNone = false] stands for the
    absent field as well; the file never reads it. *)
Module VariableOption.
Record t : Type := mk {
  text : string;
  value : string;
  selected : bool;
  isNone : bool
}.
(** [{ ...o, selected }] *)
Definition with_selected (o : t) (b : bool) : t := mk (text o) (value o) b (isNone o).
End VariableOption.

(** Modelled from the spec: Tag, [{ text: string, selected: boolean,
    values?: string[] }]; [values = None] is the absent field. *)
Module VariableTag.
Record t : Type := mk {
  text : string;
  selected : bool;
  values : option (list string)
}.
End VariableTag.

(** Modelled from the spec: CurrentSelection, [{ text: string | string[],
    value: string | string[], tags?: Tag[] }]; the initial [current] is
    [{}], all three fields undefined. *)
Module CurrentValue.
Record t : Type := mk {
  text : TextValue;
  value : TextValue;
  tags : option (list VariableTag.t)
}.
Definition with_text (c : t) (x : TextValue) : t := mk x (value c) (tags c).
End CurrentValue.

(** Modelled from the spec: InitLock, the class [Deferred] of ../deferred,
    an opaque awaitable handle with exactly two states, pending and
    resolved. [new Deferred()] is [Pending]. *)
Inductive Deferred : Type := Pending | Resolved.

(** Modelled from the spec: [resolve()] of [Deferred] takes a pending lock
    to resolved and changes nothing on a resolved one. *)
Definition Deferred_resolve (d : Deferred) : Deferred := Resolved.

(** The [initLock] field: missing (the initial model has no such key),
    [null] (after [removeInitLock]) or a lock. *)
Inductive InitLock : Type :=
| LockUndefined
| LockNull
| LockRef (d : Deferred).

(** The enumerations of ../variable. Only [dontHide] and [never] are named
    in this file; the other members are kept by their numeric code. *)
Inductive VariableHide : Type := dontHide | VariableHide_other (code : Z).
Inductive VariableRefresh : Type := never | VariableRefresh_other (code : Z).

(** Modelled from the spec: SortMode, a numeric enumeration in which
    [disabled] comes before the six sorted modes 1..6 (§4.1: the sort type
    is [ceil(mode / 2)] in 1..3 and even modes are reversed). *)
Definition VariableSort : Type := Z.
Definition VariableSort_disabled : VariableSort := 0%Z.

Module QueryVariableModel.
Record t : Type := mk {
  global : bool;
  index : Z;
  type : string;
  name : string;
  label : option string;
  hide : VariableHide;
  skipUrlSync : bool;
  datasource : option string;
  query : string;
  regex : string;
  sort : VariableSort;
  refresh : VariableRefresh;
  multi : bool;
  includeAll : bool;
  allValue : option string;
  options : list VariableOption.t;
  current : CurrentValue.t;
  tags : list VariableTag.t;
  useTags : bool;
  tagsQuery : string;
  tagValuesQuery : string;
  definition : string;
  initLock : InitLock
}.

(** [{ ...variable, options }] and its siblings. *)
Definition with_options (m : t) (x : list VariableOption.t) : t :=
  mk (global m) (index m) (type m) (name m) (label m) (hide m) (skipUrlSync m)
     (datasource m) (query m) (regex m) (sort m) (refresh m) (multi m)
     (includeAll m) (allValue m) x (current m) (tags m) (useTags m)
     (tagsQuery m) (tagValuesQuery m) (definition m) (initLock m).

Definition with_tags (m : t) (x : list VariableTag.t) : t :=
  mk (global m) (index m) (type m) (name m) (label m) (hide m) (skipUrlSync m)
     (datasource m) (query m) (regex m) (sort m) (refresh m) (multi m)
     (includeAll m) (allValue m) (options m) (current m) x (useTags m)
     (tagsQuery m) (tagValuesQuery m) (definition m) (initLock m).

Definition with_current_options (m : t) (c : CurrentValue.t) (x : list VariableOption.t) : t :=
  mk (global m) (index m) (type m) (name m) (label m) (hide m) (skipUrlSync m)
     (datasource m) (query m) (regex m) (sort m) (refresh m) (multi m)
     (includeAll m) (allValue m) x c (tags m) (useTags m)
     (tagsQuery m) (tagValuesQuery m) (definition m) (initLock m).

Definition with_initLock (m : t) (x : InitLock) : t :=
  mk (global m) (index m) (type m) (name m) (label m) (hide m) (skipUrlSync m)
     (datasource m) (query m) (regex m) (sort m) (refresh m) (multi m)
     (includeAll m) (allValue m) (options m) (current m) (tags m) (useTags m)
     (tagsQuery m) (tagValuesQuery m) (definition m) x.
End QueryVariableModel.

Module QueryVariablePickerState.
Record t : Type := mk {
  showDropDown : bool;
  linkText : TextValue;
  selectedValues : list VariableOption.t;
  selectedTags : list VariableTag.t;
  searchQuery : option string;
  searchOptions : list VariableOption.t;
  highlightIndex : Z;
  tags : list VariableTag.t;
  options : list VariableOption.t;
  queryHasSearchFilter : bool;
  oldVariableText : TextValue
}.

Definition with_linkText (p : t) (x : TextValue) : t :=
  mk (showDropDown p) x (selectedValues p) (selectedTags p) (searchQuery p)
     (searchOptions p) (highlightIndex p) (tags p) (options p)
     (queryHasSearchFilter p) (oldVariableText p).

Definition with_selectedValues (p : t) (x : list VariableOption.t) : t :=
  mk (showDropDown p) (linkText p) x (selectedTags p) (searchQuery p)
     (searchOptions p) (highlightIndex p) (tags p) (options p)
     (queryHasSearchFilter p) (oldVariableText p).

Definition with_selectedTags (p : t) (x : list VariableTag.t) : t :=
  mk (showDropDown p) (linkText p) (selectedValues p) x (searchQuery p)
     (searchOptions p) (highlightIndex p) (tags p) (options p)
     (queryHasSearchFilter p) (oldVariableText p).

Definition with_options (p : t) (x : list VariableOption.t) : t :=
  mk (showDropDown p) (linkText p) (selectedValues p) (selectedTags p) (searchQuery p)
     (searchOptions p) (highlightIndex p) (tags p) x
     (queryHasSearchFilter p) (oldVariableText p).

Definition with_showDropDown (p : t) (x : bool) : t :=
  mk x (linkText p) (selectedValues p) (selectedTags p) (searchQuery p)
     (searchOptions p) (highlightIndex p) (tags p) (options p)
     (queryHasSearchFilter p) (oldVariableText p).
End QueryVariablePickerState.

Module QueryVariableState.
Record t : Type := mk {
  picker : QueryVariablePickerState.t;
  variable : QueryVariableModel.t
}.
Definition with_picker (s : t) (p : QueryVariablePickerState.t) : t := mk p (variable s).
Definition with_variable (s : t) (v : QueryVariableModel.t) : t := mk (picker s) v.
End QueryVariableState.

Definition initialQueryVariablePickerState : QueryVariablePickerState.t :=
  {| QueryVariablePickerState.highlightIndex := (-1)%Z;
     QueryVariablePickerState.linkText := TNull;
     QueryVariablePickerState.queryHasSearchFilter := false;
     QueryVariablePickerState.searchOptions := [];
     QueryVariablePickerState.searchQuery := None;
     QueryVariablePickerState.selectedTags := [];
     QueryVariablePickerState.selectedValues := [];
     QueryVariablePickerState.showDropDown := false;
     QueryVariablePickerState.tags := [];
     QueryVariablePickerState.options := [];
     QueryVariablePickerState.oldVariableText := TNull |}.

Definition initialQueryVariableModelState : QueryVariableModel.t :=
  {| QueryVariableModel.global := false;
     QueryVariableModel.index := (-1)%Z;
     QueryVariableModel.type := "query";
     QueryVariableModel.name := "";
     QueryVariableModel.label := None;
     QueryVariableModel.hide := dontHide;
     QueryVariableModel.skipUrlSync := false;
     QueryVariableModel.datasource := None;
     QueryVariableModel.query := "";
     QueryVariableModel.regex := "";
     QueryVariableModel.sort := VariableSort_disabled;
     QueryVariableModel.refresh := never;
     QueryVariableModel.multi := false;
     QueryVariableModel.includeAll := false;
     QueryVariableModel.allValue := None;
     QueryVariableModel.options := [];
     QueryVariableModel.current := CurrentValue.mk TUndefined TUndefined None;
     QueryVariableModel.tags := [];
     QueryVariableModel.useTags := false;
     QueryVariableModel.tagsQuery := "";
     QueryVariableModel.tagValuesQuery := "";
     QueryVariableModel.definition := "";
     QueryVariableModel.initLock := LockUndefined |}.

Definition initialQueryVariableState : QueryVariableState.t :=
  {| QueryVariableState.picker := initialQueryVariablePickerState;
     QueryVariableState.variable := initialQueryVariableModelState |}.

Definition ALL_VARIABLE_TEXT : string := "All".
Definition ALL_VARIABLE_VALUE : string := "$__all".
Definition NONE_VARIABLE_TEXT : string := "None".
Definition NONE_VARIABLE_VALUE : string := "".

(** ** Option sorter: [sortVariableValues]

    [sortVariableValues] below is the function on options whose text is a
    string, as [VariableOption] has it; [sortVariableValuesOf], further
    down, is the same function on options of any shape, and the two agree
    on options with a string text ([sortVariableValuesOf_typed]). *)

(** [Math.ceil(sortOrder / 2)] on an integer. *)
Definition sortTypeOf (sortOrder : VariableSort) : Z := ((sortOrder + 1) / 2)%Z.

(** [sortOrder % 2 === 0]; [%] truncates towards zero, as [Z.rem] does. *)
Definition reverseSortOf (sortOrder : VariableSort) : bool := (Z.rem sortOrder 2 =? 0)%Z.

(** The key of the numeric sort: [-1] when the text has no digit, the first
    run of digits read as a decimal number otherwise. *)
Definition numericKey (opt : VariableOption.t) : Z :=
  match firstDigitRun (VariableOption.text opt) with
  | None => (-1)%Z
  | Some digits => parseInt10 digits
  end.

Definition sortVariableValues (options : list VariableOption.t) (sortOrder : VariableSort)
  : list VariableOption.t :=
  if (sortOrder =? VariableSort_disabled)%Z then options
  else
    let sortType := sortTypeOf sortOrder in
    let reverseSort := reverseSortOf sortOrder in
    let options :=
      if (sortType =? 1)%Z then sortBy String.leb VariableOption.text options
      else if (sortType =? 2)%Z then sortBy Z.leb numericKey options
      else if (sortType =? 3)%Z then
        sortBy String.leb (fun opt => toLower (VariableOption.text opt)) options
      else options in
    if reverseSort then rev options else options.

(** ** Result normalizer: [metricNamesToVariableValues] *)

(** A field of a raw result [{ text?, value? }]: missing ([undefined]),
    [null], a number or a string. The code does one thing with a number,
    [toString()], so a number is given by the string that
    [Number.prototype.toString] returns for it. *)
Inductive Scalar : Type :=
| SUndefined
| SNull
| SNum (printed : string)
| SStr (s : string).

Module MetricName.
Record t : Type := mk {
  text : Scalar;
  value : Scalar
}.
End MetricName.

(** The text or the value of an option as the normalizer builds it: a
    string, or [undefined] or [null] when the raw result had neither field
    or when the capture group took no part in the match. *)
Inductive MaybeString : Type :=
| MUndefined
| MNull
| MString (s : string).

(** An option as built at line 170, [{ text, value, selected: false }]. *)
Module RawOption.
Record t : Type := mk {
  text : MaybeString;
  value : MaybeString;
  selected : bool
}.
End RawOption.

(** [x === undefined || x === null] *)
Definition isNullish (x : Scalar) : bool :=
  match x with
  | SUndefined | SNull => true
  | SNum _ | SStr _ => false
  end.

(** [_.isNumber(x) ? x.toString() : x] *)
Definition stringifyNumber (x : Scalar) : MaybeString :=
  match x with
  | SUndefined => MUndefined
  | SNull => MNull
  | SNum printed => MString printed
  | SStr s => MString s
  end.

(** The string that [regex.exec(value)] matches against: [ToString(value)]. *)
Definition execArgument (value : MaybeString) : string :=
  match value with
  | MUndefined => "undefined"
  | MNull => "null"
  | MString s => s
  end.

(** [matches[1]]: a string, or [undefined] for a group that took no part
    in the match. *)
Definition ofCapture (g : option string) : MaybeString :=
  match g with
  | Some s => MString s
  | None => MUndefined
  end.

(** SameValueZero, the equality of [_.uniqBy], on texts and values. *)
Definition MaybeString_eqb (a b : MaybeString) : bool :=
  match a, b with
  | MUndefined, MUndefined => true
  | MNull, MNull => true
  | MString x, MString y => String.eqb x y
  | _, _ => false
  end.

(** The order of [_.sortBy] (lodash's [compareAscending]) on texts:
    strings by code unit, then [null], then [undefined]. *)
Definition MaybeString_leb (a b : MaybeString) : bool :=
  match a, b with
  | MString x, MString y => String.leb x y
  | MString _, _ => true
  | MNull, MString _ => false
  | MNull, _ => true
  | MUndefined, MUndefined => true
  | MUndefined, _ => false
  end.

(** The key of the numeric sort for a text that is a string. *)
Definition numericKeyOfText (text : string) : Z :=
  match firstDigitRun text with
  | None => (-1)%Z
  | Some digits => parseInt10 digits
  end.

(** [sortVariableValues] as written, on options of any shape
    ([options: any[]]); [text] reads [opt.text]. In the numeric sort
    [opt.text.match] raises on a text that is [undefined] or [null];
    [_.toLower] takes such a text to the empty string. *)
Definition sortVariableValuesOf {A : Type} (text : A -> MaybeString)
  (options : list A) (sortOrder : VariableSort) : Result (list A) :=
  if (sortOrder =? VariableSort_disabled)%Z then Ok options
  else
    let sortType := sortTypeOf sortOrder in
    let reverseSort := reverseSortOf sortOrder in
    options <-
      (if (sortType =? 1)%Z then Ok (sortBy MaybeString_leb text options)
       else if (sortType =? 2)%Z then
         if existsb (fun opt => match text opt with MString _ => false | _ => true end) options
         then Throw TypeError
         else
           Ok (sortBy Z.leb
                 (fun opt => match text opt with
                             | MString s => numericKeyOfText s
                             | _ => (-1)%Z
                             end) options)
       else if (sortType =? 3)%Z then
         Ok (sortBy String.leb
               (fun opt => toLower (match text opt with MString s => s | _ => "" end))
               options)
       else Ok options) ;;
    Ok (if reverseSort then rev options else options).

(** The collaborators behind [stringToJsRegex(templateSrv.replace(s, {},
    'regex'))] and [regex.exec]: the templating service, the pattern
    compiler (which raises on a malformed pattern) and the matcher. A
    matcher with the [g] or [y] flag keeps [lastIndex] between calls, so
    [exec] returns the matcher to use next together with the match array
    ([None] for [null]); an element of the match array is a string, or
    [None] for the [undefined] of a group that took no part in the
    match. *)
Record RegexService : Type := {
  RegExp : Type;
  templateSrv_replace : string -> string;
  stringToJsRegex : string -> Result RegExp;
  exec : RegExp -> string -> RegExp * option (list (option string))
}.

Section Normalizer.
Variable env : RegexService.

(** [if (variableRegEx) { regex = stringToJsRegex(...) }] *)
Definition compileVariableRegEx (variableRegEx : string) : Result (option (RegExp env)) :=
  if String.eqb variableRegEx "" then Ok None
  else
    r <- stringToJsRegex env (templateSrv_replace env variableRegEx) ;;
    Ok (Some r).

(** The body of the [for] loop of [metricNamesToVariableValues]. *)
Fixpoint collectOptions (regex : option (RegExp env)) (metricNames : list MetricName.t)
  : list RawOption.t :=
  match metricNames with
  | [] => []
  | item :: rest =>
      let text :=
        if isNullish (MetricName.text item) then MetricName.value item
        else MetricName.text item in
      let value :=
        if isNullish (MetricName.value item) then MetricName.text item
        else MetricName.value item in
      let value := stringifyNumber value in
      let text := stringifyNumber text in
      match regex with
      | None => RawOption.mk text value false :: collectOptions None rest
      | Some r =>
          let (r', matches) := exec env r (execArgument value) in
          match matches with
          | None => collectOptions (Some r') rest
          | Some (_ :: g :: _) =>
              RawOption.mk (ofCapture g) (ofCapture g) false :: collectOptions (Some r') rest
          | Some _ =>
              RawOption.mk text value false :: collectOptions (Some r') rest
          end
      end
  end.

Definition metricNamesToVariableValues
  (variableRegEx : string) (sort : VariableSort) (metricNames : list MetricName.t)
  : Result (list RawOption.t) :=
  regex <- compileVariableRegEx variableRegEx ;;
  let options := collectOptions regex metricNames in
  let options := uniqBy RawOption.value MaybeString_eqb options in
  sortVariableValuesOf RawOption.text options sort.

End Normalizer.

(** The options of the normalizer as [VariableOption]s, which the state
    holds: there is none when a text or a value is not a string. *)
Fixpoint typedOptions (options : list RawOption.t) : Result (list VariableOption.t) :=
  match options with
  | [] => Ok []
  | o :: rest =>
      match RawOption.text o, RawOption.value o with
      | MString text, MString value =>
          rest' <- typedOptions rest ;;
          Ok (VariableOption.mk text value (RawOption.selected o) false :: rest')
      | _, _ => Untyped
      end
  end.

(** ** Post-processing steps *)

(** The state-changing steps chained by [appyStateChanges]; a step can
    raise. *)
Definition MutateStateFunc : Type := QueryVariableState.t -> Result QueryVariableState.t.

Definition appyStateChanges (state : QueryVariableState.t) (args : list MutateStateFunc)
  : Result QueryVariableState.t :=
  fold_left (fun all cur => bind all cur) args (Ok state).

(** The [for] loop over [current.tags] in the filter callback of
    [updateLinkText]: [Ok false] as soon as a tag lists the value, a
    [TypeError] on a tag without [values] ([tag.values.findIndex] on
    [undefined]), [Ok true] at the end of the tags. *)
Fixpoint notInTags (value : string) (tags : list VariableTag.t) : Result bool :=
  match tags with
  | [] => Ok true
  | tag :: rest =>
      match VariableTag.values tag with
      | None => Throw TypeError
      | Some values =>
          let foundIndex := findIndex (fun v => String.eqb v value) values in
          if negb (foundIndex =? -1)%Z then Ok false else notInTags value rest
      end
  end.

Definition selectedAndNotInTag (tags : list VariableTag.t) (option : VariableOption.t)
  : Result bool :=
  if negb (VariableOption.selected option) then Ok false
  else notInTags (VariableOption.value option) tags.

Definition updateLinkText : MutateStateFunc := fun state =>
  let current := QueryVariableModel.current (QueryVariableState.variable state) in
  let options := QueryVariableModel.options (QueryVariableState.variable state) in
  match CurrentValue.tags current with
  | None | Some [] =>
      Ok (QueryVariableState.with_picker state
            (QueryVariablePickerState.with_linkText (QueryVariableState.picker state)
               (CurrentValue.text current)))
  | Some tags =>
      selected <- filterR (selectedAndNotInTag tags) options ;;
      let currentTexts := map VariableOption.text selected in
      let newLinkText := join " + " currentTexts in
      Ok (QueryVariableState.with_picker state
            (QueryVariablePickerState.with_linkText (QueryVariableState.picker state)
               (TString (if (0 <? String.length newLinkText)%nat
                         then newLinkText ++ " + " else newLinkText))))
  end.

Definition updateSelectedValues (state : QueryVariableState.t) : QueryVariableState.t :=
  QueryVariableState.with_picker state
    (QueryVariablePickerState.with_selectedValues (QueryVariableState.picker state)
       (filter VariableOption.selected
          (QueryVariableModel.options (QueryVariableState.variable state)))).

Definition updateSelectedTags (state : QueryVariableState.t) : QueryVariableState.t :=
  QueryVariableState.with_picker state
    (QueryVariablePickerState.with_selectedTags (QueryVariableState.picker state)
       (filter VariableTag.selected
          (QueryVariableModel.tags (QueryVariableState.variable state)))).

Definition updateOptions (state : QueryVariableState.t) : QueryVariableState.t :=
  let options := QueryVariableModel.options (QueryVariableState.variable state) in
  QueryVariableState.with_picker state
    (QueryVariablePickerState.with_options (QueryVariableState.picker state)
       (slice 0 (Nat.min (List.length options) 1000) options)).

(** A step that cannot raise, as a [MutateStateFunc]. *)
Definition total (f : QueryVariableState.t -> QueryVariableState.t) : MutateStateFunc :=
  fun state => Ok (f state).

(** [appyStateChanges(newState, updateLinkText, updateOptions,
    updateSelectedValues, updateSelectedTags)] *)
Definition postProcess (newState : QueryVariableState.t) : Result QueryVariableState.t :=
  appyStateChanges newState
    [updateLinkText; total updateOptions; total updateSelectedValues; total updateSelectedTags].

(** ** Events

    The action creators are imported from ./actions; an action is embedded
    by the fields of the payload that the reducers read. *)

(** The [{ type, name }] routing key carried by an event. *)
Module VariableIdentifier.
Record t : Type := mk {
  type : string;
  name : string
}.
End VariableIdentifier.

(** A result of the tag query: [results[i].text] is all that is read. *)
Module TagResult.
Record t : Type := mk {
  text : string
}.
End TagResult.

(** The modifier keys of the mouse event of [selectVariableOption]. *)
Module MouseEvent.
Record t : Type := mk {
  ctrlKey : bool;
  metaKey : bool;
  shiftKey : bool
}.
End MouseEvent.

Inductive Action : Type :=
| addVariable (global : bool) (index : Z) (model : QueryVariableModel.t)
| updateVariableOptions (variable : VariableIdentifier.t) (results : list MetricName.t)
| updateVariableTags (variable : VariableIdentifier.t) (results : list TagResult.t)
| setCurrentVariableValue (variable : VariableIdentifier.t) (current : CurrentValue.t)
| setInitLock (payload : VariableIdentifier.t)
| resolveInitLock (payload : VariableIdentifier.t)
| removeInitLock (payload : VariableIdentifier.t)
| selectVariableOption (variable : VariableIdentifier.t) (chosen : VariableOption.t)
    (forceSelect : bool) (event : MouseEvent.t)
| showQueryVariableDropDown (payload : VariableIdentifier.t)
| hideQueryVariableDropDown (payload : VariableIdentifier.t)
| otherAction.

(** ** The transitions of [queryVariableReducer] *)

(** [addVariable]: twenty fields come from [payload.model], [global] and
    [index] from the payload, [initLock] stays. *)
Definition addVariable_state (state : QueryVariableState.t)
  (global : bool) (index : Z) (model : QueryVariableModel.t) : QueryVariableState.t :=
  QueryVariableState.with_variable state
    {| QueryVariableModel.global := global;
       QueryVariableModel.index := index;
       QueryVariableModel.type := QueryVariableModel.type model;
       QueryVariableModel.name := QueryVariableModel.name model;
       QueryVariableModel.label := QueryVariableModel.label model;
       QueryVariableModel.hide := QueryVariableModel.hide model;
       QueryVariableModel.skipUrlSync := QueryVariableModel.skipUrlSync model;
       QueryVariableModel.datasource := QueryVariableModel.datasource model;
       QueryVariableModel.query := QueryVariableModel.query model;
       QueryVariableModel.regex := QueryVariableModel.regex model;
       QueryVariableModel.sort := QueryVariableModel.sort model;
       QueryVariableModel.refresh := QueryVariableModel.refresh model;
       QueryVariableModel.multi := QueryVariableModel.multi model;
       QueryVariableModel.includeAll := QueryVariableModel.includeAll model;
       QueryVariableModel.allValue := QueryVariableModel.allValue model;
       QueryVariableModel.options := QueryVariableModel.options model;
       QueryVariableModel.current := QueryVariableModel.current model;
       QueryVariableModel.tags := QueryVariableModel.tags model;
       QueryVariableModel.useTags := QueryVariableModel.useTags model;
       QueryVariableModel.tagsQuery := QueryVariableModel.tagsQuery model;
       QueryVariableModel.tagValuesQuery := QueryVariableModel.tagValuesQuery model;
       QueryVariableModel.definition := QueryVariableModel.definition model;
       QueryVariableModel.initLock :=
         QueryVariableModel.initLock (QueryVariableState.variable state) |}.

(** [updateVariableOptions], after the normalizer: [unshift] of the "All"
    option when [includeAll], [push] of the "None" option when the list is
    still empty. *)
Definition withAllAndNone (includeAll : bool) (options : list VariableOption.t)
  : list VariableOption.t :=
  let options :=
    if includeAll
    then VariableOption.mk ALL_VARIABLE_TEXT ALL_VARIABLE_VALUE false false :: options
    else options in
  if (List.length options =? 0)%nat
  then options ++ [VariableOption.mk NONE_VARIABLE_TEXT NONE_VARIABLE_VALUE false true]
  else options.

(** [updateVariableTags]: one unselected tag per result. *)
Definition tagsOfResults (results : list TagResult.t) : list VariableTag.t :=
  map (fun r => VariableTag.mk (TagResult.text r) false None) results.

(** [setCurrentVariableValue]: the text that [current.text] is set to. *)
Definition currentText (current : CurrentValue.t) : TextValue :=
  match CurrentValue.text current with
  | TArray (t :: ts) => TString (join " + " (t :: ts))
  | text =>
      match CurrentValue.value current with
      | TArray value =>
          let firstIsAll :=
            match value with
            | v0 :: _ => String.eqb v0 ALL_VARIABLE_VALUE
            | [] => false
            end in
          if negb firstIsAll then TString (join " + " value) else text
      | _ => text
      end
  end.

(** The [selected] flag that [setCurrentVariableValue] gives to an option. *)
Definition selectedByCurrent (value : TextValue) (o : VariableOption.t) : bool :=
  match value with
  | TArray values => existsb (fun value => String.eqb (VariableOption.value o) value) values
  | TString value => String.eqb (VariableOption.value o) value
  | TUndefined | TNull => false
  end.

Definition setCurrentVariableValue_newState (state : QueryVariableState.t)
  (current : CurrentValue.t) : QueryVariableState.t :=
  let current := CurrentValue.with_text current (currentText current) in
  QueryVariableState.with_variable state
    (QueryVariableModel.with_current_options (QueryVariableState.variable state)
       current
       (map (fun o => VariableOption.with_selected o
                        (selectedByCurrent (CurrentValue.value current) o))
          (QueryVariableModel.options (QueryVariableState.variable state)))).

(** [selectVariableOption]: the callback of [state.variable.options.map]. *)
Definition selectOne (multi : bool) (chosen : VariableOption.t) (forceSelect : bool)
  (event : MouseEvent.t) (o : VariableOption.t) : VariableOption.t :=
  if negb (String.eqb (VariableOption.value o) (VariableOption.value chosen)) then
    let selected :=
      if String.eqb (VariableOption.text o) ALL_VARIABLE_TEXT
         || String.eqb (VariableOption.text chosen) ALL_VARIABLE_TEXT then false
      else if negb multi then false
      else if MouseEvent.ctrlKey event || MouseEvent.metaKey event || MouseEvent.shiftKey event
           then false
      else VariableOption.selected o in
    VariableOption.with_selected o selected
  else
    let selected :=
      if forceSelect then true
      else if multi then negb (VariableOption.selected chosen) else true in
    VariableOption.with_selected o selected.

(** [newOptions[0].selected = true] *)
Definition selectFirst (newOptions : list VariableOption.t) : list VariableOption.t :=
  match newOptions with
  | [] => []
  | o :: rest => VariableOption.with_selected o true :: rest
  end.

Definition selectVariableOption_newOptions (multi : bool) (chosen : VariableOption.t)
  (forceSelect : bool) (event : MouseEvent.t) (options : list VariableOption.t)
  : list VariableOption.t :=
  let newOptions := map (selectOne multi chosen forceSelect event) options in
  if (0 <? List.length newOptions)%nat
     && (List.length (filter VariableOption.selected newOptions) =? 0)%nat
  then selectFirst newOptions
  else newOptions.

Definition selectVariableOption_newState (state : QueryVariableState.t)
  (chosen : VariableOption.t) (forceSelect : bool) (event : MouseEvent.t)
  : QueryVariableState.t :=
  let multi := QueryVariableModel.multi (QueryVariableState.variable state) in
  QueryVariableState.with_variable state
    (QueryVariableModel.with_options (QueryVariableState.variable state)
       (selectVariableOption_newOptions multi chosen forceSelect event
          (QueryVariableModel.options (QueryVariableState.variable state)))).

(** [showQueryVariableDropDown]: the search query is restored only when the
    query has a search filter and a non-empty query was typed before. *)
Definition showQueryVariableDropDown_newState (state : QueryVariableState.t)
  : QueryVariableState.t :=
  let current := QueryVariableModel.current (QueryVariableState.variable state) in
  let picker := QueryVariableState.picker state in
  let oldVariableText := CurrentValue.text current in
  let highlightIndex := (-1)%Z in
  let showDropDown := true in
  let searchQuery :=
    match QueryVariablePickerState.queryHasSearchFilter picker,
          QueryVariablePickerState.searchQuery picker with
    | true, Some (String c q) => String c q
    | _, _ => ""
    end in
  QueryVariableState.with_picker state
    {| QueryVariablePickerState.showDropDown := showDropDown;
       QueryVariablePickerState.linkText := QueryVariablePickerState.linkText picker;
       QueryVariablePickerState.selectedValues := QueryVariablePickerState.selectedValues picker;
       QueryVariablePickerState.selectedTags := QueryVariablePickerState.selectedTags picker;
       QueryVariablePickerState.searchQuery := Some searchQuery;
       QueryVariablePickerState.searchOptions := QueryVariablePickerState.searchOptions picker;
       QueryVariablePickerState.highlightIndex := highlightIndex;
       QueryVariablePickerState.tags := QueryVariablePickerState.tags picker;
       QueryVariablePickerState.options := QueryVariablePickerState.options picker;
       QueryVariablePickerState.queryHasSearchFilter :=
         QueryVariablePickerState.queryHasSearchFilter picker;
       QueryVariablePickerState.oldVariableText := oldVariableText |}.

Definition hideQueryVariableDropDown_newState (state : QueryVariableState.t)
  : QueryVariableState.t :=
  QueryVariableState.with_picker state
    (QueryVariablePickerState.with_showDropDown (QueryVariableState.picker state) false).

(** [resolveInitLock]: [state.variable.initLock.resolve()] raises when the
    lock is missing or [null]; otherwise the lock is resolved in place and
    [{ ...state }] is returned. *)
Definition resolveInitLock_state (state : QueryVariableState.t) : Result QueryVariableState.t :=
  match QueryVariableModel.initLock (QueryVariableState.variable state) with
  | LockUndefined | LockNull => Throw TypeError
  | LockRef d =>
      Ok (QueryVariableState.with_variable state
            (QueryVariableModel.with_initLock (QueryVariableState.variable state)
               (LockRef (Deferred_resolve d))))
  end.

(** An element of the collection is a state object. It is embedded as a
    reference, the address of the object together with its content, so that
    the object [v] that [Array.prototype.map] hands back can be told from a
    copy of it. *)
Module InstanceRef.
Record t : Type := mk {
  addr : nat;
  content : QueryVariableState.t
}.
End InstanceRef.

Section Reducer.
Variable env : RegexService.

Definition queryVariableReducer (state : QueryVariableState.t) (action : Action)
  : Result QueryVariableState.t :=
  match action with
  | addVariable global index model => Ok (addVariable_state state global index model)
  | updateVariableOptions _ results =>
      let variable := QueryVariableState.variable state in
      options <- metricNamesToVariableValues env (QueryVariableModel.regex variable)
                   (QueryVariableModel.sort variable) results ;;
      options <- typedOptions options ;;
      let options := withAllAndNone (QueryVariableModel.includeAll variable) options in
      Ok (QueryVariableState.with_variable state
            (QueryVariableModel.with_options variable options))
  | updateVariableTags _ results =>
      Ok (QueryVariableState.with_variable state
            (QueryVariableModel.with_tags (QueryVariableState.variable state)
               (tagsOfResults results)))
  | setCurrentVariableValue _ current =>
      postProcess (setCurrentVariableValue_newState state current)
  | setInitLock _ =>
      Ok (QueryVariableState.with_variable state
            (QueryVariableModel.with_initLock (QueryVariableState.variable state)
               (LockRef Pending)))
  | resolveInitLock _ => resolveInitLock_state state
  | removeInitLock _ =>
      Ok (QueryVariableState.with_variable state
            (QueryVariableModel.with_initLock (QueryVariableState.variable state) LockNull))
  | selectVariableOption _ chosen forceSelect event =>
      postProcess (selectVariableOption_newState state chosen forceSelect event)
  | showQueryVariableDropDown _ =>
      postProcess (showQueryVariableDropDown_newState state)
  | hideQueryVariableDropDown _ =>
      postProcess (hideQueryVariableDropDown_newState state)
  | otherAction => Ok state
  end.

(** ** Collection router: [updateChildState], [queryVariablesReducer]

    [fresh] is the address of the one object that an event allocates: the
    [{ ...v, ...r }] of [updateChildState], the appended instance of
    [addVariable]. *)

(** [state[i]]: [undefined] out of range. *)
Definition lookup {A : Type} (l : list A) (i : Z) : option A :=
  if (i <? 0)%Z then None else nth_error l (Z.to_nat i).

(** The default parameter [state = initialQueryVariableState]. *)
Definition orInitial (state : option QueryVariableState.t) : QueryVariableState.t :=
  match state with
  | Some s => s
  | None => initialQueryVariableState
  end.

(** [{ ...v, ...r }]: both fields of [v] are overwritten by those of [r]. *)
Definition spread (v r : QueryVariableState.t) : QueryVariableState.t :=
  QueryVariableState.with_variable
    (QueryVariableState.with_picker v (QueryVariableState.picker r))
    (QueryVariableState.variable r).

Definition updateChildState (fresh : nat) (state : list InstanceRef.t)
  (type name : string) (action : Action) : Result (list InstanceRef.t) :=
  if negb (String.eqb type "query") then Ok state
  else
    let instanceIndex :=
      findIndex (fun child =>
                   String.eqb
                     (QueryVariableModel.name (QueryVariableState.variable (InstanceRef.content child)))
                     name) state in
    let instanceState := option_map InstanceRef.content (lookup state instanceIndex) in
    mapi (fun v index =>
            if negb (index =? instanceIndex)%Z then Ok v
            else
              r <- queryVariableReducer (orInitial instanceState) action ;;
              Ok (InstanceRef.mk fresh (spread (InstanceRef.content v) r)))
         state.

Definition queryVariablesReducer (fresh : nat) (state : list InstanceRef.t) (action : Action)
  : Result (list InstanceRef.t) :=
  match action with
  | addVariable _ _ model =>
      if negb (String.eqb (QueryVariableModel.type model) "query") then Ok state
      else
        variable <- queryVariableReducer initialQueryVariableState action ;;
        Ok (state ++ [InstanceRef.mk fresh variable])
  | updateVariableOptions variable _
  | updateVariableTags variable _
  | setCurrentVariableValue variable _
  | selectVariableOption variable _ _ _ =>
      updateChildState fresh state
        (VariableIdentifier.type variable) (VariableIdentifier.name variable) action
  | setInitLock payload
  | resolveInitLock payload
  | removeInitLock payload
  | showQueryVariableDropDown payload
  | hideQueryVariableDropDown payload =>
      updateChildState fresh state
        (VariableIdentifier.type payload) (VariableIdentifier.name payload) action
  | otherAction => Ok state
  end.

(** The states an instance can be in: the initial state, and every state
    that an event leads to without raising. *)
Inductive reachable : QueryVariableState.t -> Prop :=
| reachable_initial : reachable initialQueryVariableState
| reachable_step (s s' : QueryVariableState.t) (a : Action) :
    reachable s -> queryVariableReducer s a = Ok s' -> reachable s'.

End Reducer.

(** A pattern service for patterns without metacharacters and without
    template variables: [stringToJsRegex] anchors such a pattern, which then
    matches exactly the value equal to it and captures nothing. *)
Definition literalRegexService : RegexService :=
  {| RegExp := string;
     templateSrv_replace := fun s => s;
     stringToJsRegex := fun s => Ok s;
     exec := fun r value => (r, if String.eqb r value then Some [Some value] else None) |}.

(** ** Vocabulary of the properties *)

(** What a raw result stands for when no pattern is in force. Its value
    is its [value] field when that is a number or a string, printed; its
    [text] field otherwise, printed when a number or a string and as it is
    ([undefined] or [null]) when not. Its text is the same with the two
    fields exchanged. *)
Definition fieldOrElse (field other : Scalar) : MaybeString :=
  match field, other with
  | SNum printed, _ => MString printed
  | SStr s, _ => MString s
  | _, SNum printed => MString printed
  | _, SStr s => MString s
  | _, SUndefined => MUndefined
  | _, SNull => MNull
  end.

Definition expectedValue (item : MetricName.t) : MaybeString :=
  fieldOrElse (MetricName.value item) (MetricName.text item).

Definition expectedText (item : MetricName.t) : MaybeString :=
  fieldOrElse (MetricName.text item) (MetricName.value item).

Definition optionOfItem (item : MetricName.t) : RawOption.t :=
  RawOption.mk (expectedText item) (expectedValue item) false.

(** A raw result with neither a text nor a value. *)
Definition hasNoField (item : MetricName.t) : bool :=
  isNullish (MetricName.text item) && isNullish (MetricName.value item).

(** A text that is not a string. *)
Definition noText (text : MaybeString) : bool :=
  match text with
  | MString _ => false
  | MUndefined | MNull => true
  end.

(** A [VariableOption] as the normalizer would have built it. *)
Definition untypedOption (o : VariableOption.t) : RawOption.t :=
  RawOption.mk (MString (VariableOption.text o)) (MString (VariableOption.value o))
    (VariableOption.selected o).

(** A raw result that carries the same string as text and as value. *)
Definition rawString (s : string) : MetricName.t := MetricName.mk SUndefined (SStr s).

(** The number of selected options of a list. *)
Definition countSelected (options : list VariableOption.t) : nat :=
  List.length (filter VariableOption.selected options).

(** Every tag of [current.tags] has a [values] array. *)
Definition tagsHaveValues (current : CurrentValue.t) : Prop :=
  forall tags tag,
    CurrentValue.tags current = Some tags -> In tag tags -> VariableTag.values tag <> None.

(** The state that a transition hands to the post-processing pipeline, for
    the four events that run it. *)
Definition pipelineInput (state : QueryVariableState.t) (action : Action)
  : option QueryVariableState.t :=
  match action with
  | setCurrentVariableValue _ current => Some (setCurrentVariableValue_newState state current)
  | selectVariableOption _ chosen forceSelect event =>
      Some (selectVariableOption_newState state chosen forceSelect event)
  | showQueryVariableDropDown _ => Some (showQueryVariableDropDown_newState state)
  | hideQueryVariableDropDown _ => Some (hideQueryVariableDropDown_newState state)
  | _ => None
  end.

(** The routing key of an event: the declared type and the name of the
    instance it is for. *)
Definition routingKey (action : Action) : option VariableIdentifier.t :=
  match action with
  | addVariable _ _ model =>
      Some (VariableIdentifier.mk (QueryVariableModel.type model) (QueryVariableModel.name model))
  | updateVariableOptions variable _
  | updateVariableTags variable _
  | setCurrentVariableValue variable _
  | selectVariableOption variable _ _ _ => Some variable
  | setInitLock payload
  | resolveInitLock payload
  | removeInitLock payload
  | showQueryVariableDropDown payload
  | hideQueryVariableDropDown payload => Some payload
  | otherAction => None
  end.

(** The name of the instance behind a reference. *)
Definition instanceName (r : InstanceRef.t) : string :=
  QueryVariableModel.name (QueryVariableState.variable (InstanceRef.content r)).

(** States used as concrete inputs below. *)
Definition optionNamed (text : string) (selected : bool) : VariableOption.t :=
  VariableOption.mk text text selected false.

Definition stateWith (multi : bool) (options : list VariableOption.t)
  (current : CurrentValue.t) (lock : InitLock) : QueryVariableState.t :=
  QueryVariableState.with_variable initialQueryVariableState
    {| QueryVariableModel.global := false;
       QueryVariableModel.index := 0%Z;
       QueryVariableModel.type := "query";
       QueryVariableModel.name := "host";
       QueryVariableModel.label := None;
       QueryVariableModel.hide := dontHide;
       QueryVariableModel.skipUrlSync := false;
       QueryVariableModel.datasource := None;
       QueryVariableModel.query := "";
       QueryVariableModel.regex := "";
       QueryVariableModel.sort := VariableSort_disabled;
       QueryVariableModel.refresh := never;
       QueryVariableModel.multi := multi;
       QueryVariableModel.includeAll := false;
       QueryVariableModel.allValue := None;
       QueryVariableModel.options := options;
       QueryVariableModel.current := current;
       QueryVariableModel.tags := [];
       QueryVariableModel.useTags := false;
       QueryVariableModel.tagsQuery := "";
       QueryVariableModel.tagValuesQuery := "";
       QueryVariableModel.definition := "";
       QueryVariableModel.initLock := lock |}.

Definition noCurrent : CurrentValue.t := CurrentValue.mk TUndefined TUndefined None.
Definition hostKey : VariableIdentifier.t := VariableIdentifier.mk "query" "host".
Definition noModifier : MouseEvent.t := MouseEvent.mk false false false.

(** The instance right after [updateVariableOptions] with no result, from
    the initial state. *)
Definition stateAfterEmptyResults : QueryVariableState.t :=
  QueryVariableState.with_variable initialQueryVariableState
    (QueryVariableModel.with_options initialQueryVariableModelState
       [VariableOption.mk NONE_VARIABLE_TEXT NONE_VARIABLE_VALUE false true]).

(** A current selection whose only tag has no [values]. *)
Definition currentWithBareTag : CurrentValue.t :=
  CurrentValue.mk (TString "a") (TString "a") (Some [VariableTag.mk "az" false None]).

(** The text has a decimal digit. *)
Fixpoint hasDigit (s : string) : bool :=
  match s with
  | EmptyString => false
  | String c s' => isDigit c || hasDigit s'
  end.

(** What identifies an option apart from its [selected] flag. *)
Definition optionIdentity (o : VariableOption.t) : string * string * bool :=
  (VariableOption.text o, VariableOption.value o, VariableOption.isNone o).

(** A modifier key is held in the mouse event. *)
Definition modifierHeld (event : MouseEvent.t) : bool :=
  MouseEvent.ctrlKey event || MouseEvent.metaKey event || MouseEvent.shiftKey event.

(** The list with the element at place [i] replaced. *)
Definition replaceAt {A : Type} (i : nat) (x : A) (l : list A) : list A :=
  firstn i l ++ x :: skipn (S i) l.

(** The events that only touch the initialization lock. *)
Definition isLockEvent (action : Action) : bool :=
  match action with
  | setInitLock _ | resolveInitLock _ | removeInitLock _ => true
  | _ => false
  end.

(** The synthetic options of [updateVariableOptions]. *)
Definition allOption : VariableOption.t :=
  VariableOption.mk ALL_VARIABLE_TEXT ALL_VARIABLE_VALUE false false.
Definition noneOption : VariableOption.t :=
  VariableOption.mk NONE_VARIABLE_TEXT NONE_VARIABLE_VALUE false true.

(** A state with [includeAll] set, used as a concrete input. *)
Definition stateIncludingAll : QueryVariableState.t :=
  let s := stateWith true [] noCurrent LockUndefined in
  let m := QueryVariableState.variable s in
  QueryVariableState.with_variable s
    {| QueryVariableModel.global := QueryVariableModel.global m;
       QueryVariableModel.index := QueryVariableModel.index m;
       QueryVariableModel.type := QueryVariableModel.type m;
       QueryVariableModel.name := QueryVariableModel.name m;
       QueryVariableModel.label := QueryVariableModel.label m;
       QueryVariableModel.hide := QueryVariableModel.hide m;
       QueryVariableModel.skipUrlSync := QueryVariableModel.skipUrlSync m;
       QueryVariableModel.datasource := QueryVariableModel.datasource m;
       QueryVariableModel.query := QueryVariableModel.query m;
       QueryVariableModel.regex := QueryVariableModel.regex m;
       QueryVariableModel.sort := QueryVariableModel.sort m;
       QueryVariableModel.refresh := QueryVariableModel.refresh m;
       QueryVariableModel.multi := QueryVariableModel.multi m;
       QueryVariableModel.includeAll := true;
       QueryVariableModel.allValue := QueryVariableModel.allValue m;
       QueryVariableModel.options := QueryVariableModel.options m;
       QueryVariableModel.current := QueryVariableModel.current m;
       QueryVariableModel.tags := QueryVariableModel.tags m;
       QueryVariableModel.useTags := QueryVariableModel.useTags m;
       QueryVariableModel.tagsQuery := QueryVariableModel.tagsQuery m;
       QueryVariableModel.tagValuesQuery := QueryVariableModel.tagValuesQuery m;
       QueryVariableModel.definition := QueryVariableModel.definition m;
       QueryVariableModel.initLock := QueryVariableModel.initLock m |}.

(** The events that replace the option list wholesale; every other event
    keeps the options, selection flags apart. *)
Definition replacesOptions (action : Action) : bool :=
  match action with
  | addVariable _ _ _ | updateVariableOptions _ _ => true
  | _ => false
  end.

(** * Properties *)

(** ** The error monad *)

Lemma bind_Ok_inv {A B : Type} (c : Result A) (k : A -> Result B) (b : B) :
  bind c k = Ok b -> exists a, c = Ok a /\ k a = Ok b.
Proof.
  destruct c as [a | e |]; simpl; intros H.
  - exists a. split; [reflexivity | exact H].
  - discriminate H.
  - discriminate H.
Qed.

(** ** Sorting and deduplication *)

Section LodashFacts.
Context {A K : Type}.
Variable leb : K -> K -> bool.
Variable key : A -> K.

Lemma insertBy_perm (x : A) (l : list A) : Permutation (x :: l) (insertBy leb key x l).
Proof.
  induction l as [| y l IH]; simpl.
  - apply Permutation_refl.
  - destruct (leb (key x) (key y)).
    + apply Permutation_refl.
    + eapply perm_trans; [apply perm_swap | apply perm_skip, IH].
Qed.

Lemma sortBy_perm (l : list A) : Permutation l (sortBy leb key l).
Proof.
  induction l as [| x l IH]; simpl.
  - apply perm_nil.
  - eapply perm_trans; [apply perm_skip, IH | apply insertBy_perm].
Qed.

(** The list that [sortBy] returns is in ascending key order. *)
Lemma insertBy_sorted (x : A) (l : list A) :
  (forall a b, leb a b = true \/ leb b a = true) ->
  Sorted (fun a b => leb (key a) (key b) = true) l ->
  Sorted (fun a b => leb (key a) (key b) = true) (insertBy leb key x l).
Proof.
  intros Htotal Hs. induction l as [| y l IH]; simpl.
  - constructor; constructor.
  - destruct (leb (key x) (key y)) eqn:E.
    + constructor; [exact Hs | constructor; exact E].
    + inversion Hs as [| y' l' Hs' Hhd]; subst.
      constructor; [apply IH; exact Hs' |].
      assert (Hyx : leb (key y) (key x) = true)
        by (destruct (Htotal (key x) (key y)); congruence).
      destruct l as [| z l]; simpl.
      * constructor. exact Hyx.
      * destruct (leb (key x) (key z)); constructor; [exact Hyx |].
        inversion Hhd; assumption.
Qed.

Lemma sortBy_sorted (l : list A) :
  (forall a b, leb a b = true \/ leb b a = true) ->
  Sorted (fun a b => leb (key a) (key b) = true) (sortBy leb key l).
Proof.
  intros Htotal. induction l as [| x l IH]; simpl.
  - constructor.
  - apply insertBy_sorted; assumption.
Qed.

(** [sortBy] is stable: the elements of one key class come out in the order
    they came in. A key class is given by [same k], the keys equivalent to
    [k] for the order. *)
Lemma insertBy_stable (same : K -> K -> bool) (k : K) (x : A) (l : list A) :
  (forall a b c, leb a b = true -> leb b c = true -> leb a c = true) ->
  (forall a b, same a b = true <-> leb a b = true /\ leb b a = true) ->
  filter (fun a => same (key a) k) (insertBy leb key x l)
  = filter (fun a => same (key a) k) (x :: l).
Proof.
  intros Htrans Hsame. induction l as [| y l IH]; simpl; [reflexivity |].
  destruct (leb (key x) (key y)) eqn:E; [reflexivity |].
  simpl. rewrite IH. simpl.
  destruct (same (key x) k) eqn:Ex; [| reflexivity].
  destruct (same (key y) k) eqn:Ey; [| reflexivity].
  apply Hsame in Ex. apply Hsame in Ey.
  assert (Hxy : leb (key x) (key y) = true)
    by (apply (Htrans _ k); tauto).
  congruence.
Qed.

Lemma sortBy_stable (same : K -> K -> bool) (k : K) (l : list A) :
  (forall a b c, leb a b = true -> leb b c = true -> leb a c = true) ->
  (forall a b, same a b = true <-> leb a b = true /\ leb b a = true) ->
  filter (fun a => same (key a) k) (sortBy leb key l)
  = filter (fun a => same (key a) k) l.
Proof.
  intros Htrans Hsame. induction l as [| x l IH]; simpl; [reflexivity |].
  rewrite (insertBy_stable same k x _ Htrans Hsame). simpl. rewrite IH. reflexivity.
Qed.

Variable eqb : K -> K -> bool.
Hypothesis eqb_spec : forall a b, eqb a b = true <-> a = b.

Lemma existsb_eqb_In (k : K) (seen : list K) : existsb (eqb k) seen = true <-> In k seen.
Proof.
  rewrite existsb_exists. split.
  - intros [y [Hy He]]. apply eqb_spec in He. subst y. exact Hy.
  - intros H. exists k. split; [exact H | apply eqb_spec; reflexivity].
Qed.

Lemma uniqBy_from_In (seen : list K) (l : list A) (x : A) :
  In x (uniqBy_from key eqb seen l) -> In x l /\ ~ In (key x) seen.
Proof.
  revert seen. induction l as [| y l IH]; simpl; intros seen H.
  - contradiction.
  - destruct (existsb (eqb (key y)) seen) eqn:E.
    + apply IH in H. tauto.
    + destruct H as [-> | H].
      * split; [left; reflexivity |].
        intros Hin. apply existsb_eqb_In in Hin. congruence.
      * apply IH in H. simpl in H. tauto.
Qed.

Lemma uniqBy_from_NoDup (seen : list K) (l : list A) :
  NoDup (map key (uniqBy_from key eqb seen l)).
Proof.
  revert seen. induction l as [| y l IH]; simpl; intros seen.
  - constructor.
  - destruct (existsb (eqb (key y)) seen) eqn:E.
    + apply IH.
    + simpl. constructor; [| apply IH].
      intros Hin. apply in_map_iff in Hin. destruct Hin as [x [Hk Hx]].
      apply uniqBy_from_In in Hx. destruct Hx as [_ Hx]. apply Hx.
      left. symmetry. exact Hk.
Qed.

Lemma uniqBy_from_complete (seen : list K) (l : list A) (k : K) :
  In k (map key l) -> ~ In k seen -> In k (map key (uniqBy_from key eqb seen l)).
Proof.
  revert seen. induction l as [| y l IH]; simpl; intros seen Hin Hseen.
  - contradiction.
  - destruct (existsb (eqb (key y)) seen) eqn:E.
    + apply existsb_eqb_In in E. destruct Hin as [Hy | Hin].
      * subst k. contradiction.
      * apply IH; assumption.
    + simpl. destruct Hin as [Hy | Hin]; [left; exact Hy |].
      destruct (eqb (key y) k) eqn:Ek.
      * left. apply eqb_spec. exact Ek.
      * right. apply IH; [exact Hin |].
        simpl. intros [Hy | Hs]; [| contradiction].
        apply eqb_spec in Hy. congruence.
Qed.

Lemma uniqBy_from_first (seen : list K) (l : list A) (x : A) :
  In x (uniqBy_from key eqb seen l) ->
  find (fun b => eqb (key b) (key x)) l = Some x.
Proof.
  revert seen. induction l as [| y l IH]; simpl; intros seen H.
  - contradiction.
  - destruct (existsb (eqb (key y)) seen) eqn:E.
    + pose proof (uniqBy_from_In _ _ _ H) as [_ Hx].
      apply existsb_eqb_In in E.
      destruct (eqb (key y) (key x)) eqn:Ek.
      * apply eqb_spec in Ek. rewrite Ek in E. contradiction.
      * eapply IH. exact H.
    + destruct H as [-> | H].
      * assert (Hr : eqb (key x) (key x) = true) by (apply eqb_spec; reflexivity).
        rewrite Hr. reflexivity.
      * pose proof (uniqBy_from_In _ _ _ H) as [_ Hx].
        destruct (eqb (key y) (key x)) eqn:Ek.
        -- apply eqb_spec in Ek. exfalso. apply Hx. left. exact Ek.
        -- eapply IH. exact H.
Qed.

End LodashFacts.

Lemma sortVariableValues_perm (options : list VariableOption.t) (sortOrder : VariableSort) :
  Permutation options (sortVariableValues options sortOrder).
Proof.
  unfold sortVariableValues.
  destruct (sortOrder =? VariableSort_disabled)%Z; [apply Permutation_refl |].
  set (sorted := if (sortTypeOf sortOrder =? 1)%Z then _ else _).
  assert (Hs : Permutation options sorted).
  { subst sorted.
    destruct (sortTypeOf sortOrder =? 1)%Z; [apply sortBy_perm |].
    destruct (sortTypeOf sortOrder =? 2)%Z; [apply sortBy_perm |].
    destruct (sortTypeOf sortOrder =? 3)%Z; [apply sortBy_perm | apply Permutation_refl]. }
  destruct (reverseSortOf sortOrder); [| exact Hs].
  eapply perm_trans; [exact Hs | apply Permutation_rev].
Qed.

(** C7. For every option list and every sort type [k] in 1..3, the
    reversed mode [2k] produces exactly the reverse of the sequence that the
    non-reversed mode [2k - 1] produces. *)
Theorem sortVariableValues_reversed_mode (options : list VariableOption.t) (k : Z) :
  (1 <= k <= 3)%Z ->
  sortVariableValues options (2 * k)%Z = rev (sortVariableValues options (2 * k - 1)%Z).
Proof.
  intros Hk.
  assert (Hcases : k = 1%Z \/ k = 2%Z \/ k = 3%Z) by lia.
  destruct Hcases as [-> | [-> | ->]]; reflexivity.
Qed.

Lemma sortVariableValues_reversed_mode_witness :
  sortVariableValues [optionNamed "b" false; optionNamed "a10" false; optionNamed "a9" false] (2 * 2)%Z
  = rev (sortVariableValues
           [optionNamed "b" false; optionNamed "a10" false; optionNamed "a9" false] (2 * 2 - 1)%Z).
Proof.
  apply (sortVariableValues_reversed_mode
           [optionNamed "b" false; optionNamed "a10" false; optionNamed "a9" false] 2%Z).
  lia.
Defined.

(** ** The normalizer without a pattern *)

Lemma MaybeString_eqb_eq (a b : MaybeString) : MaybeString_eqb a b = true <-> a = b.
Proof.
  destruct a as [| | x], b as [| | y]; simpl; try (split; [discriminate | discriminate]);
    try (split; reflexivity).
  rewrite String.eqb_eq. split; [intros ->; reflexivity | intros H; injection H as ->; reflexivity].
Qed.

(** The numeric modes: the modes other than [disabled] whose sort type is 2. *)
Lemma numeric_mode (sortOrder : VariableSort) :
  (sortOrder =? VariableSort_disabled)%Z = false /\ (sortTypeOf sortOrder =? 2)%Z = true
  <-> sortOrder = 3%Z \/ sortOrder = 4%Z.
Proof.
  unfold VariableSort_disabled, sortTypeOf.
  rewrite Z.eqb_neq, Z.eqb_eq.
  pose proof (Z.div_mod (sortOrder + 1) 2 ltac:(lia)) as Hdiv.
  pose proof (Z.mod_pos_bound (sortOrder + 1) 2 ltac:(lia)) as Hmod.
  split.
  - intros [_ H]. rewrite H in Hdiv. lia.
  - intros [-> | ->]; split; try lia; reflexivity.
Qed.

Section SortOf.
Context {A : Type}.
Variable text : A -> MaybeString.

Lemma sortVariableValuesOf_Ok (options options' : list A) (sortOrder : VariableSort) :
  sortVariableValuesOf text options sortOrder = Ok options' -> Permutation options options'.
Proof.
  unfold sortVariableValuesOf.
  destruct (sortOrder =? VariableSort_disabled)%Z.
  - intros H. injection H as <-. apply Permutation_refl.
  - intros H. apply bind_Ok_inv in H. destruct H as [sorted [Hs H]]. injection H as <-.
    assert (Hperm : Permutation options sorted).
    { destruct (sortTypeOf sortOrder =? 1)%Z;
        [injection Hs as <-; apply sortBy_perm |].
      destruct (sortTypeOf sortOrder =? 2)%Z.
      - destruct (existsb _ options); [discriminate Hs |].
        injection Hs as <-. apply sortBy_perm.
      - destruct (sortTypeOf sortOrder =? 3)%Z;
          injection Hs as <-; [apply sortBy_perm | apply Permutation_refl]. }
    destruct (reverseSortOf sortOrder); [| exact Hperm].
    eapply perm_trans; [exact Hperm | apply Permutation_rev].
Qed.

Lemma sortVariableValuesOf_Throw (options : list A) (sortOrder : VariableSort) (e : JsError) :
  sortVariableValuesOf text options sortOrder = Throw e <->
  (sortOrder = 3%Z \/ sortOrder = 4%Z) /\ exists o, In o options /\ noText (text o) = true.
Proof.
  destruct e. rewrite <- numeric_mode. unfold sortVariableValuesOf.
  destruct (sortOrder =? VariableSort_disabled)%Z.
  - split; [discriminate | intros [[H _] _]; discriminate H].
  - destruct (sortTypeOf sortOrder =? 1)%Z eqn:E1.
    + assert (E2 : (sortTypeOf sortOrder =? 2)%Z = false)
        by (apply Z.eqb_eq in E1; rewrite E1; reflexivity).
      rewrite E2. simpl. split; [discriminate | intros [[_ H] _]; discriminate H].
    + destruct (sortTypeOf sortOrder =? 2)%Z.
      * destruct (existsb _ options) eqn:Ex; simpl.
        -- split; [intros _ | reflexivity]. split; [split; reflexivity |].
           apply existsb_exists in Ex. destruct Ex as [o [Ho Hn]].
           exists o. split; [exact Ho |]. destruct (text o); [reflexivity | reflexivity | discriminate Hn].
        -- split; [discriminate |]. intros [_ [o [Ho Hn]]]. exfalso.
           assert (Ht : existsb (fun opt => match text opt with MString _ => false | _ => true end)
                          options = true).
           { apply existsb_exists. exists o. split; [exact Ho |].
             destruct (text o); [reflexivity | reflexivity | discriminate Hn]. }
           congruence.
      * destruct (sortTypeOf sortOrder =? 3)%Z; simpl;
          (split; [discriminate | intros [[_ H] _]; discriminate H]).
Qed.

Lemma sortVariableValuesOf_typed_outcome (options : list A) (sortOrder : VariableSort) :
  sortVariableValuesOf text options sortOrder <> Untyped.
Proof.
  unfold sortVariableValuesOf.
  destruct (sortOrder =? VariableSort_disabled)%Z; [discriminate |].
  destruct (sortTypeOf sortOrder =? 1)%Z; [discriminate |].
  destruct (sortTypeOf sortOrder =? 2)%Z;
    [destruct (existsb _ options); discriminate |].
  destruct (sortTypeOf sortOrder =? 3)%Z; discriminate.
Qed.

End SortOf.

Lemma sortBy_ext {A K K' : Type} (leb : K -> K -> bool) (leb' : K' -> K' -> bool)
  (key : A -> K) (key' : A -> K') (l : list A) :
  (forall a b, leb (key a) (key b) = leb' (key' a) (key' b)) ->
  sortBy leb key l = sortBy leb' key' l.
Proof.
  intros Hext. induction l as [| x l IH]; simpl; [reflexivity |].
  rewrite IH. generalize (sortBy leb' key' l). intros m.
  induction m as [| y m IHm]; simpl; [reflexivity |].
  rewrite Hext, IHm. reflexivity.
Qed.

(** On options whose text is a string, [sortVariableValuesOf] returns, and
    returns what [sortVariableValues] does. *)
Lemma sortVariableValuesOf_typed (options : list VariableOption.t) (sortOrder : VariableSort) :
  sortVariableValuesOf (fun o => MString (VariableOption.text o)) options sortOrder
  = Ok (sortVariableValues options sortOrder).
Proof.
  unfold sortVariableValuesOf, sortVariableValues.
  destruct (sortOrder =? VariableSort_disabled)%Z; [reflexivity |].
  destruct (sortTypeOf sortOrder =? 1)%Z; [reflexivity |].
  destruct (sortTypeOf sortOrder =? 2)%Z.
  - assert (Hnone : existsb (fun opt : VariableOption.t => false) options = false)
      by (induction options; [reflexivity | assumption]).
    cbv beta iota. rewrite Hnone. reflexivity.
  - destruct (sortTypeOf sortOrder =? 3)%Z; reflexivity.
Qed.

Lemma insertBy_map {A B K : Type} (leb : K -> K -> bool) (key : B -> K) (f : A -> B)
  (x : A) (l : list A) :
  insertBy leb key (f x) (map f l) = map f (insertBy leb (fun a => key (f a)) x l).
Proof.
  induction l as [| y l IH]; simpl; [reflexivity |].
  destruct (leb (key (f x)) (key (f y))); simpl; [reflexivity |].
  rewrite IH. reflexivity.
Qed.

Lemma sortBy_map {A B K : Type} (leb : K -> K -> bool) (key : B -> K) (f : A -> B)
  (l : list A) :
  sortBy leb key (map f l) = map f (sortBy leb (fun a => key (f a)) l).
Proof.
  induction l as [| x l IH]; simpl; [reflexivity |].
  rewrite IH. apply insertBy_map.
Qed.

(** On the options that the state can hold, the normalizer's sort is
    [sortVariableValues]: sorting them as raw options gives the raw form of
    the sorted list. *)
Lemma sortVariableValuesOf_refines (options : list VariableOption.t)
  (sortOrder : VariableSort) :
  sortVariableValuesOf RawOption.text (map untypedOption options) sortOrder
  = Ok (map untypedOption (sortVariableValues options sortOrder)).
Proof.
  unfold sortVariableValuesOf, sortVariableValues.
  destruct (sortOrder =? VariableSort_disabled)%Z; [reflexivity |].
  destruct (sortTypeOf sortOrder =? 1)%Z.
  { simpl. rewrite sortBy_map. simpl.
    destruct (reverseSortOf sortOrder); [rewrite map_rev |]; reflexivity. }
  destruct (sortTypeOf sortOrder =? 2)%Z.
  { assert (Hnone : existsb
                      (fun opt => match RawOption.text opt with
                                  | MString _ => false
                                  | _ => true
                                  end) (map untypedOption options) = false).
    { induction options as [| o l IH]; [reflexivity | exact IH]. }
    rewrite Hnone. simpl. rewrite sortBy_map. simpl.
    destruct (reverseSortOf sortOrder); [rewrite map_rev |]; reflexivity. }
  destruct (sortTypeOf sortOrder =? 3)%Z.
  { simpl. rewrite sortBy_map. simpl.
    destruct (reverseSortOf sortOrder); [rewrite map_rev |]; reflexivity. }
  simpl. destruct (reverseSortOf sortOrder); [rewrite map_rev |]; reflexivity.
Qed.

(** The relation between a reversed mode and its plain mode holds on
    options of any shape as well, raising included. *)
Lemma sortVariableValuesOf_reversed_mode {A : Type} (text : A -> MaybeString)
  (options : list A) (k : Z) :
  (1 <= k <= 3)%Z ->
  sortVariableValuesOf text options (2 * k)%Z
  = (sorted <- sortVariableValuesOf text options (2 * k - 1)%Z ;; Ok (rev sorted)).
Proof.
  intros Hk.
  assert (Hcases : k = 1%Z \/ k = 2%Z \/ k = 3%Z) by lia.
  destruct Hcases as [-> | [-> | ->]]; unfold sortVariableValuesOf; simpl;
    try reflexivity.
  destruct (existsb _ options); reflexivity.
Qed.

Lemma fieldOrElse_code (field other : Scalar) :
  stringifyNumber (if isNullish field then other else field) = fieldOrElse field other.
Proof. destruct field, other; reflexivity. Qed.

Lemma collectOptions_no_regex (env : RegexService) (metricNames : list MetricName.t) :
  collectOptions env None metricNames = map optionOfItem metricNames.
Proof.
  induction metricNames as [| item rest IH]; simpl.
  - reflexivity.
  - rewrite IH, !fieldOrElse_code. reflexivity.
Qed.

Lemma noText_hasNoField (item : MetricName.t) :
  noText (expectedText item) = hasNoField item
  /\ noText (expectedValue item) = hasNoField item.
Proof.
  unfold expectedText, expectedValue, hasNoField.
  destruct (MetricName.text item), (MetricName.value item); split; reflexivity.
Qed.

Section UniqSplit.
Context {A K : Type}.
Variable key : A -> K.
Variable eqb : K -> K -> bool.
Hypothesis eqb_spec : forall a b, eqb a b = true <-> a = b.

Lemma uniqBy_from_split (seen : list K) (l : list A) (x : A) :
  In x (uniqBy_from key eqb seen l) ->
  exists pre post, l = pre ++ x :: post /\ forall y, In y pre -> key y <> key x.
Proof.
  revert seen. induction l as [| y l IH]; simpl; intros seen H; [contradiction |].
  destruct (existsb (eqb (key y)) seen) eqn:E.
  - pose proof (uniqBy_from_In key eqb eqb_spec _ _ _ H) as [_ Hx].
    destruct (IH seen H) as [pre [post [-> Hpre]]].
    exists (y :: pre), post. split; [reflexivity |].
    intros z [<- | Hz]; [| apply Hpre; exact Hz].
    intros Heq. apply Hx. rewrite <- Heq. apply (existsb_eqb_In eqb eqb_spec). exact E.
  - destruct H as [-> | H].
    + exists [], l. split; [reflexivity | intros z []].
    + pose proof (uniqBy_from_In key eqb eqb_spec _ _ _ H) as [_ Hx].
      destruct (IH (key y :: seen) H) as [pre [post [-> Hpre]]].
      exists (y :: pre), post. split; [reflexivity |].
      intros z [<- | Hz]; [| apply Hpre; exact Hz].
      intros Heq. apply Hx. left. exact Heq.
Qed.

End UniqSplit.

Lemma map_split {A B : Type} (f : A -> B) (l : list A) (pre post : list B) (x : B) :
  map f l = pre ++ x :: post ->
  exists pre' item post',
    l = pre' ++ item :: post' /\ map f pre' = pre /\ f item = x.
Proof.
  revert pre. induction l as [| a l IH]; intros pre H.
  - destruct pre; discriminate H.
  - destruct pre as [| b pre]; simpl in H.
    + injection H as Ha Hl. exists [], a, l. repeat split; assumption.
    + injection H as Ha Hl. destruct (IH pre Hl) as [pre' [item [post' [-> [Hp Hi]]]]].
      exists (a :: pre'), item, post'. simpl. rewrite Ha, Hp. repeat split; assumption.
Qed.

(** C4. Without a pattern, a list that the normalizer returns has no value
    twice, its values are exactly the values that the raw results stand
    for, and the record kept for a value is the one built from the first
    raw result, in input order, that stands for this value. The normalizer
    returns for every raw result list in every sort mode but the numeric
    ones: in modes 3 and 4 it raises exactly when some raw result has
    neither a text nor a value. *)
Theorem metricNamesToVariableValues_dedup
  (env : RegexService) (sort : VariableSort) (metricNames : list MetricName.t) :
  (forall options,
      metricNamesToVariableValues env "" sort metricNames = Ok options ->
      NoDup (map RawOption.value options)
      /\ (forall v, In v (map RawOption.value options)
                    <-> exists item, In item metricNames /\ expectedValue item = v)
      /\ (forall o, In o options ->
            exists pre item post,
              metricNames = pre ++ item :: post
              /\ o = optionOfItem item
              /\ forall earlier, In earlier pre ->
                   expectedValue earlier <> expectedValue item))
  /\ (metricNamesToVariableValues env "" sort metricNames = Throw TypeError
      <-> (sort = 3%Z \/ sort = 4%Z)
          /\ exists item, In item metricNames /\ hasNoField item = true)
  /\ ((sort <> 3%Z /\ sort <> 4%Z)
      \/ (forall item, In item metricNames -> hasNoField item = false) ->
      exists options, metricNamesToVariableValues env "" sort metricNames = Ok options).
Proof.
  unfold metricNamesToVariableValues. simpl.
  rewrite collectOptions_no_regex.
  set (built := map optionOfItem metricNames).
  set (unique := uniqBy RawOption.value MaybeString_eqb built).
  assert (Hraise : sortVariableValuesOf RawOption.text unique sort = Throw TypeError
                   <-> (sort = 3%Z \/ sort = 4%Z)
                       /\ exists item, In item metricNames /\ hasNoField item = true).
  { rewrite sortVariableValuesOf_Throw. split.
    - intros [Hmode [o [Ho Hn]]]. split; [exact Hmode |].
      apply (uniqBy_from_In _ _ MaybeString_eqb_eq) in Ho. destruct Ho as [Ho _].
      apply in_map_iff in Ho. destruct Ho as [item [<- Hitem]].
      exists item. split; [exact Hitem |].
      rewrite <- (proj1 (noText_hasNoField item)). exact Hn.
    - intros [Hmode [item [Hitem Hn]]]. split; [exact Hmode |].
      assert (Hin : In (expectedValue item) (map RawOption.value unique)).
      { apply (uniqBy_from_complete _ _ MaybeString_eqb_eq); [| intros []].
        apply in_map_iff. exists (optionOfItem item). split; [reflexivity |].
        apply in_map. exact Hitem. }
      apply in_map_iff in Hin. destruct Hin as [o [Hv Ho]].
      exists o. split; [exact Ho |].
      apply (uniqBy_from_In _ _ MaybeString_eqb_eq) in Ho. destruct Ho as [Ho _].
      apply in_map_iff in Ho. destruct Ho as [item' [<- _]]. simpl in *.
      rewrite (proj1 (noText_hasNoField item')), <- (proj2 (noText_hasNoField item')), Hv.
      rewrite (proj2 (noText_hasNoField item)). exact Hn. }
  split; [| split; [exact Hraise |]].
  - intros options H. pose proof (sortVariableValuesOf_Ok _ _ _ _ H) as Hperm.
    split.
    { eapply Permutation_NoDup; [apply Permutation_map; exact Hperm |].
      apply uniqBy_from_NoDup. exact MaybeString_eqb_eq. }
    split.
    { intros v. split.
      - intros Hin. apply in_map_iff in Hin. destruct Hin as [o [Hv Ho]].
        apply (Permutation_in _ (Permutation_sym Hperm)) in Ho.
        apply (uniqBy_from_In _ _ MaybeString_eqb_eq) in Ho. destruct Ho as [Ho _].
        apply in_map_iff in Ho. destruct Ho as [item [<- Hitem]].
        exists item. split; [exact Hitem | exact Hv].
      - intros [item [Hitem <-]].
        apply (Permutation_in _ (Permutation_map RawOption.value Hperm)).
        apply (uniqBy_from_complete _ _ MaybeString_eqb_eq); [| intros []].
        apply in_map_iff. exists (optionOfItem item). split; [reflexivity |].
        apply in_map. exact Hitem. }
    intros o Ho.
    apply (Permutation_in _ (Permutation_sym Hperm)) in Ho.
    apply (uniqBy_from_split _ _ MaybeString_eqb_eq) in Ho.
    destruct Ho as [pre [post [Hsplit Hpre]]].
    apply map_split in Hsplit. destruct Hsplit as [pre' [item [post' [-> [<- <-]]]]].
    exists pre', item, post'. split; [reflexivity |]. split; [reflexivity |].
    intros earlier Hin. apply (Hpre (optionOfItem earlier)). apply in_map. exact Hin.
  - intros Hcond.
    destruct (sortVariableValuesOf RawOption.text unique sort) as [options | [] |] eqn:Hs.
    + exists options. reflexivity.
    + exfalso. destruct (proj1 Hraise eq_refl) as [Hmode [item [Hitem Hn]]].
      destruct Hcond as [[H3 H4] | Hall]; [destruct Hmode; contradiction |].
      rewrite (Hall item Hitem) in Hn. discriminate Hn.
    + exfalso. exact (sortVariableValuesOf_typed_outcome _ _ _ Hs).
Qed.

(** ** The post-processing pipeline *)

Lemma postProcess_eq (st : QueryVariableState.t) :
  postProcess st =
  (s1 <- updateLinkText st ;;
   Ok (updateSelectedTags (updateSelectedValues (updateOptions s1)))).
Proof.
  unfold postProcess, appyStateChanges, total. simpl.
  destruct (updateLinkText st); reflexivity.
Qed.

Lemma updateLinkText_Ok (st s1 : QueryVariableState.t) :
  updateLinkText st = Ok s1 ->
  exists text,
    s1 = QueryVariableState.with_picker st
           (QueryVariablePickerState.with_linkText (QueryVariableState.picker st) text).
Proof.
  unfold updateLinkText.
  destruct (CurrentValue.tags _) as [[| tag tags] |].
  - intros H. injection H as <-. eexists. reflexivity.
  - intros H. apply bind_Ok_inv in H. destruct H as [sel [_ H]].
    injection H as <-. eexists. reflexivity.
  - intros H. injection H as <-. eexists. reflexivity.
Qed.

Lemma slice_from_0 {A : Type} (n : nat) (l : list A) : slice 0 n l = firstn n l.
Proof. unfold slice. rewrite Nat.sub_0_r. reflexivity. Qed.

Lemma postProcess_Ok (st s' : QueryVariableState.t) :
  postProcess st = Ok s' ->
  let options := QueryVariableModel.options (QueryVariableState.variable st) in
  QueryVariableState.variable s' = QueryVariableState.variable st
  /\ QueryVariablePickerState.options (QueryVariableState.picker s')
     = firstn (Nat.min (List.length options) 1000) options
  /\ QueryVariablePickerState.selectedValues (QueryVariableState.picker s')
     = filter VariableOption.selected options
  /\ QueryVariablePickerState.selectedTags (QueryVariableState.picker s')
     = filter VariableTag.selected
         (QueryVariableModel.tags (QueryVariableState.variable st)).
Proof.
  rewrite postProcess_eq. intros H.
  apply bind_Ok_inv in H. destruct H as [s1 [H1 H]].
  apply updateLinkText_Ok in H1. destruct H1 as [text ->].
  injection H as <-.
  unfold updateSelectedTags, updateSelectedValues, updateOptions. simpl.
  rewrite slice_from_0. repeat split; reflexivity.
Qed.

Lemma postProcess_Throw (st : QueryVariableState.t) (e : JsError) :
  postProcess st = Throw e <-> updateLinkText st = Throw e.
Proof.
  rewrite postProcess_eq.
  destruct (updateLinkText st); simpl; split; intros H; try discriminate H; exact H.
Qed.

Lemma reducer_pipeline (env : RegexService) (s st : QueryVariableState.t) (a : Action) :
  pipelineInput s a = Some st -> queryVariableReducer env s a = postProcess st.
Proof.
  destruct a; simpl; intros H; try discriminate H; injection H as <-; reflexivity.
Qed.

(** ** When [updateLinkText] raises *)

Lemma findIndex_none {A : Type} (p : A -> bool) (l : list A) :
  findIndex p l = (-1)%Z <-> forall x, In x l -> p x = false.
Proof.
  induction l as [| y l IH]; simpl.
  - split; [intros _ x [] | reflexivity].
  - destruct (p y) eqn:Hy.
    + split; [discriminate |].
      intros H. specialize (H y (or_introl eq_refl)). congruence.
    + destruct (findIndex p l =? -1)%Z eqn:E.
      * apply Z.eqb_eq in E. split; [| reflexivity].
        intros _ x [<- | Hx]; [exact Hy | apply IH; assumption].
      * apply Z.eqb_neq in E. split.
        -- intros H. exfalso. apply E. apply IH.
           assert (Hge : (-1 <= findIndex p l)%Z).
           { clear. induction l as [| z l IHl]; simpl; [lia |].
             destruct (p z); [lia |].
             destruct (findIndex p l =? -1)%Z; lia. }
           lia.
        -- intros H. exfalso. apply E. apply IH.
           intros x Hx. apply H. right. exact Hx.
Qed.

Lemma notInTags_Throw (value : string) (tags : list VariableTag.t) (e : JsError) :
  notInTags value tags = Throw e <->
  exists pre tag post,
    tags = pre ++ tag :: post
    /\ VariableTag.values tag = None
    /\ forall t, In t pre ->
         exists values, VariableTag.values t = Some values /\ ~ In value values.
Proof.
  destruct e.
  induction tags as [| tag rest IH]; simpl.
  - split; [discriminate |].
    intros [pre [t [post [H _]]]]. destruct pre; discriminate H.
  - destruct (VariableTag.values tag) as [values |] eqn:Hv.
    + destruct (findIndex (fun v => String.eqb v value) values =? -1)%Z eqn:E; simpl.
      * apply Z.eqb_eq in E.
        assert (Hnot : ~ In value values).
        { intros Hin. rewrite findIndex_none in E. specialize (E _ Hin).
          rewrite String.eqb_refl in E. discriminate E. }
        rewrite IH. split.
        -- intros [pre [t [post [-> [Ht Hpre]]]]].
           exists (tag :: pre), t, post. split; [reflexivity |]. split; [exact Ht |].
           intros t' [<- | Hin]; [exists values; split; assumption | apply Hpre; exact Hin].
        -- intros [pre [t [post [Heq [Ht Hpre]]]]].
           destruct pre as [| t0 pre]; simpl in Heq.
           ++ injection Heq as -> ->. congruence.
           ++ injection Heq as -> ->.
              exists pre, t, post. split; [reflexivity |]. split; [exact Ht |].
              intros t' Hin. apply Hpre. right. exact Hin.
      * split; [discriminate |].
        intros [pre [t [post [Heq [Ht Hpre]]]]]. exfalso.
        destruct pre as [| t0 pre]; simpl in Heq.
        -- injection Heq as -> ->. congruence.
        -- injection Heq as <- ->.
           destruct (Hpre tag (or_introl eq_refl)) as [values' [Hv' Hnot]].
           rewrite Hv in Hv'. injection Hv' as <-.
           apply Z.eqb_neq in E. apply E. apply findIndex_none.
           intros x Hx. apply String.eqb_neq. intros ->. contradiction.
    + split; [intros _ | reflexivity].
      exists [], tag, rest. split; [reflexivity |]. split; [exact Hv |]. intros t [].
Qed.

Lemma notInTags_typed (value : string) (tags : list VariableTag.t) :
  notInTags value tags <> Untyped.
Proof.
  induction tags as [| tag rest IH]; simpl; [discriminate |].
  destruct (VariableTag.values tag); [| discriminate].
  destruct (negb _); [discriminate | exact IH].
Qed.

Lemma selectedAndNotInTag_typed (tags : list VariableTag.t) (o : VariableOption.t) :
  selectedAndNotInTag tags o <> Untyped.
Proof.
  unfold selectedAndNotInTag.
  destruct (negb _); [discriminate | apply notInTags_typed].
Qed.

Lemma filterR_typed {A : Type} (f : A -> Result bool) (l : list A) :
  (forall x, f x <> Untyped) -> filterR f l <> Untyped.
Proof.
  intros Hf. induction l as [| y l IH]; simpl; [discriminate |].
  destruct (f y) as [keep | e |] eqn:Hy; simpl.
  - destruct (filterR f l) as [rest | e |]; simpl; [discriminate | discriminate | exact IH].
  - discriminate.
  - exfalso. exact (Hf y Hy).
Qed.

Lemma filterR_Throw {A : Type} (f : A -> Result bool) (l : list A) (e : JsError) :
  (forall x, f x <> Untyped) ->
  (filterR f l = Throw e <-> exists x, In x l /\ f x = Throw e).
Proof.
  intros Hf. destruct e.
  induction l as [| y l IH]; simpl.
  - split; [discriminate | intros [x [[] _]]].
  - destruct (f y) as [keep | [] |] eqn:Hy; simpl.
    + destruct (filterR f l) as [rest | [] |] eqn:Hl; simpl.
      * split; [discriminate |].
        intros [x [[<- | Hx] Hfx]]; [congruence |].
        assert (H : @Ok (list A) rest = Throw TypeError)
          by (apply IH; exists x; split; assumption).
        discriminate H.
      * split; [intros _ | reflexivity].
        destruct (proj1 IH eq_refl) as [x [Hx Hfx]].
        exists x. split; [right; exact Hx | exact Hfx].
      * exfalso. exact (filterR_typed f l Hf Hl).
    + split; [intros _ | reflexivity].
      exists y. split; [left; reflexivity | exact Hy].
    + exfalso. exact (Hf y Hy).
Qed.

Lemma Result_cases {A : Type} (r : Result A) :
  r <> Untyped -> (exists a, r = Ok a) \/ r = Throw TypeError.
Proof.
  destruct r as [a | [] |]; intros H;
    [left; exists a; reflexivity | right; reflexivity | contradiction].
Qed.

Lemma updateLinkText_Throw (s : QueryVariableState.t) (e : JsError) :
  updateLinkText s = Throw e <->
  exists tags o pre tag post,
    CurrentValue.tags (QueryVariableModel.current (QueryVariableState.variable s)) = Some tags
    /\ In o (QueryVariableModel.options (QueryVariableState.variable s))
    /\ VariableOption.selected o = true
    /\ tags = pre ++ tag :: post
    /\ VariableTag.values tag = None
    /\ forall t, In t pre ->
         exists values, VariableTag.values t = Some values
                        /\ ~ In (VariableOption.value o) values.
Proof.
  unfold updateLinkText.
  destruct (CurrentValue.tags _) as [[| tag0 tags0] |] eqn:Htags.
  - split; [discriminate |].
    intros [tags [o [pre [tag [post [H [_ [_ [Heq _]]]]]]]]].
    injection H as <-. destruct pre; discriminate Heq.
  - set (tags := tag0 :: tags0).
    destruct (filterR (selectedAndNotInTag tags) _) as [sel | e' |] eqn:Hf; simpl;
      [| | exfalso; exact (filterR_typed _ _ (selectedAndNotInTag_typed tags) Hf)].
    + split; [discriminate |].
      intros [tags' [o [pre [tag [post [H [Ho [Hsel [Heq Hrest]]]]]]]]].
      injection H as <-. exfalso.
      assert (Hthrow : filterR (selectedAndNotInTag tags)
                         (QueryVariableModel.options (QueryVariableState.variable s))
                       = Throw e).
      { apply (filterR_Throw _ _ _ (selectedAndNotInTag_typed tags)).
        exists o. split; [exact Ho |].
        unfold selectedAndNotInTag. rewrite Hsel.
        change (notInTags (VariableOption.value o) tags = Throw e).
        apply notInTags_Throw. exists pre, tag, post. split; [exact Heq | exact Hrest]. }
      rewrite Hf in Hthrow. discriminate Hthrow.
    + destruct e, e'. split; [intros _ | reflexivity].
      apply (filterR_Throw _ _ _ (selectedAndNotInTag_typed tags)) in Hf.
      destruct Hf as [o [Ho Hthrow]].
      unfold selectedAndNotInTag in Hthrow.
      destruct (VariableOption.selected o) eqn:Hsel; [| discriminate Hthrow].
      change (notInTags (VariableOption.value o) tags = Throw TypeError) in Hthrow.
      apply notInTags_Throw in Hthrow. destruct Hthrow as [pre [tag [post [Heq Hrest]]]].
      exists tags, o, pre, tag, post. repeat split; try assumption; apply Hrest.
  - split; [discriminate |].
    intros [tags [o [pre [tag [post [H _]]]]]]. discriminate H.
Qed.

Lemma updateLinkText_total (s : QueryVariableState.t) :
  tagsHaveValues (QueryVariableModel.current (QueryVariableState.variable s)) ->
  exists s', updateLinkText s = Ok s'.
Proof.
  intros Hvalues.
  assert (Htyped : updateLinkText s <> Untyped).
  { unfold updateLinkText.
    destruct (CurrentValue.tags _) as [[| tag0 tags0] |]; try discriminate.
    destruct (filterR (selectedAndNotInTag (tag0 :: tags0)) _) as [sel | e |] eqn:Hf;
      [discriminate | discriminate |].
    exfalso. exact (filterR_typed _ _ (selectedAndNotInTag_typed _) Hf). }
  destruct (Result_cases (updateLinkText s) Htyped) as [Hok | Hthrow]; [exact Hok |].
  apply updateLinkText_Throw in Hthrow.
  destruct Hthrow as [tags [o [pre [tag [post [Ht [_ [_ [Heq [Hnone _]]]]]]]]]].
  exfalso. apply (Hvalues tags tag Ht); [| exact Hnone].
  rewrite Heq. apply in_or_app. right. left. reflexivity.
Qed.

Lemma postProcess_total (st : QueryVariableState.t) :
  tagsHaveValues (QueryVariableModel.current (QueryVariableState.variable st)) ->
  exists s', postProcess st = Ok s'.
Proof.
  intros H. rewrite postProcess_eq.
  destruct (updateLinkText_total st H) as [s1 ->]. simpl. eexists. reflexivity.
Qed.

(** C10. [updateLinkText] returns whenever every tag of [current.tags] has
    a [values] array. It raises exactly when some selected option, scanning
    [current.tags] in order, reaches a tag without [values] before a tag
    whose [values] hold the option's value. The four transitions that run
    the pipeline (SetCurrent, SelectOption, OpenDropdown, CloseDropdown)
    raise exactly when [updateLinkText] raises on the state they hand to
    it. *)
Theorem updateLinkText_raises_exactly (s : QueryVariableState.t) :
  (tagsHaveValues (QueryVariableModel.current (QueryVariableState.variable s)) ->
   exists s', updateLinkText s = Ok s')
  /\ (updateLinkText s = Throw TypeError <->
      exists tags o pre tag post,
        CurrentValue.tags (QueryVariableModel.current (QueryVariableState.variable s)) = Some tags
        /\ In o (QueryVariableModel.options (QueryVariableState.variable s))
        /\ VariableOption.selected o = true
        /\ tags = pre ++ tag :: post
        /\ VariableTag.values tag = None
        /\ forall t, In t pre ->
             exists values, VariableTag.values t = Some values
                            /\ ~ In (VariableOption.value o) values)
  /\ (forall env a st e,
        pipelineInput s a = Some st ->
        (queryVariableReducer env s a = Throw e <-> updateLinkText st = Throw e)).
Proof.
  split; [apply updateLinkText_total |].
  split; [apply updateLinkText_Throw |].
  intros env a st e Hst.
  rewrite (reducer_pipeline env s st a Hst). apply postProcess_Throw.
Qed.

Lemma updateLinkText_raises_exactly_witness :
  exists s', updateLinkText (stateWith true [optionNamed "a" true] noCurrent LockUndefined) = Ok s'.
Proof.
  apply (proj1 (updateLinkText_raises_exactly
                  (stateWith true [optionNamed "a" true] noCurrent LockUndefined))).
  intros tags tag Htags. simpl in Htags. discriminate Htags.
Defined.

(** C10, as stated, fails: with a tag that has no [values] but no selected
    option, nothing is dereferenced and the step returns. *)
Lemma updateLinkText_bare_tag_no_selection :
  let s := stateWith true [optionNamed "a" false] currentWithBareTag LockUndefined in
  CurrentValue.tags (QueryVariableModel.current (QueryVariableState.variable s))
  = Some [VariableTag.mk "az" false None]
  /\ updateLinkText s
     = Ok (QueryVariableState.with_picker s
             (QueryVariablePickerState.with_linkText (QueryVariableState.picker s) (TString "")))
  /\ exists s', queryVariableReducer literalRegexService s (hideQueryVariableDropDown hostKey) = Ok s'.
Proof.
  simpl. split; [reflexivity |]. split; [reflexivity |]. eexists. reflexivity.
Qed.

(** ** The display cap *)

Lemma reducer_picker_unchanged (env : RegexService) (s s' : QueryVariableState.t) (a : Action) :
  pipelineInput s a = None ->
  queryVariableReducer env s a = Ok s' ->
  QueryVariableState.picker s' = QueryVariableState.picker s.
Proof.
  destruct a; simpl; intros Hp H; try discriminate Hp;
    try (injection H as <-; reflexivity).
  - apply bind_Ok_inv in H. destruct H as [raw [_ H]].
    apply bind_Ok_inv in H. destruct H as [options [_ H]]. injection H as <-. reflexivity.
  - unfold resolveInitLock_state in H.
    destruct (QueryVariableModel.initLock _); try discriminate H.
    injection H as <-. reflexivity.
Qed.

Lemma firstn_min_length {A : Type} (l : list A) (n : nat) :
  List.length (firstn (Nat.min (List.length l) n) l) <= n.
Proof.
  rewrite length_firstn. lia.
Qed.

(** C3. In every reachable state [picker.options] has at most 1000
    elements, and right after a transition that runs the post-processing
    pipeline (SetCurrent, SelectOption, OpenDropdown, CloseDropdown) it is
    exactly the first [min(variable.options.length, 1000)] elements of
    [variable.options]. The other events, ReplaceOptionsFromResults among
    them, leave [picker.options] as it was. *)
Theorem picker_options_capped (env : RegexService) (s : QueryVariableState.t) :
  reachable env s ->
  List.length (QueryVariablePickerState.options (QueryVariableState.picker s)) <= 1000
  /\ (forall a st s',
         pipelineInput s a = Some st ->
         queryVariableReducer env s a = Ok s' ->
         let options := QueryVariableModel.options (QueryVariableState.variable s') in
         QueryVariablePickerState.options (QueryVariableState.picker s')
         = firstn (Nat.min (List.length options) 1000) options)
  /\ (forall a s',
         pipelineInput s a = None ->
         queryVariableReducer env s a = Ok s' ->
         QueryVariablePickerState.options (QueryVariableState.picker s')
         = QueryVariablePickerState.options (QueryVariableState.picker s)).
Proof.
  intros Hreach. split; [| split].
  - induction Hreach as [| s s' a Hreach IH Hstep].
    + apply Nat.le_0_l.
    + destruct (pipelineInput s a) as [st |] eqn:Hp.
      * rewrite (reducer_pipeline env s st a Hp) in Hstep.
        apply postProcess_Ok in Hstep. destruct Hstep as [_ [-> _]].
        apply firstn_min_length.
      * rewrite (reducer_picker_unchanged env s s' a Hp Hstep). exact IH.
  - intros a st s' Hp Hstep.
    rewrite (reducer_pipeline env s st a Hp) in Hstep.
    apply postProcess_Ok in Hstep. destruct Hstep as [-> [-> _]]. reflexivity.
  - intros a s' Hp Hstep.
    rewrite (reducer_picker_unchanged env s s' a Hp Hstep). reflexivity.
Qed.

Lemma picker_options_capped_witness :
  List.length (QueryVariablePickerState.options
                 (QueryVariableState.picker stateAfterEmptyResults)) <= 1000.
Proof.
  apply (proj1 (picker_options_capped literalRegexService stateAfterEmptyResults
                  (reachable_step literalRegexService initialQueryVariableState
                     stateAfterEmptyResults (updateVariableOptions hostKey [])
                     (reachable_initial literalRegexService) eq_refl))).
Defined.

(** C3, as stated, fails: [updateVariableOptions] replaces
    [variable.options] and leaves [picker.options] as it was. *)
Lemma picker_options_stale_after_results :
  reachable literalRegexService stateAfterEmptyResults
  /\ QueryVariablePickerState.options (QueryVariableState.picker stateAfterEmptyResults) = []
  /\ firstn (Nat.min (List.length (QueryVariableModel.options
                                     (QueryVariableState.variable stateAfterEmptyResults))) 1000)
       (QueryVariableModel.options (QueryVariableState.variable stateAfterEmptyResults))
     = [VariableOption.mk NONE_VARIABLE_TEXT NONE_VARIABLE_VALUE false true].
Proof.
  split; [| split; reflexivity].
  apply (reachable_step literalRegexService initialQueryVariableState
           stateAfterEmptyResults (updateVariableOptions hostKey [])).
  - apply reachable_initial.
  - reflexivity.
Qed.

(** ** The initialization lock *)

(** C1. [resolveInitLock] on a lock that is already resolved returns the
    state as it is; on a pending lock it returns the state with the lock
    resolved; on a missing or [null] lock it raises a [TypeError]. *)
Theorem resolveInitLock_outcome
  (env : RegexService) (s : QueryVariableState.t) (payload : VariableIdentifier.t) :
  match QueryVariableModel.initLock (QueryVariableState.variable s) with
  | LockRef Resolved => queryVariableReducer env s (resolveInitLock payload) = Ok s
  | LockRef Pending =>
      queryVariableReducer env s (resolveInitLock payload)
      = Ok (QueryVariableState.with_variable s
              (QueryVariableModel.with_initLock (QueryVariableState.variable s)
                 (LockRef Resolved)))
  | LockUndefined | LockNull =>
      queryVariableReducer env s (resolveInitLock payload) = Throw TypeError
  end.
Proof.
  destruct s as [picker variable]. destruct variable. simpl.
  unfold resolveInitLock_state. simpl.
  destruct initLock as [| | [|]]; reflexivity.
Qed.

(** C1, as stated, fails: on a [null] lock the reducer raises. *)
Lemma resolveInitLock_null_lock_raises :
  let s := stateWith false [] noCurrent LockNull in
  QueryVariableModel.initLock (QueryVariableState.variable s) = LockNull
  /\ queryVariableReducer literalRegexService s (resolveInitLock hostKey) = Throw TypeError.
Proof.
  split; reflexivity.
Qed.

(** ** Selection *)

Lemma filter_map_length {A B : Type} (p : B -> bool) (g : A -> B) (l : list A) :
  List.length (filter p (map g l)) = List.length (filter (fun x => p (g x)) l).
Proof.
  induction l as [| x l IH]; simpl; [reflexivity |].
  destruct (p (g x)); simpl; rewrite IH; reflexivity.
Qed.

Lemma filter_none_length {A : Type} (p : A -> bool) (l : list A) :
  (forall x, In x l -> p x = false) -> List.length (filter p l) = 0.
Proof.
  induction l as [| x l IH]; simpl; intros H; [reflexivity |].
  rewrite (H x (or_introl eq_refl)). apply IH. intros y Hy. apply H. right. exact Hy.
Qed.

Lemma filter_length_0 {A : Type} (p : A -> bool) (l : list A) (x : A) :
  List.length (filter p l) = 0 -> In x l -> p x = false.
Proof.
  intros Hlen Hin. destruct (p x) eqn:Hp; [| reflexivity].
  assert (Hf : In x (filter p l)) by (apply filter_In; split; assumption).
  destruct (filter p l); [contradiction | discriminate Hlen].
Qed.

Lemma value_filter_unique (v : string) (options : list VariableOption.t) :
  NoDup (map VariableOption.value options) ->
  List.length (filter (fun o => String.eqb (VariableOption.value o) v) options) <= 1.
Proof.
  induction options as [| o options IH]; simpl; intros Hnd; [lia |].
  inversion Hnd as [| x l Hnotin Hnd' [Hx Hl]]; subst.
  destruct (String.eqb (VariableOption.value o) v) eqn:E; [| apply IH; exact Hnd'].
  apply String.eqb_eq in E. simpl.
  rewrite filter_none_length; [lia |].
  intros o' Ho'. apply String.eqb_neq. intros Heq.
  apply Hnotin. rewrite E, <- Heq. apply in_map. exact Ho'.
Qed.

(** With [multi = false] the callback selects exactly the options that have
    the chosen value. *)
Lemma selectOne_single (chosen : VariableOption.t) (forceSelect : bool)
  (event : MouseEvent.t) (o : VariableOption.t) :
  VariableOption.selected (selectOne false chosen forceSelect event o)
  = String.eqb (VariableOption.value o) (VariableOption.value chosen).
Proof.
  unfold selectOne.
  destruct (String.eqb (VariableOption.value o) (VariableOption.value chosen)); simpl.
  - destruct forceSelect; reflexivity.
  - destruct (String.eqb (VariableOption.text o) ALL_VARIABLE_TEXT
              || String.eqb (VariableOption.text chosen) ALL_VARIABLE_TEXT); reflexivity.
Qed.

(** The callback deselects an option with another value as soon as it, or
    the chosen option, is the "All" option. *)
Lemma selectOne_all (multi : bool) (chosen : VariableOption.t) (forceSelect : bool)
  (event : MouseEvent.t) (o : VariableOption.t) :
  VariableOption.value o <> VariableOption.value chosen ->
  VariableOption.text o = ALL_VARIABLE_TEXT \/ VariableOption.text chosen = ALL_VARIABLE_TEXT ->
  VariableOption.selected (selectOne multi chosen forceSelect event o) = false.
Proof.
  intros Hv Hall. unfold selectOne.
  apply String.eqb_neq in Hv. rewrite Hv. simpl.
  assert (E : String.eqb (VariableOption.text o) ALL_VARIABLE_TEXT
              || String.eqb (VariableOption.text chosen) ALL_VARIABLE_TEXT = true).
  { apply orb_true_iff. destruct Hall as [H | H]; [left | right];
      apply String.eqb_eq; exact H. }
  rewrite E. reflexivity.
Qed.

Lemma selectFirst_count (newOptions : list VariableOption.t) :
  newOptions <> [] ->
  countSelected newOptions = 0 ->
  countSelected (selectFirst newOptions) = 1.
Proof.
  unfold countSelected.
  destruct newOptions as [| o rest]; [congruence |]. simpl. intros _ H.
  destruct (VariableOption.selected o); [discriminate H |]. rewrite H. reflexivity.
Qed.

(** The two outcomes of [selectVariableOption_newOptions]: the mapped list
    when it has a selected option (or is empty), the mapped list with its
    first option forced otherwise. *)
Lemma selectVariableOption_newOptions_cases (multi : bool) (chosen : VariableOption.t)
  (forceSelect : bool) (event : MouseEvent.t) (options : list VariableOption.t) :
  let mapped := map (selectOne multi chosen forceSelect event) options in
  (selectVariableOption_newOptions multi chosen forceSelect event options = mapped
   /\ (options = [] \/ 0 < countSelected mapped))
  \/ (selectVariableOption_newOptions multi chosen forceSelect event options = selectFirst mapped
      /\ options <> [] /\ countSelected mapped = 0).
Proof.
  unfold selectVariableOption_newOptions, countSelected. simpl.
  set (mapped := map (selectOne multi chosen forceSelect event) options).
  destruct options as [| o options].
  - left. split; [reflexivity | left; reflexivity].
  - destruct (List.length (filter VariableOption.selected mapped) =? 0)%nat eqn:E.
    + right. apply Nat.eqb_eq in E. subst mapped. simpl in *.
      split; [reflexivity |]. split; [discriminate | exact E].
    + left. apply Nat.eqb_neq in E. rewrite andb_false_r.
      split; [reflexivity | right; lia].
Qed.

Lemma selectVariableOption_newOptions_selected (multi : bool) (chosen : VariableOption.t)
  (forceSelect : bool) (event : MouseEvent.t) (options : list VariableOption.t) :
  options <> [] ->
  0 < countSelected (selectVariableOption_newOptions multi chosen forceSelect event options).
Proof.
  intros Hne.
  destruct (selectVariableOption_newOptions_cases multi chosen forceSelect event options)
    as [[-> [H | H]] | [-> [_ H]]].
  - contradiction.
  - exact H.
  - rewrite selectFirst_count; [lia | | exact H].
    destruct options; [congruence | discriminate].
Qed.

Lemma countSelected_pos (options : list VariableOption.t) :
  0 < countSelected options <->
  exists o, In o options /\ VariableOption.selected o = true.
Proof.
  unfold countSelected. split.
  - intros H. destruct (filter VariableOption.selected options) as [| o rest] eqn:E.
    + simpl in H. lia.
    + exists o. apply filter_In. rewrite E. left. reflexivity.
  - intros [o Ho]. apply filter_In in Ho.
    destruct (filter VariableOption.selected options); [contradiction | simpl; lia].
Qed.

Lemma reducer_selectVariableOption (env : RegexService) (s s' : QueryVariableState.t)
  (variable : VariableIdentifier.t) (chosen : VariableOption.t) (forceSelect : bool)
  (event : MouseEvent.t) :
  queryVariableReducer env s (selectVariableOption variable chosen forceSelect event) = Ok s' ->
  QueryVariableModel.options (QueryVariableState.variable s')
  = selectVariableOption_newOptions
      (QueryVariableModel.multi (QueryVariableState.variable s))
      chosen forceSelect event
      (QueryVariableModel.options (QueryVariableState.variable s)).
Proof.
  simpl. intros H. apply postProcess_Ok in H. destruct H as [-> _]. reflexivity.
Qed.

Lemma reducer_setCurrentVariableValue (env : RegexService) (s s' : QueryVariableState.t)
  (variable : VariableIdentifier.t) (current : CurrentValue.t) :
  queryVariableReducer env s (setCurrentVariableValue variable current) = Ok s' ->
  QueryVariableModel.options (QueryVariableState.variable s')
  = map (fun o => VariableOption.with_selected o
                    (selectedByCurrent (CurrentValue.value current) o))
      (QueryVariableModel.options (QueryVariableState.variable s)).
Proof.
  simpl. intros H. apply postProcess_Ok in H. destruct H as [-> _]. reflexivity.
Qed.

Lemma selectedByCurrent_true (value : TextValue) (o : VariableOption.t) :
  selectedByCurrent value o = true <->
  value = TString (VariableOption.value o)
  \/ exists values, value = TArray values /\ In (VariableOption.value o) values.
Proof.
  destruct value as [| | v | values]; simpl.
  - split; [discriminate | intros [H | [l [H _]]]; discriminate H].
  - split; [discriminate | intros [H | [l [H _]]]; discriminate H].
  - rewrite String.eqb_eq. split.
    + intros ->. left. reflexivity.
    + intros [H | [l [H _]]]; [injection H as ->; reflexivity | discriminate H].
  - rewrite existsb_exists. split.
    + intros [v [Hin Hv]]. apply String.eqb_eq in Hv. subst v.
      right. exists values. split; [reflexivity | exact Hin].
    + intros [H | [l [H Hin]]]; [discriminate H |]. injection H as ->.
      exists (VariableOption.value o). split; [exact Hin | apply String.eqb_refl].
Qed.

Lemma reducer_pipeline_total (env : RegexService) (s st : QueryVariableState.t) (a : Action) :
  pipelineInput s a = Some st ->
  tagsHaveValues (QueryVariableModel.current (QueryVariableState.variable st)) ->
  exists s', queryVariableReducer env s a = Ok s'.
Proof.
  intros Hp Hv. rewrite (reducer_pipeline env s st a Hp). apply postProcess_total. exact Hv.
Qed.

(** C2. On a non-empty option list, the state after SelectOption has a
    selected option, and SelectOption returns whenever the tags of the
    current selection have their values. After SetCurrent the options are
    the same, in the same order, and each one is selected exactly when its
    value is the current value or occurs in it; so the state has a selected
    option if and only if the current value matches some option. SetCurrent
    returns whenever the tags of the new current selection have their
    values. *)
Theorem selection_after_transition (env : RegexService) (s : QueryVariableState.t) :
  QueryVariableModel.options (QueryVariableState.variable s) <> [] ->
  (forall variable chosen forceSelect event,
      (forall s',
          queryVariableReducer env s (selectVariableOption variable chosen forceSelect event)
          = Ok s' ->
          exists o, In o (QueryVariableModel.options (QueryVariableState.variable s'))
                    /\ VariableOption.selected o = true)
      /\ (tagsHaveValues (QueryVariableModel.current (QueryVariableState.variable s)) ->
          exists s',
            queryVariableReducer env s (selectVariableOption variable chosen forceSelect event)
            = Ok s'))
  /\ (forall variable current,
         (forall s',
             queryVariableReducer env s (setCurrentVariableValue variable current) = Ok s' ->
             List.length (QueryVariableModel.options (QueryVariableState.variable s'))
             = List.length (QueryVariableModel.options (QueryVariableState.variable s))
             /\ (forall i o,
                   nth_error (QueryVariableModel.options (QueryVariableState.variable s)) i
                   = Some o ->
                   exists o',
                     nth_error (QueryVariableModel.options (QueryVariableState.variable s')) i
                     = Some o'
                     /\ optionIdentity o' = optionIdentity o
                     /\ (VariableOption.selected o' = true
                         <-> CurrentValue.value current = TString (VariableOption.value o)
                             \/ exists values,
                                  CurrentValue.value current = TArray values
                                  /\ In (VariableOption.value o) values))
             /\ ((exists o, In o (QueryVariableModel.options (QueryVariableState.variable s'))
                            /\ VariableOption.selected o = true)
                 <->
                 (exists o, In o (QueryVariableModel.options (QueryVariableState.variable s))
                            /\ (CurrentValue.value current = TString (VariableOption.value o)
                                \/ exists values,
                                     CurrentValue.value current = TArray values
                                     /\ In (VariableOption.value o) values))))
         /\ (tagsHaveValues current ->
             exists s',
               queryVariableReducer env s (setCurrentVariableValue variable current)
               = Ok s')).
Proof.
  intros Hne. split.
  - intros variable chosen forceSelect event. split.
    + intros s' H. apply reducer_selectVariableOption in H. rewrite H.
      apply countSelected_pos. apply selectVariableOption_newOptions_selected. exact Hne.
    + intros Hv. eapply reducer_pipeline_total; [reflexivity | exact Hv].
  - intros variable current. split;
      [| intros Hv; eapply reducer_pipeline_total; [reflexivity |];
         intros tags tag Ht Hin; apply (Hv tags tag); [exact Ht | exact Hin]].
    intros s' H. apply reducer_setCurrentVariableValue in H. rewrite H.
    split; [apply length_map |].
    split.
    { intros i o Hnth.
      exists (VariableOption.with_selected o
                (selectedByCurrent (CurrentValue.value current) o)).
      split;
        [exact (map_nth_error
                  (fun o => VariableOption.with_selected o
                              (selectedByCurrent (CurrentValue.value current) o))
                  i _ Hnth) |].
      split; [reflexivity |].
      simpl. apply selectedByCurrent_true. }
    split.
    + intros [o' [Hin Hsel]]. apply in_map_iff in Hin. destruct Hin as [o [<- Hin]].
      simpl in Hsel. exists o. split; [exact Hin |].
      apply selectedByCurrent_true. exact Hsel.
    + intros [o [Hin Hmatch]].
      exists (VariableOption.with_selected o
                (selectedByCurrent (CurrentValue.value current) o)).
      split.
      * apply in_map_iff. exists o. split; [reflexivity | exact Hin].
      * simpl. apply selectedByCurrent_true. exact Hmatch.
Qed.

Lemma selection_after_transition_witness :
  exists s',
    queryVariableReducer literalRegexService
      (stateWith true [optionNamed "a" true; optionNamed "b" false] noCurrent LockUndefined)
      (selectVariableOption hostKey (optionNamed "a" true) false noModifier) = Ok s'
    /\ exists o, In o (QueryVariableModel.options (QueryVariableState.variable s'))
                 /\ VariableOption.selected o = true.
Proof.
  eexists. split; [reflexivity |].
  apply (proj1 (proj1 (selection_after_transition literalRegexService
                         (stateWith true [optionNamed "a" true; optionNamed "b" false]
                            noCurrent LockUndefined)
                         ltac:(discriminate))
                  hostKey (optionNamed "a" true) false noModifier)).
  reflexivity.
Defined.

(** C2, as stated, fails for SetCurrent: a current value that matches no
    option leaves every option unselected. *)
Lemma setCurrent_unmatched_value_selects_nothing :
  let s := stateWith false [optionNamed "a" true] noCurrent LockUndefined in
  QueryVariableModel.options (QueryVariableState.variable s) <> []
  /\ match queryVariableReducer literalRegexService s
             (setCurrentVariableValue hostKey (CurrentValue.mk (TString "z") (TString "z") None))
     with
     | Ok s' =>
         QueryVariableModel.options (QueryVariableState.variable s') = [optionNamed "a" false]
         /\ ~ exists o, In o (QueryVariableModel.options (QueryVariableState.variable s'))
                        /\ VariableOption.selected o = true
     | Throw _ | Untyped => False
     end.
Proof.
  simpl. split; [discriminate |]. split; [reflexivity |].
  intros [o [[<- | []] Hsel]]. discriminate Hsel.
Qed.

(** C5. With [multi = false], on a non-empty option list without
    duplicate values, the state after SelectOption has exactly one selected
    option, whatever [forceSelect] and the modifier keys are; and
    SelectOption returns whenever the tags of the current selection have
    their values. *)
Theorem single_select_exactly_one (env : RegexService) (s : QueryVariableState.t)
  (variable : VariableIdentifier.t) (chosen : VariableOption.t) (forceSelect : bool)
  (event : MouseEvent.t) :
  QueryVariableModel.multi (QueryVariableState.variable s) = false ->
  QueryVariableModel.options (QueryVariableState.variable s) <> [] ->
  NoDup (map VariableOption.value (QueryVariableModel.options (QueryVariableState.variable s))) ->
  (forall s',
      queryVariableReducer env s (selectVariableOption variable chosen forceSelect event) = Ok s' ->
      countSelected (QueryVariableModel.options (QueryVariableState.variable s')) = 1)
  /\ (tagsHaveValues (QueryVariableModel.current (QueryVariableState.variable s)) ->
      exists s',
        queryVariableReducer env s (selectVariableOption variable chosen forceSelect event)
        = Ok s').
Proof.
  intros Hmulti Hne Hnd. split.
  - intros s' H. apply reducer_selectVariableOption in H. rewrite H, Hmulti. clear H.
    destruct (selectVariableOption_newOptions_cases false chosen forceSelect event
                (QueryVariableModel.options (QueryVariableState.variable s)))
      as [[-> [Hnil | Hpos]] | [-> [Hne' Hzero]]].
    + contradiction.
    + assert (Hle : countSelected
                      (map (selectOne false chosen forceSelect event)
                         (QueryVariableModel.options (QueryVariableState.variable s))) <= 1).
      { unfold countSelected. rewrite filter_map_length.
        rewrite (filter_ext _ (fun o => String.eqb (VariableOption.value o)
                                          (VariableOption.value chosen))).
        - apply value_filter_unique. exact Hnd.
        - intros o. apply selectOne_single. }
      lia.
    + apply selectFirst_count; [| exact Hzero].
      destruct (QueryVariableModel.options (QueryVariableState.variable s));
        [congruence | discriminate].
  - intros Hv. eapply reducer_pipeline_total; [reflexivity | exact Hv].
Qed.

Lemma single_select_exactly_one_witness :
  exists s',
    queryVariableReducer literalRegexService
      (stateWith false [optionNamed "a" true; optionNamed "b" false] noCurrent LockUndefined)
      (selectVariableOption hostKey (optionNamed "c" false) false noModifier) = Ok s'
    /\ countSelected (QueryVariableModel.options (QueryVariableState.variable s')) = 1.
Proof.
  eexists. split; [reflexivity |].
  apply (proj1 (single_select_exactly_one literalRegexService
                  (stateWith false [optionNamed "a" true; optionNamed "b" false]
                     noCurrent LockUndefined)
                  hostKey (optionNamed "c" false) false noModifier
                  eq_refl
                  ltac:(discriminate)
                  ltac:(repeat constructor; simpl; intuition discriminate))).
  reflexivity.
Defined.

Lemma nth_error_selectFirst_S (l : list VariableOption.t) (j : nat) :
  nth_error (selectFirst l) (S j) = nth_error l (S j).
Proof. destruct l; reflexivity. Qed.

(** C6. In a SelectOption transition an option whose value is not the
    chosen value ends unselected as soon as it, or the chosen option, is the
    "All" option, with one exception: when the per-option rule leaves no
    option selected, the first option of the list is forced and is then the
    only selected one. SelectOption returns whenever the tags of the current
    selection have their values. *)
Theorem all_option_exclusivity (env : RegexService) (s : QueryVariableState.t)
  (variable : VariableIdentifier.t) (chosen : VariableOption.t) (forceSelect : bool)
  (event : MouseEvent.t) :
  (forall s',
      queryVariableReducer env s (selectVariableOption variable chosen forceSelect event) = Ok s' ->
      forall i o,
        nth_error (QueryVariableModel.options (QueryVariableState.variable s)) i = Some o ->
        VariableOption.value o <> VariableOption.value chosen ->
        VariableOption.text o = ALL_VARIABLE_TEXT
        \/ VariableOption.text chosen = ALL_VARIABLE_TEXT ->
        exists o',
          nth_error (QueryVariableModel.options (QueryVariableState.variable s')) i = Some o'
          /\ (VariableOption.selected o' = false
              \/ (i = 0
                  /\ countSelected
                       (map (selectOne (QueryVariableModel.multi (QueryVariableState.variable s))
                               chosen forceSelect event)
                          (QueryVariableModel.options (QueryVariableState.variable s))) = 0
                  /\ countSelected
                       (QueryVariableModel.options (QueryVariableState.variable s')) = 1)))
  /\ (tagsHaveValues (QueryVariableModel.current (QueryVariableState.variable s)) ->
      exists s',
        queryVariableReducer env s (selectVariableOption variable chosen forceSelect event)
        = Ok s').
Proof.
  split.
  - intros s' H i o Hnth Hvalue Hall.
    apply reducer_selectVariableOption in H. rewrite H. clear H.
    set (multi := QueryVariableModel.multi (QueryVariableState.variable s)).
    set (options := QueryVariableModel.options (QueryVariableState.variable s)) in *.
    pose proof (selectOne_all multi chosen forceSelect event o Hvalue Hall) as Hoff.
    pose proof (map_nth_error (selectOne multi chosen forceSelect event) i options Hnth)
      as Hmapped.
    destruct (selectVariableOption_newOptions_cases multi chosen forceSelect event options)
      as [[-> _] | [-> [Hne Hzero]]].
    + exists (selectOne multi chosen forceSelect event o).
      split; [exact Hmapped | left; exact Hoff].
    + destruct i as [| j].
      * destruct options as [| o0 rest]; [discriminate Hnth |].
        simpl in Hnth. injection Hnth as ->.
        exists (VariableOption.with_selected (selectOne multi chosen forceSelect event o) true).
        split; [reflexivity |]. right.
        split; [reflexivity |]. split; [exact Hzero |].
        apply selectFirst_count; [discriminate | exact Hzero].
      * exists (selectOne multi chosen forceSelect event o).
        rewrite nth_error_selectFirst_S.
        split; [exact Hmapped | left; exact Hoff].
  - intros Hv. eapply reducer_pipeline_total; [reflexivity | exact Hv].
Qed.

Lemma all_option_exclusivity_witness :
  exists s',
    queryVariableReducer literalRegexService
      (stateWith true
         [VariableOption.mk "All" "$__all" true false; optionNamed "a" false]
         noCurrent LockUndefined)
      (selectVariableOption hostKey (optionNamed "a" false) false noModifier) = Ok s'
    /\ exists o',
         nth_error (QueryVariableModel.options (QueryVariableState.variable s')) 0 = Some o'
         /\ VariableOption.selected o' = false.
Proof.
  eexists. split; [reflexivity |].
  destruct (proj1 (all_option_exclusivity literalRegexService
                     (stateWith true
                        [VariableOption.mk "All" "$__all" true false; optionNamed "a" false]
                        noCurrent LockUndefined)
                     hostKey (optionNamed "a" false) false noModifier)
                  _ eq_refl 0 (VariableOption.mk "All" "$__all" true false) eq_refl
                  ltac:(discriminate) (or_introl eq_refl))
    as [o' [Hnth Hsel]].
  exists o'. split; [exact Hnth |].
  simpl in Hnth. injection Hnth as <-. reflexivity.
Defined.

(** C6, as stated, fails. Deselecting the only selected option of a
    multi-select list chooses an option other than "All", and the fallback
    then selects the first option, which is "All". Likewise, toggling a
    selected "All" off leaves nothing selected, and the fallback selects the
    first option, which is another option when "All" is not first. *)
Lemma deselecting_last_option_selects_all :
  let allOption := VariableOption.mk "All" "$__all" in
  VariableOption.text (optionNamed "a" true) = "a"
  /\ match queryVariableReducer literalRegexService
             (stateWith true [allOption false false; optionNamed "a" true]
                noCurrent LockUndefined)
             (selectVariableOption hostKey (optionNamed "a" true) false noModifier)
     with
     | Ok s' =>
         QueryVariableModel.options (QueryVariableState.variable s')
         = [allOption true false; optionNamed "a" false]
     | Throw _ | Untyped => False
     end
  /\ match queryVariableReducer literalRegexService
             (stateWith true [optionNamed "a" false; allOption true false]
                noCurrent LockUndefined)
             (selectVariableOption hostKey (allOption true false) false noModifier)
     with
     | Ok s' =>
         QueryVariableModel.options (QueryVariableState.variable s')
         = [optionNamed "a" true; allOption false false]
     | Throw _ | Untyped => False
     end.
Proof.
  simpl. split; [reflexivity |]. split; reflexivity.
Qed.

(** ** Routing *)

Lemma findIndex_found {A : Type} (p : A -> bool) (l : list A) (j : nat) :
  findIndex p l = Z.of_nat j -> exists v, nth_error l j = Some v /\ p v = true.
Proof.
  revert j. induction l as [| y l IH]; simpl; intros j H.
  - lia.
  - destruct (p y) eqn:Hy.
    + destruct j as [| j]; [| lia]. exists y. split; [reflexivity | exact Hy].
    + destruct (findIndex p l =? -1)%Z eqn:E; [lia |].
      destruct j as [| j].
      * apply Z.eqb_neq in E.
        assert (Hge : (-1 <= findIndex p l)%Z).
        { clear. induction l as [| z l IHl]; simpl; [lia |].
          destruct (p z); [lia |]. destruct (findIndex p l =? -1)%Z; lia. }
        lia.
      * simpl. apply IH. lia.
Qed.

Lemma mapi_from_Ok {A B : Type} (f : A -> Z -> Result B) (l : list A) (i : Z) (l' : list B) :
  mapi_from i f l = Ok l' ->
  List.length l' = List.length l
  /\ forall j v, nth_error l j = Some v ->
       exists v', nth_error l' j = Some v' /\ f v (i + Z.of_nat j)%Z = Ok v'.
Proof.
  revert i l'. induction l as [| x l IH]; simpl; intros i l' H.
  - injection H as <-. split; [reflexivity |]. intros [| j] v Hj; discriminate Hj.
  - apply bind_Ok_inv in H. destruct H as [y [Hy H]].
    apply bind_Ok_inv in H. destruct H as [rest [Hrest H]].
    injection H as <-. apply IH in Hrest. destruct Hrest as [Hlen Hnth].
    split; [simpl; rewrite Hlen; reflexivity |].
    intros [| j] v Hj; simpl in *.
    + injection Hj as <-. exists y. split; [reflexivity |].
      rewrite Z.add_0_r. exact Hy.
    + destruct (Hnth j v Hj) as [v' [Hv' Hf]]. exists v'. split; [exact Hv' |].
      rewrite <- Hf. f_equal. lia.
Qed.

Lemma mapi_from_same {A : Type} (f : A -> Z -> Result A) (l : list A) (i : Z) :
  (forall v index, (i <= index)%Z -> f v index = Ok v) -> mapi_from i f l = Ok l.
Proof.
  revert i. induction l as [| x l IH]; simpl; intros i H; [reflexivity |].
  rewrite (H x i (Z.le_refl i)). simpl.
  rewrite IH; [reflexivity |]. intros v index Hle. apply H. lia.
Qed.

Lemma updateChildState_other_type (env : RegexService) (fresh : nat)
  (state : list InstanceRef.t) (type name : string) (action : Action) :
  type <> "query" -> updateChildState env fresh state type name action = Ok state.
Proof.
  intros H. unfold updateChildState. apply String.eqb_neq in H. rewrite H. reflexivity.
Qed.

Lemma updateChildState_frame (env : RegexService) (fresh : nat)
  (state state' : list InstanceRef.t) (type name : string) (action : Action) :
  updateChildState env fresh state type name action = Ok state' ->
  List.length state' = List.length state
  /\ forall i r, nth_error state i = Some r -> instanceName r <> name ->
       nth_error state' i = Some r.
Proof.
  unfold updateChildState.
  destruct (negb (String.eqb type "query")).
  - intros H. injection H as <-. split; [reflexivity | intros i r H _; exact H].
  - set (instanceIndex := findIndex _ state).
    intros H. apply mapi_from_Ok in H. destruct H as [Hlen Hnth].
    split; [exact Hlen |].
    intros i r Hi Hname. destruct (Hnth i r Hi) as [r' [Hr' Hf]].
    rewrite Hr'. f_equal. simpl in Hf.
    destruct (Z.of_nat i =? instanceIndex)%Z eqn:E; simpl in Hf.
    + exfalso. apply Z.eqb_eq in E. symmetry in E.
      apply findIndex_found in E. destruct E as [v [Hv Hp]].
      rewrite Hi in Hv. injection Hv as <-.
      apply String.eqb_eq in Hp. apply Hname. exact Hp.
    + injection Hf as <-. reflexivity.
Qed.

(** C8. Routing changes at most the targeted instance. When the declared
    type of the event is not ['query'], [updateChildState] and
    [queryVariablesReducer] return the collection as it is. Otherwise, when
    they return, the collection has the same references at the same places
    for every instance whose name is not the routing name (the same object:
    same address, same content). *)
Theorem routing_changes_only_the_target (env : RegexService) (fresh : nat)
  (state : list InstanceRef.t) (action : Action) :
  (forall type name,
      type <> "query" -> updateChildState env fresh state type name action = Ok state)
  /\ (forall type name state',
         updateChildState env fresh state type name action = Ok state' ->
         List.length state' = List.length state
         /\ forall i r, nth_error state i = Some r -> instanceName r <> name ->
              nth_error state' i = Some r)
  /\ (forall key,
         routingKey action = Some key -> VariableIdentifier.type key <> "query" ->
         queryVariablesReducer env fresh state action = Ok state)
  /\ (forall state',
         queryVariablesReducer env fresh state action = Ok state' ->
         forall i r, nth_error state i = Some r ->
           (forall key, routingKey action = Some key ->
                        instanceName r <> VariableIdentifier.name key) ->
           nth_error state' i = Some r).
Proof.
  split; [intros type name; apply updateChildState_other_type |].
  split; [intros type name state'; apply updateChildState_frame |].
  split.
  - intros key Hkey Htype.
    destruct action; simpl in *; try discriminate Hkey; injection Hkey as <-;
      try (apply updateChildState_other_type; exact Htype).
    simpl in Htype. apply String.eqb_neq in Htype. rewrite Htype. reflexivity.
  - intros state' H i r Hi Hname.
    destruct action; simpl in H;
      try (apply updateChildState_frame in H; destruct H as [_ H];
           apply (H i r Hi); apply Hname; reflexivity).
    + destruct (negb (String.eqb (QueryVariableModel.type model) "query")).
      * injection H as <-. exact Hi.
      * injection H as <-. rewrite nth_error_app1; [exact Hi |].
        apply nth_error_Some. congruence.
    + injection H as <-. exact Hi.
Qed.

Lemma routing_changes_only_the_target_witness :
  exists state',
    updateChildState literalRegexService 2
      [InstanceRef.mk 0 (stateWith false [optionNamed "a" true] noCurrent LockUndefined);
       InstanceRef.mk 1 initialQueryVariableState]
      "query" "host" (hideQueryVariableDropDown hostKey) = Ok state'
    /\ nth_error state' 1 = Some (InstanceRef.mk 1 initialQueryVariableState).
Proof.
  eexists. split; [reflexivity |].
  apply (proj1 (proj2 (routing_changes_only_the_target literalRegexService 2
                         [InstanceRef.mk 0
                            (stateWith false [optionNamed "a" true] noCurrent LockUndefined);
                          InstanceRef.mk 1 initialQueryVariableState]
                         (hideQueryVariableDropDown hostKey)))
           "query" "host" _ eq_refl).
  - reflexivity.
  - discriminate.
Defined.

(** C9. When the type is ['query'] and no instance of the collection has
    the routing name, [updateChildState] returns: the collection it returns
    has the same length and, at every place, the reference that was there
    (the same object). The instance reducer is not called. *)
Theorem updateChildState_unknown_name (env : RegexService) (fresh : nat)
  (state : list InstanceRef.t) (name : string) (action : Action) :
  (forall r, In r state -> instanceName r <> name) ->
  exists state',
    updateChildState env fresh state "query" name action = Ok state'
    /\ List.length state' = List.length state
    /\ forall i, nth_error state' i = nth_error state i.
Proof.
  intros Hnone. exists state. split; [| split; reflexivity].
  unfold updateChildState. simpl.
  assert (Hindex : findIndex
                     (fun child =>
                        String.eqb
                          (QueryVariableModel.name
                             (QueryVariableState.variable (InstanceRef.content child)))
                          name) state = (-1)%Z).
  { apply findIndex_none. intros r Hr. apply String.eqb_neq. apply Hnone. exact Hr. }
  rewrite Hindex. apply mapi_from_same.
  intros v index Hle.
  destruct (index =? -1)%Z eqn:E; [apply Z.eqb_eq in E; lia | reflexivity].
Qed.

Lemma updateChildState_unknown_name_witness :
  exists state',
    updateChildState literalRegexService 1
      [InstanceRef.mk 0 (stateWith false [] noCurrent LockNull)]
      "query" "region" (resolveInitLock (VariableIdentifier.mk "query" "region")) = Ok state'
    /\ List.length state' = 1
    /\ forall i, nth_error state' i
                 = nth_error [InstanceRef.mk 0 (stateWith false [] noCurrent LockNull)] i.
Proof.
  apply (updateChildState_unknown_name literalRegexService 1
           [InstanceRef.mk 0 (stateWith false [] noCurrent LockNull)]
           "region" (resolveInitLock (VariableIdentifier.mk "query" "region"))).
  intros r [<- | []]. discriminate.
Defined.

(** ** The examples of the specification *)

Example normalize_removes_repeated_value :
  metricNamesToVariableValues literalRegexService "" VariableSort_disabled
    [rawString "a"; rawString "a"; rawString "b"]
  = Ok [RawOption.mk (MString "a") (MString "a") false;
        RawOption.mk (MString "b") (MString "b") false]
  /\ queryVariableReducer literalRegexService (stateWith false [] noCurrent LockUndefined)
       (updateVariableOptions hostKey [rawString "a"; rawString "a"; rawString "b"])
     = Ok (stateWith false [optionNamed "a" false; optionNamed "b" false]
             noCurrent LockUndefined).
Proof. split; reflexivity. Qed.

Example numeric_sort_raises_without_text :
  metricNamesToVariableValues literalRegexService "" 3%Z
    [rawString "a"; MetricName.mk SUndefined SNull]
  = Throw TypeError
  /\ metricNamesToVariableValues literalRegexService "" 1%Z
       [MetricName.mk SUndefined SNull; rawString "a"; MetricName.mk SNull SNull]
     = Ok [RawOption.mk (MString "a") (MString "a") false;
           RawOption.mk MNull MUndefined false;
           RawOption.mk MNull MNull false]
  /\ queryVariableReducer literalRegexService (stateWith false [] noCurrent LockUndefined)
       (updateVariableOptions hostKey [MetricName.mk SUndefined SUndefined])
     = Untyped.
Proof. repeat split. Qed.

Example parseInt_rounds_to_double :
  parseInt10 "9007199254740993" = 9007199254740992%Z
  /\ parseInt10 "9007199254740995" = 9007199254740996%Z
  /\ parseInt10 "12" = 12%Z
  /\ numericKey (optionNamed "x9007199254740993" false)
     = numericKey (optionNamed "x9007199254740992" false).
Proof. repeat split. Qed.

Example toLower_folds_latin1_capitals :
  toLower (String (ascii_of_nat 193) (String (ascii_of_nat 215) "Z9"))
  = String (ascii_of_nat 225) (String (ascii_of_nat 215) "z9").
Proof. reflexivity. Qed.

Example empty_results_give_none_option :
  withAllAndNone false [] = [VariableOption.mk "None" "" false true]
  /\ queryVariableReducer literalRegexService initialQueryVariableState
       (updateVariableOptions hostKey [])
     = Ok stateAfterEmptyResults.
Proof. split; reflexivity. Qed.

Example multi_select_adds_without_clearing :
  selectVariableOption_newOptions true (optionNamed "a" false) false noModifier
    [optionNamed "a" false; optionNamed "b" true]
  = [optionNamed "a" true; optionNamed "b" true].
Proof. reflexivity. Qed.

Example numeric_sort_orders_by_first_number :
  map VariableOption.text
    (sortVariableValues
       [optionNamed "b10" false; optionNamed "a2" false; optionNamed "B" false;
        optionNamed "a" false; optionNamed "c2x9" false] 3%Z)
  = ["B"; "a"; "a2"; "c2x9"; "b10"].
Proof. reflexivity. Qed.

(** * Further properties of the code *)

(** ** Orders on the sort keys *)

Lemma string_leb_trans (a b c : string) :
  String.leb a b = true -> String.leb b c = true -> String.leb a c = true.
Proof.
  unfold String.leb. revert b c.
  induction a as [| x a IH]; intros [| y b] [| z c]; simpl; try congruence.
  unfold Ascii.compare.
  destruct (N.compare_spec (N_of_ascii x) (N_of_ascii y));
    destruct (N.compare_spec (N_of_ascii y) (N_of_ascii z));
    destruct (N.compare_spec (N_of_ascii x) (N_of_ascii z));
    try lia; try congruence.
  apply IH.
Qed.

Lemma string_leb_refl (a : string) : String.leb a a = true.
Proof. destruct (String.leb_total a a); assumption. Qed.

Lemma string_same_key (a b : string) :
  String.eqb a b = true <-> String.leb a b = true /\ String.leb b a = true.
Proof.
  rewrite String.eqb_eq. split.
  - intros ->. split; apply string_leb_refl.
  - intros [H1 H2]. apply String.leb_antisym; assumption.
Qed.

Lemma Z_same_key (a b : Z) :
  Z.eqb a b = true <-> Z.leb a b = true /\ Z.leb b a = true.
Proof. rewrite Z.eqb_eq, !Z.leb_le. lia. Qed.

Lemma Z_leb_total (a b : Z) : Z.leb a b = true \/ Z.leb b a = true.
Proof. rewrite !Z.leb_le. lia. Qed.

Lemma Z_leb_trans (a b c : Z) : Z.leb a b = true -> Z.leb b c = true -> Z.leb a c = true.
Proof. rewrite !Z.leb_le. lia. Qed.

Section SortedFacts.
Context {A K : Type}.
Variable leb : K -> K -> bool.
Variable key : A -> K.
Hypothesis leb_total : forall a b, leb a b = true \/ leb b a = true.
Hypothesis leb_trans : forall a b c, leb a b = true -> leb b c = true -> leb a c = true.

Lemma sortBy_strongly_sorted (l : list A) :
  StronglySorted (fun a b => leb (key a) (key b) = true) (sortBy leb key l).
Proof.
  apply Sorted_StronglySorted.
  - intros a b c. apply leb_trans.
  - apply sortBy_sorted. exact leb_total.
Qed.

Lemma StronglySorted_snoc (R : A -> A -> Prop) (l : list A) (x : A) :
  StronglySorted R l -> Forall (fun y => R y x) l -> StronglySorted R (l ++ [x]).
Proof.
  induction l as [| a l IH]; simpl; intros Hs Hf.
  - constructor; constructor.
  - inversion Hs as [| a' l' Hs' Ha]; subst.
    inversion Hf as [| a' l' Hax Hf']; subst.
    constructor; [apply IH; assumption |].
    apply Forall_app. split; [exact Ha | constructor; [exact Hax | constructor]].
Qed.

Lemma StronglySorted_rev (R : A -> A -> Prop) (l : list A) :
  StronglySorted R l -> StronglySorted (fun a b => R b a) (rev l).
Proof.
  induction l as [| a l IH]; simpl; intros Hs.
  - constructor.
  - inversion Hs as [| a' l' Hs' Ha]; subst.
    apply StronglySorted_snoc; [apply IH; exact Hs' |].
    apply Forall_rev. exact Ha.
Qed.

End SortedFacts.

Lemma filter_rev {A : Type} (p : A -> bool) (l : list A) :
  filter p (rev l) = rev (filter p l).
Proof.
  induction l as [| x l IH]; simpl; [reflexivity |].
  rewrite filter_app, IH. simpl. destruct (p x); simpl.
  - reflexivity.
  - rewrite app_nil_r. reflexivity.
Qed.

(** ** The option sorter, mode by mode *)

Lemma reverseSortOf_even (sortOrder : VariableSort) :
  reverseSortOf sortOrder = Z.even sortOrder.
Proof.
  unfold reverseSortOf.
  destruct (Z.even sortOrder) eqn:E.
  - apply Z.even_spec in E. destruct E as [m ->].
    rewrite Z.mul_comm, Z.rem_mul by lia. reflexivity.
  - apply Z.eqb_neq. intros H.
    assert (Hodd : Z.odd sortOrder = true) by (rewrite <- Z.negb_even, E; reflexivity).
    apply Z.odd_spec in Hodd. destruct Hodd as [m ->].
    pose proof (Z.quot_rem' (2 * m + 1) 2) as Hq. rewrite H in Hq. lia.
Qed.

(** X1. Sorting never adds, drops or duplicates an option: in every mode
    the result is a rearrangement of the input. *)
Theorem sortVariableValues_same_options
  (options : list VariableOption.t) (sortOrder : VariableSort) :
  Permutation options (sortVariableValues options sortOrder)
  /\ List.length (sortVariableValues options sortOrder) = List.length options
  /\ forall o, In o (sortVariableValues options sortOrder) <-> In o options.
Proof.
  pose proof (sortVariableValues_perm options sortOrder) as Hperm.
  split; [exact Hperm |]. split.
  - symmetry. apply Permutation_length. exact Hperm.
  - intros o. split; apply Permutation_in; [apply Permutation_sym |]; exact Hperm.
Qed.

(** X2. Modes 1, 3 and 5 return the options in ascending order of their
    key (the text, the first number of the text with [-1] for a text without
    digit, the lower-cased text): every option is at most every later one.
    Modes 2, 4 and 6 return them in descending order of the same keys. *)
Theorem sortVariableValues_ordered (options : list VariableOption.t) :
  StronglySorted
    (fun a b => String.leb (VariableOption.text a) (VariableOption.text b) = true)
    (sortVariableValues options 1%Z)
  /\ StronglySorted (fun a b => (numericKey a <= numericKey b)%Z)
       (sortVariableValues options 3%Z)
  /\ StronglySorted
       (fun a b => String.leb (toLower (VariableOption.text a))
                     (toLower (VariableOption.text b)) = true)
       (sortVariableValues options 5%Z)
  /\ StronglySorted
       (fun a b => String.leb (VariableOption.text b) (VariableOption.text a) = true)
       (sortVariableValues options 2%Z)
  /\ StronglySorted (fun a b => (numericKey b <= numericKey a)%Z)
       (sortVariableValues options 4%Z)
  /\ StronglySorted
       (fun a b => String.leb (toLower (VariableOption.text b))
                     (toLower (VariableOption.text a)) = true)
       (sortVariableValues options 6%Z).
Proof.
  assert (Hz : forall l : list VariableOption.t,
             StronglySorted (fun a b => (numericKey a <= numericKey b)%Z)
               (sortBy Z.leb numericKey l)).
  { intros l.
    pose proof (sortBy_strongly_sorted Z.leb numericKey Z_leb_total Z_leb_trans l) as H.
    induction H as [| a l' Hs IH Hf]; constructor; [exact IH |].
    eapply Forall_impl; [| exact Hf]. intros b Hb. apply Z.leb_le. exact Hb. }
  repeat split.
  - apply (sortBy_strongly_sorted String.leb VariableOption.text
             String.leb_total string_leb_trans).
  - apply Hz.
  - apply (sortBy_strongly_sorted String.leb
             (fun opt => toLower (VariableOption.text opt))
             String.leb_total string_leb_trans).
  - apply (StronglySorted_rev
             (fun a b => String.leb (VariableOption.text a) (VariableOption.text b) = true)).
    apply (sortBy_strongly_sorted String.leb VariableOption.text
             String.leb_total string_leb_trans).
  - apply (StronglySorted_rev (fun a b => (numericKey a <= numericKey b)%Z)). apply Hz.
  - apply (StronglySorted_rev
             (fun a b => String.leb (toLower (VariableOption.text a))
                           (toLower (VariableOption.text b)) = true)).
    apply (sortBy_strongly_sorted String.leb
             (fun opt => toLower (VariableOption.text opt))
             String.leb_total string_leb_trans).
Qed.

(** X3. Options with the same key keep their input order in modes 1, 3 and
    5, and come out in reverse input order in modes 2, 4 and 6. *)
Theorem sortVariableValues_ties (options : list VariableOption.t) :
  (forall t,
      let same := fun o => String.eqb (VariableOption.text o) t in
      filter same (sortVariableValues options 1%Z) = filter same options
      /\ filter same (sortVariableValues options 2%Z) = rev (filter same options))
  /\ (forall n,
         let same := fun o => Z.eqb (numericKey o) n in
         filter same (sortVariableValues options 3%Z) = filter same options
         /\ filter same (sortVariableValues options 4%Z) = rev (filter same options))
  /\ (forall t,
         let same := fun o => String.eqb (toLower (VariableOption.text o)) t in
         filter same (sortVariableValues options 5%Z) = filter same options
         /\ filter same (sortVariableValues options 6%Z) = rev (filter same options)).
Proof.
  split; [| split].
  - intros t same.
    assert (H : filter same (sortBy String.leb VariableOption.text options)
                = filter same options)
      by apply (sortBy_stable String.leb VariableOption.text String.eqb t options
                  string_leb_trans string_same_key).
    split; [exact H |].
    change (sortVariableValues options 2%Z)
      with (rev (sortBy String.leb VariableOption.text options)).
    rewrite filter_rev, H. reflexivity.
  - intros n same.
    assert (H : filter same (sortBy Z.leb numericKey options) = filter same options)
      by apply (sortBy_stable Z.leb numericKey Z.eqb n options Z_leb_trans Z_same_key).
    split; [exact H |].
    change (sortVariableValues options 4%Z) with (rev (sortBy Z.leb numericKey options)).
    rewrite filter_rev, H. reflexivity.
  - intros t same.
    assert (H : filter same
                  (sortBy String.leb (fun opt => toLower (VariableOption.text opt)) options)
                = filter same options)
      by apply (sortBy_stable String.leb (fun opt => toLower (VariableOption.text opt))
                  String.eqb t options string_leb_trans string_same_key).
    split; [exact H |].
    change (sortVariableValues options 6%Z)
      with (rev (sortBy String.leb (fun opt => toLower (VariableOption.text opt)) options)).
    rewrite filter_rev, H. reflexivity.
Qed.

(** X4. A mode outside 0..6 sorts nothing: an odd one returns the options
    as they are, an even one returns them reversed. *)
Theorem sortVariableValues_unknown_mode
  (options : list VariableOption.t) (sortOrder : VariableSort) :
  (sortOrder < 0 \/ 6 < sortOrder)%Z ->
  sortVariableValues options sortOrder
  = if Z.even sortOrder then rev options else options.
Proof.
  intros Hrange. unfold sortVariableValues, VariableSort_disabled.
  assert (H0 : (sortOrder =? 0)%Z = false) by (apply Z.eqb_neq; lia).
  rewrite H0, reverseSortOf_even.
  assert (Hdiv : (sortOrder + 1 = 2 * sortTypeOf sortOrder + (sortOrder + 1) mod 2)%Z)
    by (unfold sortTypeOf; apply Z.div_mod; lia).
  pose proof (Z.mod_pos_bound (sortOrder + 1) 2 ltac:(lia)) as Hmod.
  assert (H1 : (sortTypeOf sortOrder =? 1)%Z = false) by (apply Z.eqb_neq; lia).
  assert (H2 : (sortTypeOf sortOrder =? 2)%Z = false) by (apply Z.eqb_neq; lia).
  assert (H3 : (sortTypeOf sortOrder =? 3)%Z = false) by (apply Z.eqb_neq; lia).
  rewrite H1, H2, H3. reflexivity.
Qed.

Lemma sortVariableValues_unknown_mode_witness :
  sortVariableValues [optionNamed "b" false; optionNamed "a" false] 8%Z
  = if Z.even 8 then rev [optionNamed "b" false; optionNamed "a" false]
    else [optionNamed "b" false; optionNamed "a" false].
Proof.
  apply (sortVariableValues_unknown_mode
           [optionNamed "b" false; optionNamed "a" false] 8%Z).
  right. lia.
Defined.

Lemma parseDigits_takeDigits_nonneg (s : string) (acc : Z) :
  (0 <= acc)%Z -> (0 <= parseDigits acc (takeDigits s))%Z.
Proof.
  revert acc. induction s as [| c s IH]; cbn [takeDigits parseDigits];
    intros acc Hacc; [exact Hacc |].
  destruct (isDigit c) eqn:Hd; cbn [parseDigits]; [| exact Hacc].
  apply IH. unfold isDigit in Hd. apply andb_true_iff in Hd. destruct Hd as [Hlo _].
  apply Nat.leb_le in Hlo. lia.
Qed.

Lemma roundToDouble_nonneg (n : Z) : (0 <= n)%Z -> (0 <= roundToDouble n)%Z.
Proof.
  intros Hn. unfold roundToDouble.
  destruct (n <? 2 ^ 53)%Z; [exact Hn |].
  apply Z.min_glb; [| apply Z.pow_nonneg; lia].
  apply Z.shiftl_nonneg.
  assert (Hq : (0 <= Z.shiftr n (Z.log2 n - 52))%Z) by (apply Z.shiftr_nonneg; exact Hn).
  destruct (_ || _); lia.
Qed.

(** X5. The key of the numeric sort is [-1] exactly for a text without
    decimal digit, and is not negative for any other text: in modes 3 and 4
    the texts without number are grouped at one end. *)
Theorem numericKey_digitless (opt : VariableOption.t) :
  (numericKey opt = (-1)%Z <-> hasDigit (VariableOption.text opt) = false)
  /\ (hasDigit (VariableOption.text opt) = true -> (0 <= numericKey opt)%Z).
Proof.
  unfold numericKey.
  assert (H : forall s,
             match firstDigitRun s with
             | None => hasDigit s = false
             | Some digits => hasDigit s = true /\ (0 <= parseInt10 digits)%Z
             end).
  { induction s as [| c s IH]; [reflexivity |].
    cbn [firstDigitRun hasDigit]. destruct (isDigit c) eqn:Hd.
    - split; [reflexivity |].
      apply roundToDouble_nonneg.
      apply (parseDigits_takeDigits_nonneg (String c s) 0). lia.
    - exact IH. }
  specialize (H (VariableOption.text opt)).
  destruct (firstDigitRun (VariableOption.text opt)) as [digits |].
  - destruct H as [Hd Hn]. split.
    + split; [lia | congruence].
    + intros _. exact Hn.
  - split.
    + split; [intros _; exact H | reflexivity].
    + congruence.
Qed.

Lemma numericKey_digitless_witness :
  (0 <= numericKey (optionNamed "cpu12" false))%Z.
Proof.
  apply (proj2 (numericKey_digitless (optionNamed "cpu12" false))).
  reflexivity.
Defined.

(** ** The normalizer with a pattern, and [updateVariableOptions] *)

Lemma collectOptions_facts (env : RegexService) (metricNames : list MetricName.t)
  (regex : option (RegExp env)) :
  List.length (collectOptions env regex metricNames) <= List.length metricNames
  /\ forall o, In o (collectOptions env regex metricNames) ->
       RawOption.selected o = false
       /\ noText (RawOption.text o) = noText (RawOption.value o).
Proof.
  assert (Hitem : forall item : MetricName.t,
             noText (stringifyNumber
                       (if isNullish (MetricName.text item) then MetricName.value item
                        else MetricName.text item))
             = noText (stringifyNumber
                         (if isNullish (MetricName.value item) then MetricName.text item
                          else MetricName.value item))).
  { intros item. destruct (MetricName.text item), (MetricName.value item); reflexivity. }
  revert regex. induction metricNames as [| item rest IH]; intros regex.
  - split; [apply Nat.le_refl | intros o []].
  - cbn [collectOptions]. destruct regex as [r |].
    + destruct (exec env r _) as [r' matches].
      destruct (IH (Some r')) as [Hlen Hall].
      destruct matches as [[| m0 [| g ms]] |]; simpl.
      * split; [lia |].
        intros o [<- | Ho]; [split; [reflexivity | apply Hitem] | apply Hall; exact Ho].
      * split; [lia |].
        intros o [<- | Ho]; [split; [reflexivity | apply Hitem] | apply Hall; exact Ho].
      * split; [lia |].
        intros o [<- | Ho]; [split; reflexivity | apply Hall; exact Ho].
      * split; [lia | exact Hall].
    + destruct (IH None) as [Hlen Hall]. simpl.
      split; [lia |].
      intros o [<- | Ho]; [split; [reflexivity | apply Hitem] | apply Hall; exact Ho].
Qed.

Lemma uniqBy_from_length {A K : Type} (key : A -> K) (eqb : K -> K -> bool)
  (seen : list K) (l : list A) :
  List.length (uniqBy_from key eqb seen l) <= List.length l.
Proof.
  revert seen. induction l as [| x l IH]; simpl; intros seen; [lia |].
  destruct (existsb (eqb (key x)) seen); simpl.
  - specialize (IH seen). lia.
  - specialize (IH (key x :: seen)). lia.
Qed.

(** The normalizer, once the pattern is compiled. *)
Lemma metricNamesToVariableValues_compiled (env : RegexService) (variableRegEx : string)
  (sort : VariableSort) (metricNames : list MetricName.t) (regex : option (RegExp env)) :
  compileVariableRegEx env variableRegEx = Ok regex ->
  metricNamesToVariableValues env variableRegEx sort metricNames
  = sortVariableValuesOf RawOption.text
      (uniqBy RawOption.value MaybeString_eqb (collectOptions env regex metricNames)) sort.
Proof.
  intros H. unfold metricNamesToVariableValues. rewrite H. reflexivity.
Qed.

Lemma metricNamesToVariableValues_Ok (env : RegexService) (variableRegEx : string)
  (sort : VariableSort) (metricNames : list MetricName.t) (options : list RawOption.t) :
  metricNamesToVariableValues env variableRegEx sort metricNames = Ok options ->
  NoDup (map RawOption.value options)
  /\ List.length options <= List.length metricNames
  /\ forall o, In o options ->
       RawOption.selected o = false
       /\ noText (RawOption.text o) = noText (RawOption.value o).
Proof.
  unfold metricNamesToVariableValues. intros H.
  apply bind_Ok_inv in H. destruct H as [regex [_ H]].
  set (collected := collectOptions env regex metricNames) in *.
  set (unique := uniqBy RawOption.value MaybeString_eqb collected) in *.
  pose proof (sortVariableValuesOf_Ok _ _ _ _ H) as Hperm.
  destruct (collectOptions_facts env metricNames regex) as [Hlen Hall].
  split; [| split].
  - eapply Permutation_NoDup; [apply Permutation_map; exact Hperm |].
    apply uniqBy_from_NoDup. exact MaybeString_eqb_eq.
  - rewrite <- (Permutation_length Hperm).
    pose proof (uniqBy_from_length RawOption.value MaybeString_eqb [] collected) as Hu.
    fold collected in Hlen. unfold unique, uniqBy. lia.
  - intros o Ho. apply Hall.
    apply (Permutation_in _ (Permutation_sym Hperm)) in Ho.
    apply (uniqBy_from_In _ _ MaybeString_eqb_eq) in Ho. apply Ho.
Qed.

Lemma uniq_noText (env : RegexService) (metricNames : list MetricName.t)
  (regex : option (RegExp env)) :
  (exists o, In o (uniqBy RawOption.value MaybeString_eqb
                     (collectOptions env regex metricNames))
             /\ noText (RawOption.text o) = true)
  <-> exists o, In o (collectOptions env regex metricNames)
                /\ noText (RawOption.text o) = true.
Proof.
  destruct (collectOptions_facts env metricNames regex) as [_ Hall].
  split.
  - intros [o [Ho Hn]]. exists o. split; [| exact Hn].
    apply (uniqBy_from_In _ _ MaybeString_eqb_eq) in Ho. apply Ho.
  - intros [o [Ho Hn]].
    assert (Hin : In (RawOption.value o)
                    (map RawOption.value
                       (uniqBy RawOption.value MaybeString_eqb
                          (collectOptions env regex metricNames)))).
    { apply (uniqBy_from_complete _ _ MaybeString_eqb_eq); [| intros []].
      apply in_map. exact Ho. }
    apply in_map_iff in Hin. destruct Hin as [o' [Hv Ho']].
    exists o'. split; [exact Ho' |].
    pose proof (uniqBy_from_In _ _ MaybeString_eqb_eq _ _ _ Ho') as [Hc _].
    rewrite (proj2 (Hall o' Hc)), Hv, <- (proj2 (Hall o Ho)). exact Hn.
Qed.

(** X6. Whatever the pattern, a list that the normalizer returns has no
    value twice, is not longer than the raw results and holds only
    unselected options, each of which lacks a text exactly when it lacks a
    value. The normalizer raises in two situations only: the pattern is not
    empty and the pattern compiler raises; or the pattern is empty or
    compiles, the sort mode is 3 or 4, and the loop built an option whose
    text is [undefined] or [null] (from a raw result with neither field, or
    from a capture group that took no part in the match). *)
Theorem metricNamesToVariableValues_any_pattern (env : RegexService)
  (variableRegEx : string) (sort : VariableSort) (metricNames : list MetricName.t) :
  (forall options,
      metricNamesToVariableValues env variableRegEx sort metricNames = Ok options ->
      NoDup (map RawOption.value options)
      /\ List.length options <= List.length metricNames
      /\ forall o, In o options ->
           RawOption.selected o = false
           /\ noText (RawOption.text o) = noText (RawOption.value o))
  /\ (forall e,
         metricNamesToVariableValues env variableRegEx sort metricNames = Throw e
         <-> (variableRegEx <> ""
              /\ stringToJsRegex env (templateSrv_replace env variableRegEx) = Throw e)
             \/ (exists regex,
                    (variableRegEx = "" /\ regex = None
                     \/ exists r,
                          variableRegEx <> ""
                          /\ stringToJsRegex env (templateSrv_replace env variableRegEx) = Ok r
                          /\ regex = Some r)
                    /\ (sort = 3%Z \/ sort = 4%Z)
                    /\ exists o, In o (collectOptions env regex metricNames)
                                 /\ noText (RawOption.text o) = true)).
Proof.
  split; [intros options; apply metricNamesToVariableValues_Ok |].
  intros e.
  destruct (String.eqb variableRegEx "") eqn:E.
  - apply String.eqb_eq in E.
    rewrite (metricNamesToVariableValues_compiled env variableRegEx sort metricNames None)
      by (unfold compileVariableRegEx; subst variableRegEx; reflexivity).
    rewrite sortVariableValuesOf_Throw, uniq_noText. split.
    + intros [Hmode Hex]. right. exists None.
      split; [left; split; [exact E | reflexivity] |]. split; assumption.
    + intros [[Hne _] | [regex [[[_ ->] | [r [Hne _]]] [Hmode Hex]]]];
        try contradiction.
      split; assumption.
  - apply String.eqb_neq in E.
    destruct (stringToJsRegex env (templateSrv_replace env variableRegEx)) as [r | e' |] eqn:Hc.
    + rewrite (metricNamesToVariableValues_compiled env variableRegEx sort metricNames (Some r))
        by (unfold compileVariableRegEx; apply String.eqb_neq in E; rewrite E, Hc; reflexivity).
      rewrite sortVariableValuesOf_Throw, uniq_noText. split.
      * intros [Hmode Hex]. right. exists (Some r).
        split; [right; exists r; repeat split; assumption |]. split; assumption.
      * intros [[_ H] | [regex [[[Hempty _] | [r' [_ [Hr ->]]]] [Hmode Hex]]]].
        -- discriminate H.
        -- contradiction.
        -- injection Hr as <-. split; assumption.
    + assert (Hn : metricNamesToVariableValues env variableRegEx sort metricNames = Throw e').
      { unfold metricNamesToVariableValues, compileVariableRegEx.
        apply String.eqb_neq in E. rewrite E, Hc. reflexivity. }
      rewrite Hn. split.
      * intros H. injection H as ->. left. split; [exact E | reflexivity].
      * intros [[_ H] | [regex [[[Hempty _] | [r' [_ [Hr _]]]] _]]].
        -- injection H as ->. reflexivity.
        -- contradiction.
        -- discriminate Hr.
    + assert (Hn : metricNamesToVariableValues env variableRegEx sort metricNames = Untyped).
      { unfold metricNamesToVariableValues, compileVariableRegEx.
        apply String.eqb_neq in E. rewrite E, Hc. reflexivity. }
      rewrite Hn. split; [discriminate |].
      intros [[_ H] | [regex [[[Hempty _] | [r' [_ [Hr _]]]] _]]];
        [discriminate H | contradiction | discriminate Hr].
Qed.

Lemma metricNamesToVariableValues_any_pattern_witness :
  exists options,
    metricNamesToVariableValues literalRegexService "b" 1%Z
      [rawString "a"; rawString "b"; MetricName.mk (SStr "b") SUndefined] = Ok options
    /\ List.length options <= 3.
Proof.
  eexists. split; [reflexivity |].
  apply (proj1 (metricNamesToVariableValues_any_pattern literalRegexService "b" 1%Z
                  [rawString "a"; rawString "b"; MetricName.mk (SStr "b") SUndefined])).
  reflexivity.
Defined.

Lemma typedOptions_Ok (raw : list RawOption.t) (options : list VariableOption.t) :
  typedOptions raw = Ok options ->
  map RawOption.value raw = map (fun o => MString (VariableOption.value o)) options
  /\ map RawOption.selected raw = map VariableOption.selected options
  /\ forall o, In o options -> VariableOption.isNone o = false.
Proof.
  revert options. induction raw as [| r raw IH]; simpl; intros options H.
  - injection H as <-. repeat split. intros o [].
  - destruct r as [[| | text] [| | value] selected]; simpl in H; try discriminate H.
    apply bind_Ok_inv in H. destruct H as [rest [Hrest H]]. injection H as <-.
    destruct (IH rest Hrest) as [Hv [Hs Hn]]. simpl.
    rewrite Hv, Hs. repeat split.
    intros o [<- | Ho]; [reflexivity | apply Hn; exact Ho].
Qed.

Lemma typedOptions_outcome (raw : list RawOption.t) :
  (forall e, typedOptions raw <> Throw e)
  /\ (typedOptions raw = Untyped
      <-> exists o, In o raw
                    /\ (noText (RawOption.text o) = true \/ noText (RawOption.value o) = true)).
Proof.
  induction raw as [| r raw [IHt IHu]]; simpl.
  - split; [discriminate |]. split; [discriminate | intros [o [[] _]]].
  - destruct r as [[| | text] [| | value] selected]; simpl;
      try (split; [discriminate |]; split; [intros _ | reflexivity];
           eexists; split; [left; reflexivity |]; simpl; tauto).
    destruct (typedOptions raw) as [rest | e |] eqn:Hr; simpl.
    + split; [discriminate |]. split; [discriminate |].
      intros [o [[<- | Ho] Hn]]; [simpl in Hn; destruct Hn; discriminate |].
      assert (H : @Ok (list VariableOption.t) rest = Untyped)
        by (apply IHu; exists o; split; assumption).
      discriminate H.
    + exfalso. exact (IHt e eq_refl).
    + split; [discriminate |]. split; [intros _ | reflexivity].
      destruct (proj1 IHu eq_refl) as [o [Ho Hn]].
      exists o. split; [right; exact Ho | exact Hn].
Qed.

Lemma reducer_updateVariableOptions (env : RegexService) (s s' : QueryVariableState.t)
  (variable : VariableIdentifier.t) (results : list MetricName.t) :
  queryVariableReducer env s (updateVariableOptions variable results) = Ok s' ->
  exists normalized,
    NoDup (map VariableOption.value normalized)
    /\ (forall o, In o normalized ->
          VariableOption.selected o = false /\ VariableOption.isNone o = false)
    /\ s' = QueryVariableState.with_variable s
              (QueryVariableModel.with_options (QueryVariableState.variable s)
                 (withAllAndNone
                    (QueryVariableModel.includeAll (QueryVariableState.variable s))
                    normalized)).
Proof.
  simpl. intros H. apply bind_Ok_inv in H. destruct H as [raw [Hn H]].
  apply bind_Ok_inv in H. destruct H as [normalized [Ht H]].
  exists normalized.
  apply metricNamesToVariableValues_Ok in Hn. destruct Hn as [Hnd [_ Hall]].
  apply typedOptions_Ok in Ht. destruct Ht as [Hv [Hs Hnone]].
  split; [| split].
  - rewrite Hv in Hnd. rewrite <- (map_map VariableOption.value MString) in Hnd.
    apply NoDup_map_inv in Hnd. exact Hnd.
  - intros o Ho. split; [| apply Hnone; exact Ho].
    assert (Hin : In (VariableOption.selected o) (map RawOption.selected raw))
      by (rewrite Hs; apply in_map; exact Ho).
    apply in_map_iff in Hin. destruct Hin as [r [<- Hr]]. apply Hall. exact Hr.
  - injection H as <-. reflexivity.
Qed.

(** X7. After [updateVariableOptions] the option list is never empty and
    every option is unselected. With [includeAll] the list starts with the
    "All" option and has no "None" option, even when there is no result;
    without it, the "None" option appears only when there is no option
    at all, and is then the whole list. The picker is left as it was. *)
Theorem updateVariableOptions_result (env : RegexService) (s s' : QueryVariableState.t)
  (variable : VariableIdentifier.t) (results : list MetricName.t) :
  queryVariableReducer env s (updateVariableOptions variable results) = Ok s' ->
  let options := QueryVariableModel.options (QueryVariableState.variable s') in
  options <> []
  /\ (forall o, In o options -> VariableOption.selected o = false)
  /\ (QueryVariableModel.includeAll (QueryVariableState.variable s) = true ->
      exists rest, options = allOption :: rest
                   /\ forall o, In o options -> VariableOption.isNone o = false)
  /\ (QueryVariableModel.includeAll (QueryVariableState.variable s) = false ->
      options = [noneOption] \/ forall o, In o options -> VariableOption.isNone o = false)
  /\ QueryVariableState.picker s' = QueryVariableState.picker s.
Proof.
  intros H. apply reducer_updateVariableOptions in H.
  destruct H as [normalized [_ [Hall ->]]]. simpl.
  unfold withAllAndNone.
  destruct (QueryVariableModel.includeAll (QueryVariableState.variable s)); simpl.
  - split; [discriminate |]. split.
    + intros o [<- | Ho]; [reflexivity | apply Hall; exact Ho].
    + split; [| split; [discriminate | reflexivity]].
      intros _. exists normalized. split; [reflexivity |].
      intros o [<- | Ho]; [reflexivity | apply Hall; exact Ho].
  - destruct normalized as [| o0 rest]; simpl.
    + split; [discriminate |]. split.
      * intros o [<- | []]. reflexivity.
      * split; [discriminate |]. split; [| reflexivity]. intros _. left. reflexivity.
    + split; [discriminate |]. split.
      * intros o Ho. apply Hall. exact Ho.
      * split; [discriminate |]. split; [| reflexivity].
        intros _. right. intros o Ho. apply Hall. exact Ho.
Qed.

Lemma updateVariableOptions_result_witness :
  exists s',
    queryVariableReducer literalRegexService stateIncludingAll
      (updateVariableOptions hostKey []) = Ok s'
    /\ QueryVariableModel.options (QueryVariableState.variable s') <> [].
Proof.
  eexists. split; [reflexivity |].
  apply (updateVariableOptions_result literalRegexService stateIncludingAll _ hostKey []).
  reflexivity.
Defined.

(** X8. After [updateVariableOptions] without [includeAll] no value occurs
    twice in the option list. With [includeAll] the options after "All"
    have no value twice, and the whole list has a repeated value exactly
    when one of them carries the value of "All", [$__all]. *)
Theorem updateVariableOptions_duplicates (env : RegexService) (s s' : QueryVariableState.t)
  (variable : VariableIdentifier.t) (results : list MetricName.t) :
  queryVariableReducer env s (updateVariableOptions variable results) = Ok s' ->
  let values := map VariableOption.value
                  (QueryVariableModel.options (QueryVariableState.variable s')) in
  (QueryVariableModel.includeAll (QueryVariableState.variable s) = false -> NoDup values)
  /\ (QueryVariableModel.includeAll (QueryVariableState.variable s) = true ->
      NoDup (tl values) /\ (NoDup values <-> ~ In ALL_VARIABLE_VALUE (tl values))).
Proof.
  intros H. apply reducer_updateVariableOptions in H.
  destruct H as [normalized [Hnd [_ ->]]]. simpl.
  unfold withAllAndNone.
  destruct (QueryVariableModel.includeAll (QueryVariableState.variable s)); simpl.
  - split; [discriminate |]. intros _. split; [exact Hnd |]. split.
    + intros Hall. inversion Hall. assumption.
    + intros Hnot. constructor; assumption.
  - split; [| discriminate]. intros _.
    destruct normalized as [| o0 rest]; simpl; [| exact Hnd].
    constructor; [intros [] | constructor].
Qed.

Lemma updateVariableOptions_duplicates_witness :
  exists s',
    queryVariableReducer literalRegexService stateIncludingAll
      (updateVariableOptions hostKey [rawString "$__all"]) = Ok s'
    /\ ~ NoDup (map VariableOption.value
                  (QueryVariableModel.options (QueryVariableState.variable s'))).
Proof.
  eexists. split; [reflexivity |].
  intros Hnd.
  apply (proj2 (proj2 (updateVariableOptions_duplicates literalRegexService
                         stateIncludingAll _ hostKey [rawString "$__all"] eq_refl)
                  eq_refl)) in Hnd.
  apply Hnd. left. reflexivity.
Defined.

(** ** What the pipeline derives, and what each event leaves alone *)

Lemma postProcess_Ok_shape (st s' : QueryVariableState.t) :
  postProcess st = Ok s' ->
  exists text,
    updateLinkText st
    = Ok (QueryVariableState.with_picker st
            (QueryVariablePickerState.with_linkText (QueryVariableState.picker st) text))
    /\ s' = updateSelectedTags
              (updateSelectedValues
                 (updateOptions
                    (QueryVariableState.with_picker st
                       (QueryVariablePickerState.with_linkText
                          (QueryVariableState.picker st) text)))).
Proof.
  rewrite postProcess_eq. intros H.
  apply bind_Ok_inv in H. destruct H as [s1 [H1 H]].
  destruct (updateLinkText_Ok st s1 H1) as [text ->].
  exists text. split; [exact H1 |]. injection H as <-. reflexivity.
Qed.

(** X9. After each transition that runs the pipeline (SetCurrent,
    SelectOption, OpenDropdown, CloseDropdown), [picker.selectedValues] is
    exactly the selected options of [variable.options], in order,
    [picker.selectedTags] is exactly the selected tags of [variable.tags],
    and [picker.options] is the whole option list when it has at most 1000
    options. The tags themselves are not changed by these transitions. *)
Theorem pipeline_derives_picker (env : RegexService) (s st s' : QueryVariableState.t)
  (a : Action) :
  pipelineInput s a = Some st ->
  queryVariableReducer env s a = Ok s' ->
  QueryVariablePickerState.selectedValues (QueryVariableState.picker s')
  = filter VariableOption.selected
      (QueryVariableModel.options (QueryVariableState.variable s'))
  /\ QueryVariablePickerState.selectedTags (QueryVariableState.picker s')
     = filter VariableTag.selected
         (QueryVariableModel.tags (QueryVariableState.variable s'))
  /\ (List.length (QueryVariableModel.options (QueryVariableState.variable s')) <= 1000 ->
      QueryVariablePickerState.options (QueryVariableState.picker s')
      = QueryVariableModel.options (QueryVariableState.variable s'))
  /\ QueryVariableModel.tags (QueryVariableState.variable s')
     = QueryVariableModel.tags (QueryVariableState.variable s).
Proof.
  intros Hp H. rewrite (reducer_pipeline env s st a Hp) in H.
  apply postProcess_Ok in H. destruct H as [Hv [Ho [Hsv Hst]]].
  rewrite Hv, Ho, Hsv, Hst.
  split; [reflexivity |]. split; [reflexivity |]. split.
  - intros Hle. rewrite Nat.min_l by exact Hle. apply firstn_all.
  - destruct a; simpl in Hp; try discriminate Hp; injection Hp as <-; reflexivity.
Qed.

Lemma pipeline_derives_picker_witness :
  exists s',
    queryVariableReducer literalRegexService
      (stateWith true [optionNamed "a" true; optionNamed "b" false] noCurrent LockUndefined)
      (hideQueryVariableDropDown hostKey) = Ok s'
    /\ QueryVariablePickerState.selectedValues (QueryVariableState.picker s')
       = filter VariableOption.selected
           (QueryVariableModel.options (QueryVariableState.variable s')).
Proof.
  eexists. split; [reflexivity |].
  apply (pipeline_derives_picker literalRegexService
           (stateWith true [optionNamed "a" true; optionNamed "b" false]
              noCurrent LockUndefined) _ _
           (hideQueryVariableDropDown hostKey) eq_refl eq_refl).
Defined.

(** X10. In every reachable state, every option held in
    [picker.selectedValues] has [selected = true] and every tag held in
    [picker.selectedTags] has [selected = true]. *)
Theorem picker_selection_is_selected (env : RegexService) (s : QueryVariableState.t) :
  reachable env s ->
  Forall (fun o => VariableOption.selected o = true)
    (QueryVariablePickerState.selectedValues (QueryVariableState.picker s))
  /\ Forall (fun t => VariableTag.selected t = true)
       (QueryVariablePickerState.selectedTags (QueryVariableState.picker s)).
Proof.
  intros Hreach. induction Hreach as [| s s' a Hreach IH Hstep].
  - split; constructor.
  - destruct (pipelineInput s a) as [st |] eqn:Hp.
    + rewrite (reducer_pipeline env s st a Hp) in Hstep.
      apply postProcess_Ok in Hstep. destruct Hstep as [_ [_ [-> ->]]].
      split; apply Forall_forall; intros x Hx; apply filter_In in Hx; apply Hx.
    + rewrite (reducer_picker_unchanged env s s' a Hp Hstep). exact IH.
Qed.

Lemma picker_selection_is_selected_witness :
  Forall (fun o => VariableOption.selected o = true)
    (QueryVariablePickerState.selectedValues (QueryVariableState.picker stateAfterEmptyResults)).
Proof.
  apply (proj1 (picker_selection_is_selected literalRegexService stateAfterEmptyResults
                  (reachable_step literalRegexService initialQueryVariableState
                     stateAfterEmptyResults (updateVariableOptions hostKey [])
                     (reachable_initial literalRegexService) eq_refl))).
Defined.

Lemma updateLinkText_same_variable (st st2 : QueryVariableState.t) (text : TextValue) :
  QueryVariableState.variable st2 = QueryVariableState.variable st ->
  updateLinkText st
  = Ok (QueryVariableState.with_picker st
          (QueryVariablePickerState.with_linkText (QueryVariableState.picker st) text)) ->
  updateLinkText st2
  = Ok (QueryVariableState.with_picker st2
          (QueryVariablePickerState.with_linkText (QueryVariableState.picker st2) text)).
Proof.
  unfold updateLinkText. intros ->.
  assert (Hproj : forall x y : TextValue,
             Ok (QueryVariableState.with_picker st
                   (QueryVariablePickerState.with_linkText (QueryVariableState.picker st) x))
             = Ok (QueryVariableState.with_picker st
                     (QueryVariablePickerState.with_linkText (QueryVariableState.picker st) y))
             -> x = y).
  { intros x y H. injection H as H. exact H. }
  destruct (CurrentValue.tags _) as [[| tag tags] |].
  - intros H. apply Hproj in H. rewrite H. reflexivity.
  - destruct (filterR _ _) as [sel | e |]; simpl; [| discriminate | discriminate].
    intros H. apply Hproj in H. rewrite H. reflexivity.
  - intros H. apply Hproj in H. rewrite H. reflexivity.
Qed.

Lemma postProcess_fixed_point (st s' : QueryVariableState.t) :
  postProcess st = Ok s' -> postProcess s' = Ok s'.
Proof.
  intros H. destruct (postProcess_Ok_shape st s' H) as [text [Hlink ->]].
  rewrite postProcess_eq.
  erewrite (updateLinkText_same_variable st); [| reflexivity | exact Hlink].
  destruct st as [picker variable]. reflexivity.
Qed.

(** X11. The pipeline is idempotent, and so are OpenDropdown and
    CloseDropdown: dispatching one of them again on the state it returned
    returns that same state. *)
Theorem dropdown_events_idempotent (env : RegexService) (s s1 : QueryVariableState.t)
  (payload payload' : VariableIdentifier.t) :
  (postProcess s = Ok s1 -> postProcess s1 = Ok s1)
  /\ (queryVariableReducer env s (hideQueryVariableDropDown payload) = Ok s1 ->
      queryVariableReducer env s1 (hideQueryVariableDropDown payload') = Ok s1)
  /\ (queryVariableReducer env s (showQueryVariableDropDown payload) = Ok s1 ->
      queryVariableReducer env s1 (showQueryVariableDropDown payload') = Ok s1).
Proof.
  split; [apply postProcess_fixed_point |]. split.
  - simpl. intros H.
    assert (Hsame : hideQueryVariableDropDown_newState s1 = s1).
    { destruct (postProcess_Ok_shape _ _ H) as [text [_ ->]].
      destruct s as [picker variable]. reflexivity. }
    rewrite Hsame. apply (postProcess_fixed_point _ _ H).
  - simpl. intros H.
    assert (Hsame : showQueryVariableDropDown_newState s1 = s1).
    { destruct (postProcess_Ok_shape _ _ H) as [text [_ ->]].
      destruct s as [picker variable]. unfold showQueryVariableDropDown_newState. simpl.
      destruct (QueryVariablePickerState.queryHasSearchFilter picker);
        [| reflexivity].
      destruct (QueryVariablePickerState.searchQuery picker) as [[| c q] |]; reflexivity. }
    rewrite Hsame. apply (postProcess_fixed_point _ _ H).
Qed.

Lemma dropdown_events_idempotent_witness :
  exists s1,
    queryVariableReducer literalRegexService
      (stateWith true [optionNamed "a" true] noCurrent LockUndefined)
      (showQueryVariableDropDown hostKey) = Ok s1
    /\ queryVariableReducer literalRegexService s1 (showQueryVariableDropDown hostKey) = Ok s1.
Proof.
  eexists. split; [reflexivity |].
  apply (proj2 (proj2 (dropdown_events_idempotent literalRegexService
                         (stateWith true [optionNamed "a" true] noCurrent LockUndefined)
                         _ hostKey hostKey))).
  reflexivity.
Defined.

Lemma selectFirst_identity (l : list VariableOption.t) :
  map optionIdentity (selectFirst l) = map optionIdentity l.
Proof. destruct l; reflexivity. Qed.

(** X12. Only AddInstance and ReplaceOptionsFromResults change which
    options there are: after any other event the option list has the same
    texts, values and [isNone] marks in the same order, so at most the
    [selected] flags differ. *)
Theorem options_kept_by_other_events (env : RegexService) (s s' : QueryVariableState.t)
  (a : Action) :
  replacesOptions a = false ->
  queryVariableReducer env s a = Ok s' ->
  map optionIdentity (QueryVariableModel.options (QueryVariableState.variable s'))
  = map optionIdentity (QueryVariableModel.options (QueryVariableState.variable s)).
Proof.
  intros Hkeep H.
  destruct (pipelineInput s a) as [st |] eqn:Hp.
  - rewrite (reducer_pipeline env s st a Hp) in H.
    apply postProcess_Ok in H. destruct H as [-> _].
    destruct a; simpl in Hp; try discriminate Hp; injection Hp as <-; simpl;
      try reflexivity.
    + rewrite map_map. apply map_ext. intros o. reflexivity.
    + unfold selectVariableOption_newOptions.
      match goal with |- context [if ?c then _ else _] => destruct c end;
        [rewrite selectFirst_identity |];
        rewrite map_map; apply map_ext; intros o; unfold selectOne;
        destruct (negb _); reflexivity.
  - destruct a; simpl in *; try discriminate Hkeep; try discriminate Hp;
      try (injection H as <-; reflexivity).
    unfold resolveInitLock_state in H.
    destruct (QueryVariableModel.initLock _); try discriminate H.
    injection H as <-. reflexivity.
Qed.

Lemma options_kept_by_other_events_witness :
  exists s',
    queryVariableReducer literalRegexService
      (stateWith true [optionNamed "a" true; optionNamed "b" false] noCurrent LockUndefined)
      (selectVariableOption hostKey (optionNamed "b" false) false noModifier) = Ok s'
    /\ map optionIdentity (QueryVariableModel.options (QueryVariableState.variable s'))
       = map optionIdentity [optionNamed "a" true; optionNamed "b" false].
Proof.
  eexists. split; [reflexivity |].
  apply (options_kept_by_other_events literalRegexService
           (stateWith true [optionNamed "a" true; optionNamed "b" false]
              noCurrent LockUndefined) _
           (selectVariableOption hostKey (optionNamed "b" false) false noModifier)
           eq_refl eq_refl).
Defined.

(** ** The initialization lock across events *)

(** X13. The life of a lock. From any state, BeginInitLock returns a state
    with a pending lock; ResolveInitLock on it returns, with the lock
    resolved; BeginInitLock again replaces the resolved lock by a new
    pending one; ReleaseInitLock returns the starting state with a [null]
    lock; and ResolveInitLock after the release raises a [TypeError]. *)
Theorem initLock_lifecycle (env : RegexService) (s : QueryVariableState.t)
  (p1 p2 p3 p4 : VariableIdentifier.t) :
  exists s1 s2 s3,
    queryVariableReducer env s (setInitLock p1) = Ok s1
    /\ QueryVariableModel.initLock (QueryVariableState.variable s1) = LockRef Pending
    /\ queryVariableReducer env s1 (resolveInitLock p2) = Ok s2
    /\ QueryVariableModel.initLock (QueryVariableState.variable s2) = LockRef Resolved
    /\ queryVariableReducer env s2 (setInitLock p1) = Ok s1
    /\ queryVariableReducer env s2 (removeInitLock p3) = Ok s3
    /\ s3 = QueryVariableState.with_variable s
              (QueryVariableModel.with_initLock (QueryVariableState.variable s) LockNull)
    /\ queryVariableReducer env s3 (resolveInitLock p4) = Throw TypeError.
Proof.
  destruct s as [picker variable].
  do 3 eexists. repeat split.
Qed.

(** X14. BeginInitLock, ResolveInitLock and ReleaseInitLock change nothing
    but the lock: the picker and every other field of the variable are as
    before. *)
Theorem lock_events_change_only_the_lock (env : RegexService) (s s' : QueryVariableState.t)
  (a : Action) :
  isLockEvent a = true ->
  queryVariableReducer env s a = Ok s' ->
  QueryVariableState.picker s' = QueryVariableState.picker s
  /\ QueryVariableModel.with_initLock (QueryVariableState.variable s')
       (QueryVariableModel.initLock (QueryVariableState.variable s))
     = QueryVariableState.variable s.
Proof.
  destruct s as [picker variable]. destruct variable.
  destruct a; simpl; intros Hlock H; try discriminate Hlock;
    try (injection H as <-; split; reflexivity).
  unfold resolveInitLock_state in H. simpl in H.
  destruct initLock; try discriminate H. injection H as <-. split; reflexivity.
Qed.

Lemma lock_events_change_only_the_lock_witness :
  exists s',
    queryVariableReducer literalRegexService
      (stateWith true [optionNamed "a" true] noCurrent (LockRef Pending))
      (resolveInitLock hostKey) = Ok s'
    /\ QueryVariableState.picker s'
       = QueryVariableState.picker
           (stateWith true [optionNamed "a" true] noCurrent (LockRef Pending)).
Proof.
  eexists. split; [reflexivity |].
  apply (lock_events_change_only_the_lock literalRegexService
           (stateWith true [optionNamed "a" true] noCurrent (LockRef Pending)) _
           (resolveInitLock hostKey) eq_refl eq_refl).
Defined.

(** ** More on SelectOption *)

Lemma selectOne_value (multi : bool) (chosen : VariableOption.t) (forceSelect : bool)
  (event : MouseEvent.t) (o : VariableOption.t) :
  VariableOption.value (selectOne multi chosen forceSelect event o) = VariableOption.value o.
Proof. unfold selectOne. destruct (negb _); reflexivity. Qed.

(** When a modifier key is held or the chosen option is "All", the callback
    deselects every option with another value, and gives the options with
    the chosen value one and the same flag. *)
Lemma selectOne_exclusive (multi : bool) (chosen : VariableOption.t) (forceSelect : bool)
  (event : MouseEvent.t) (o : VariableOption.t) :
  modifierHeld event = true \/ VariableOption.text chosen = ALL_VARIABLE_TEXT ->
  VariableOption.selected (selectOne multi chosen forceSelect event o)
  = if String.eqb (VariableOption.value o) (VariableOption.value chosen)
    then (if forceSelect then true
          else if multi then negb (VariableOption.selected chosen) else true)
    else false.
Proof.
  intros Hcond. unfold selectOne.
  destruct (String.eqb (VariableOption.value o) (VariableOption.value chosen)); simpl;
    [reflexivity |].
  destruct Hcond as [Hmod | Hall].
  - unfold modifierHeld in Hmod. rewrite Hmod.
    destruct (String.eqb (VariableOption.text o) ALL_VARIABLE_TEXT
              || String.eqb (VariableOption.text chosen) ALL_VARIABLE_TEXT);
      [reflexivity |]. destruct multi; reflexivity.
  - apply String.eqb_eq in Hall. rewrite Hall, orb_true_r. reflexivity.
Qed.

(** X15. With a modifier key held (ctrl, meta or shift), or when the chosen
    option is "All", SelectOption on a non-empty option list without
    duplicate values leaves exactly one option selected, in multi-select
    mode too. *)
Theorem exclusive_select_exactly_one (env : RegexService) (s s' : QueryVariableState.t)
  (variable : VariableIdentifier.t) (chosen : VariableOption.t) (forceSelect : bool)
  (event : MouseEvent.t) :
  modifierHeld event = true \/ VariableOption.text chosen = ALL_VARIABLE_TEXT ->
  QueryVariableModel.options (QueryVariableState.variable s) <> [] ->
  NoDup (map VariableOption.value (QueryVariableModel.options (QueryVariableState.variable s))) ->
  queryVariableReducer env s (selectVariableOption variable chosen forceSelect event) = Ok s' ->
  countSelected (QueryVariableModel.options (QueryVariableState.variable s')) = 1.
Proof.
  intros Hcond Hne Hnd H. apply reducer_selectVariableOption in H. rewrite H. clear H.
  set (multi := QueryVariableModel.multi (QueryVariableState.variable s)).
  set (options := QueryVariableModel.options (QueryVariableState.variable s)) in *.
  destruct (selectVariableOption_newOptions_cases multi chosen forceSelect event options)
    as [[-> [Hnil | Hpos]] | [-> [_ Hzero]]].
  - contradiction.
  - assert (Hle : countSelected (map (selectOne multi chosen forceSelect event) options) <= 1).
    { unfold countSelected. rewrite filter_map_length.
      rewrite (filter_ext _ _ (fun o => selectOne_exclusive multi chosen forceSelect event o Hcond)).
      destruct (if forceSelect then true
                else if multi then negb (VariableOption.selected chosen) else true).
      - rewrite (filter_ext _ (fun o => String.eqb (VariableOption.value o)
                                          (VariableOption.value chosen))).
        + apply value_filter_unique. exact Hnd.
        + intros o. destruct (String.eqb _ _); reflexivity.
      - rewrite filter_none_length; [lia |].
        intros o _. destruct (String.eqb _ _); reflexivity. }
    lia.
  - apply selectFirst_count; [| exact Hzero].
    destruct options; [congruence | discriminate].
Qed.

Lemma exclusive_select_exactly_one_witness :
  exists s',
    queryVariableReducer literalRegexService
      (stateWith true [optionNamed "a" true; optionNamed "b" true] noCurrent LockUndefined)
      (selectVariableOption hostKey (optionNamed "b" true) false
         (MouseEvent.mk true false false)) = Ok s'
    /\ countSelected (QueryVariableModel.options (QueryVariableState.variable s')) = 1.
Proof.
  eexists. split; [reflexivity |].
  apply (exclusive_select_exactly_one literalRegexService
           (stateWith true [optionNamed "a" true; optionNamed "b" true]
              noCurrent LockUndefined) _
           hostKey (optionNamed "b" true) false (MouseEvent.mk true false false)
           (or_introl eq_refl)
           ltac:(discriminate)
           ltac:(repeat constructor; simpl; intuition discriminate)
           eq_refl).
Defined.

(** X16. SelectOption leaves the chosen option selected whenever
    [forceSelect] is set, or the variable is not multi-select, or the chosen
    option comes in unselected: every option of the result that carries the
    chosen value has [selected = true]. *)
Theorem chosen_option_ends_selected (env : RegexService) (s s' : QueryVariableState.t)
  (variable : VariableIdentifier.t) (chosen : VariableOption.t) (forceSelect : bool)
  (event : MouseEvent.t) :
  forceSelect = true
  \/ QueryVariableModel.multi (QueryVariableState.variable s) = false
  \/ VariableOption.selected chosen = false ->
  queryVariableReducer env s (selectVariableOption variable chosen forceSelect event) = Ok s' ->
  forall o', In o' (QueryVariableModel.options (QueryVariableState.variable s')) ->
    VariableOption.value o' = VariableOption.value chosen ->
    VariableOption.selected o' = true.
Proof.
  intros Hcond H o' Hin Hvalue.
  apply reducer_selectVariableOption in H. rewrite H in Hin. clear H.
  set (multi := QueryVariableModel.multi (QueryVariableState.variable s)) in *.
  set (options := QueryVariableModel.options (QueryVariableState.variable s)) in *.
  assert (Hmapped : forall m, In m (map (selectOne multi chosen forceSelect event) options) ->
                      VariableOption.value m = VariableOption.value chosen ->
                      VariableOption.selected m = true).
  { intros m Hm Hv. apply in_map_iff in Hm. destruct Hm as [o [<- _]].
    rewrite selectOne_value in Hv. unfold selectOne.
    apply String.eqb_eq in Hv. rewrite Hv. simpl.
    destruct Hcond as [-> | [Hm | Hs]]; [reflexivity | |].
    - rewrite Hm. destruct forceSelect; reflexivity.
    - rewrite Hs. destruct forceSelect, multi; reflexivity. }
  destruct (selectVariableOption_newOptions_cases multi chosen forceSelect event options)
    as [[Heq _] | [Heq _]]; rewrite Heq in Hin.
  - apply Hmapped; assumption.
  - destruct (map (selectOne multi chosen forceSelect event) options) as [| m0 rest];
      [contradiction |].
    destruct Hin as [<- | Hin]; [reflexivity |].
    apply Hmapped; [right; exact Hin | exact Hvalue].
Qed.

Lemma chosen_option_ends_selected_witness :
  exists s',
    queryVariableReducer literalRegexService
      (stateWith true [optionNamed "a" true; optionNamed "b" true] noCurrent LockUndefined)
      (selectVariableOption hostKey (optionNamed "b" true) true noModifier) = Ok s'
    /\ forall o', In o' (QueryVariableModel.options (QueryVariableState.variable s')) ->
         VariableOption.value o' = "b" -> VariableOption.selected o' = true.
Proof.
  eexists. split; [reflexivity |].
  apply (chosen_option_ends_selected literalRegexService
           (stateWith true [optionNamed "a" true; optionNamed "b" true]
              noCurrent LockUndefined) _
           hostKey (optionNamed "b" true) true noModifier (or_introl eq_refl) eq_refl).
Defined.

(** X17. In multi-select mode, with no modifier key and a chosen option
    other than "All", SelectOption keeps the flag of every other option that
    is not "All" (selecting adds, deselecting removes, nothing else is
    cleared). The one exception is the first option when the transition
    leaves nothing selected: it is then forced selected. *)
Theorem multi_select_keeps_other_flags (env : RegexService) (s s' : QueryVariableState.t)
  (variable : VariableIdentifier.t) (chosen : VariableOption.t) (forceSelect : bool)
  (event : MouseEvent.t) :
  QueryVariableModel.multi (QueryVariableState.variable s) = true ->
  modifierHeld event = false ->
  VariableOption.text chosen <> ALL_VARIABLE_TEXT ->
  queryVariableReducer env s (selectVariableOption variable chosen forceSelect event) = Ok s' ->
  forall i o,
    nth_error (QueryVariableModel.options (QueryVariableState.variable s)) i = Some o ->
    VariableOption.value o <> VariableOption.value chosen ->
    VariableOption.text o <> ALL_VARIABLE_TEXT ->
    exists o',
      nth_error (QueryVariableModel.options (QueryVariableState.variable s')) i = Some o'
      /\ (VariableOption.selected o' = VariableOption.selected o
          \/ (i = 0 /\ VariableOption.selected o' = true
              /\ countSelected
                   (QueryVariableModel.options (QueryVariableState.variable s')) = 1)).
Proof.
  intros Hmulti Hmod Hchosen H i o Hnth Hvalue Htext.
  apply reducer_selectVariableOption in H. rewrite H, Hmulti. clear H.
  set (options := QueryVariableModel.options (QueryVariableState.variable s)) in *.
  assert (Hkeep : VariableOption.selected (selectOne true chosen forceSelect event o)
                  = VariableOption.selected o).
  { unfold selectOne. unfold modifierHeld in Hmod.
    apply String.eqb_neq in Hvalue, Htext, Hchosen.
    rewrite Hvalue, Htext, Hchosen, Hmod. reflexivity. }
  pose proof (map_nth_error (selectOne true chosen forceSelect event) i options Hnth)
    as Hmapped.
  destruct (selectVariableOption_newOptions_cases true chosen forceSelect event options)
    as [[-> _] | [-> [Hne Hzero]]].
  - exists (selectOne true chosen forceSelect event o).
    split; [exact Hmapped | left; exact Hkeep].
  - destruct i as [| j].
    + destruct options as [| o0 rest]; [discriminate Hnth |].
      simpl in Hnth. injection Hnth as ->.
      exists (VariableOption.with_selected (selectOne true chosen forceSelect event o) true).
      split; [reflexivity |]. right.
      split; [reflexivity |]. split; [reflexivity |].
      apply selectFirst_count; [discriminate | exact Hzero].
    + exists (selectOne true chosen forceSelect event o).
      rewrite nth_error_selectFirst_S.
      split; [exact Hmapped | left; exact Hkeep].
Qed.

Lemma multi_select_keeps_other_flags_witness :
  exists s',
    queryVariableReducer literalRegexService
      (stateWith true [optionNamed "a" true; optionNamed "b" false] noCurrent LockUndefined)
      (selectVariableOption hostKey (optionNamed "b" false) false noModifier) = Ok s'
    /\ exists o',
         nth_error (QueryVariableModel.options (QueryVariableState.variable s')) 0 = Some o'
         /\ (VariableOption.selected o' = true
             \/ (0 = 0 /\ VariableOption.selected o' = true
                 /\ countSelected
                      (QueryVariableModel.options (QueryVariableState.variable s')) = 1)).
Proof.
  eexists. split; [reflexivity |].
  apply (multi_select_keeps_other_flags literalRegexService
           (stateWith true [optionNamed "a" true; optionNamed "b" false]
              noCurrent LockUndefined) _
           hostKey (optionNamed "b" false) false noModifier
           eq_refl eq_refl ltac:(discriminate) eq_refl
           0 (optionNamed "a" true) eq_refl ltac:(discriminate) ltac:(discriminate)).
Defined.

(** X18. SelectOption changes the option flags and nothing else of the
    variable: [current] in particular stays as it was, so that, when
    [current] has no tag, the link text after the transition is still the
    text of the old current selection. *)
Theorem selectVariableOption_keeps_current (env : RegexService) (s s' : QueryVariableState.t)
  (variable : VariableIdentifier.t) (chosen : VariableOption.t) (forceSelect : bool)
  (event : MouseEvent.t) :
  queryVariableReducer env s (selectVariableOption variable chosen forceSelect event) = Ok s' ->
  QueryVariableModel.with_options (QueryVariableState.variable s')
    (QueryVariableModel.options (QueryVariableState.variable s))
  = QueryVariableState.variable s
  /\ (CurrentValue.tags (QueryVariableModel.current (QueryVariableState.variable s)) = None
      \/ CurrentValue.tags (QueryVariableModel.current (QueryVariableState.variable s))
         = Some [] ->
      QueryVariablePickerState.linkText (QueryVariableState.picker s')
      = CurrentValue.text (QueryVariableModel.current (QueryVariableState.variable s))).
Proof.
  simpl. intros H.
  destruct (postProcess_Ok_shape _ _ H) as [text [Hlink ->]].
  split.
  - destruct s as [picker v]. destruct v. reflexivity.
  - intros Htags. simpl.
    unfold updateLinkText in Hlink. simpl in Hlink.
    destruct Htags as [Ht | Ht]; rewrite Ht in Hlink; injection Hlink as Hlink;
      symmetry; exact Hlink.
Qed.

Lemma selectVariableOption_keeps_current_witness :
  exists s',
    queryVariableReducer literalRegexService
      (stateWith true [optionNamed "a" true; optionNamed "b" false]
         (CurrentValue.mk (TString "a") (TString "a") None) LockUndefined)
      (selectVariableOption hostKey (optionNamed "b" false) false noModifier) = Ok s'
    /\ QueryVariablePickerState.linkText (QueryVariableState.picker s') = TString "a".
Proof.
  eexists. split; [reflexivity |].
  apply (proj2 (selectVariableOption_keeps_current literalRegexService
                  (stateWith true [optionNamed "a" true; optionNamed "b" false]
                     (CurrentValue.mk (TString "a") (TString "a") None) LockUndefined) _
                  hostKey (optionNamed "b" false) false noModifier eq_refl)).
  left. reflexivity.
Defined.

(** ** Routing to the targeted instance *)

Lemma findIndex_first {A : Type} (p : A -> bool) (l : list A) (i : nat) (r : A) :
  nth_error l i = Some r ->
  p r = true ->
  (forall j r', j < i -> nth_error l j = Some r' -> p r' = false) ->
  findIndex p l = Z.of_nat i.
Proof.
  revert i. induction l as [| y l IH]; intros i Hnth Hp Hbefore.
  - destruct i; discriminate Hnth.
  - destruct i as [| i]; simpl in *.
    + injection Hnth as ->. rewrite Hp. reflexivity.
    + rewrite (Hbefore 0 y (Nat.lt_0_succ i) eq_refl).
      rewrite (IH i Hnth Hp).
      * destruct (Z.of_nat i =? -1)%Z eqn:E; [apply Z.eqb_eq in E; lia | lia].
      * intros j r' Hj Hr'. apply (Hbefore (S j) r'); [lia | exact Hr'].
Qed.

Lemma mapi_from_target {A : Type} (g : A -> Result A) (l : list A) (off : Z) (i : nat)
  (r : A) :
  nth_error l i = Some r ->
  mapi_from off
    (fun v index => if negb (index =? off + Z.of_nat i)%Z then Ok v else g v) l
  = (y <- g r ;; Ok (replaceAt i y l)).
Proof.
  revert off i. induction l as [| x l IH]; intros off i Hnth.
  - destruct i; discriminate Hnth.
  - destruct i as [| i]; cbn [mapi_from nth_error] in *.
    + injection Hnth as ->.
      replace (off + Z.of_nat 0)%Z with off by lia. rewrite Z.eqb_refl. simpl.
      destruct (g r) as [y | e |]; simpl; [| reflexivity | reflexivity].
      rewrite mapi_from_same; [reflexivity |].
      intros v index Hle.
      destruct (index =? off)%Z eqn:E; [apply Z.eqb_eq in E; lia | reflexivity].
    + replace (off + Z.of_nat (S i))%Z with (off + 1 + Z.of_nat i)%Z by lia.
      assert (E : (off =? off + 1 + Z.of_nat i)%Z = false) by (apply Z.eqb_neq; lia).
      rewrite E. cbn [negb bind].
      rewrite (IH (off + 1)%Z i Hnth).
      destruct (g r) as [y | e |]; reflexivity.
Qed.

Lemma spread_content (v r : QueryVariableState.t) : spread v r = r.
Proof. destruct r. reflexivity. Qed.

Lemma updateChildState_at (env : RegexService) (fresh : nat) (state : list InstanceRef.t)
  (name : string) (action : Action) (i : nat) (r : InstanceRef.t) :
  nth_error state i = Some r ->
  instanceName r = name ->
  (forall j r', j < i -> nth_error state j = Some r' -> instanceName r' <> name) ->
  updateChildState env fresh state "query" name action
  = (c <- queryVariableReducer env (InstanceRef.content r) action ;;
     Ok (replaceAt i (InstanceRef.mk fresh c) state)).
Proof.
  intros Hnth Hname Hbefore. unfold updateChildState. simpl.
  rewrite (findIndex_first _ state i r Hnth).
  - unfold mapi, lookup.
    assert (Hneg : (Z.of_nat i <? 0)%Z = false) by (apply Z.ltb_ge; lia).
    rewrite Hneg, Nat2Z.id, Hnth. cbn [option_map orInitial].
    pose proof (mapi_from_target
                  (fun v => c <- queryVariableReducer env (InstanceRef.content r) action ;;
                            Ok (InstanceRef.mk fresh (spread (InstanceRef.content v) c)))
                  state 0 i r Hnth) as Hm.
    change (0 + Z.of_nat i)%Z with (Z.of_nat i) in Hm. rewrite Hm. clear Hm.
    destruct (queryVariableReducer env (InstanceRef.content r) action) as [c | e |]; simpl;
      [| reflexivity | reflexivity].
    rewrite spread_content. reflexivity.
  - apply String.eqb_eq. exact Hname.
  - intros j r' Hj Hr'. apply String.eqb_neq. apply (Hbefore j r' Hj Hr').
Qed.

(** X19. A routed event of type ['query'] reaches the first instance of
    the collection that has the routing name, and only that one (a later
    instance with the same name is not touched). When the instance reducer
    returns, the collection has a new object with the returned state at
    that place and is otherwise the same; when the instance reducer raises,
    [updateChildState] raises the same error. *)
Theorem updateChildState_updates_first_match (env : RegexService) (fresh : nat)
  (state : list InstanceRef.t) (name : string) (action : Action) (i : nat)
  (r : InstanceRef.t) :
  nth_error state i = Some r ->
  instanceName r = name ->
  (forall j r', j < i -> nth_error state j = Some r' -> instanceName r' <> name) ->
  match queryVariableReducer env (InstanceRef.content r) action with
  | Ok c =>
      updateChildState env fresh state "query" name action
      = Ok (firstn i state ++ InstanceRef.mk fresh c :: skipn (S i) state)
  | Throw e => updateChildState env fresh state "query" name action = Throw e
  | Untyped => updateChildState env fresh state "query" name action = Untyped
  end.
Proof.
  intros Hnth Hname Hbefore.
  rewrite (updateChildState_at env fresh state name action i r Hnth Hname Hbefore).
  destruct (queryVariableReducer env (InstanceRef.content r) action); reflexivity.
Qed.

Lemma updateChildState_updates_first_match_witness :
  updateChildState literalRegexService 2
    [InstanceRef.mk 0 (stateWith false [] noCurrent LockNull);
     InstanceRef.mk 1 (stateWith false [] noCurrent LockNull)]
    "query" "host" (setInitLock hostKey)
  = Ok [InstanceRef.mk 2 (stateWith false [] noCurrent (LockRef Pending));
        InstanceRef.mk 1 (stateWith false [] noCurrent LockNull)].
Proof.
  apply (updateChildState_updates_first_match literalRegexService 2
           [InstanceRef.mk 0 (stateWith false [] noCurrent LockNull);
            InstanceRef.mk 1 (stateWith false [] noCurrent LockNull)]
           "host" (setInitLock hostKey) 0
           (InstanceRef.mk 0 (stateWith false [] noCurrent LockNull)) eq_refl eq_refl).
  intros j r' Hj. lia.
Defined.

Lemma replaceAt_last {A : Type} (l : list A) (x y : A) :
  replaceAt (List.length l) y (l ++ [x]) = l ++ [y].
Proof.
  unfold replaceAt. induction l as [| a l IH]; simpl; [reflexivity |].
  f_equal. exact IH.
Qed.

Lemma nth_error_last {A : Type} (l : list A) (x : A) :
  nth_error (l ++ [x]) (List.length l) = Some x.
Proof. induction l as [| a l IH]; simpl; [reflexivity | exact IH]. Qed.

(** X20. AddInstance with type ['query'] appends one instance built from
    the model on top of the initial state, whose picker is the initial
    picker and which has no lock. When no earlier instance has its name,
    events routed to that name reach it: ResolveInitLock sent right after
    the addition raises a [TypeError], and BeginInitLock gives it a pending
    lock and changes no other instance. *)
Theorem added_instance_has_no_lock (env : RegexService) (fresh fresh' : nat)
  (state : list InstanceRef.t) (global : bool) (index : Z) (model : QueryVariableModel.t) :
  QueryVariableModel.type model = "query" ->
  (forall r, In r state -> instanceName r <> QueryVariableModel.name model) ->
  let content := addVariable_state initialQueryVariableState global index model in
  let key := VariableIdentifier.mk "query" (QueryVariableModel.name model) in
  queryVariablesReducer env fresh state (addVariable global index model)
  = Ok (state ++ [InstanceRef.mk fresh content])
  /\ QueryVariableState.picker content = initialQueryVariablePickerState
  /\ QueryVariableModel.initLock (QueryVariableState.variable content) = LockUndefined
  /\ queryVariablesReducer env fresh' (state ++ [InstanceRef.mk fresh content])
       (resolveInitLock key) = Throw TypeError
  /\ queryVariablesReducer env fresh' (state ++ [InstanceRef.mk fresh content])
       (setInitLock key)
     = Ok (state ++ [InstanceRef.mk fresh'
                       (QueryVariableState.with_variable content
                          (QueryVariableModel.with_initLock
                             (QueryVariableState.variable content) (LockRef Pending)))]).
Proof.
  intros Htype Hnone content key.
  assert (Hat : forall action,
             updateChildState env fresh' (state ++ [InstanceRef.mk fresh content])
               "query" (QueryVariableModel.name model) action
             = (c <- queryVariableReducer env content action ;;
                Ok (state ++ [InstanceRef.mk fresh' c]))).
  { intros action.
    rewrite (updateChildState_at env fresh' _ _ action (List.length state)
               (InstanceRef.mk fresh content)).
    - simpl. destruct (queryVariableReducer env content action); simpl;
        [| reflexivity | reflexivity].
      rewrite replaceAt_last. reflexivity.
    - apply nth_error_last.
    - reflexivity.
    - intros j r' Hj Hr'. rewrite nth_error_app1 in Hr' by exact Hj.
      apply Hnone. eapply nth_error_In. exact Hr'. }
  split.
  - simpl. rewrite Htype. reflexivity.
  - split; [reflexivity |]. split; [reflexivity |]. split.
    + simpl. rewrite Hat. reflexivity.
    + simpl. rewrite Hat. reflexivity.
Qed.

Lemma added_instance_has_no_lock_witness :
  queryVariablesReducer literalRegexService 1
    [InstanceRef.mk 0
       (addVariable_state initialQueryVariableState false 0%Z
          (QueryVariableState.variable (stateWith false [] noCurrent LockNull)))]
    (resolveInitLock (VariableIdentifier.mk "query" "host"))
  = Throw TypeError.
Proof.
  apply (added_instance_has_no_lock literalRegexService 0 1 [] false 0%Z
           (QueryVariableState.variable (stateWith false [] noCurrent LockNull))
           eq_refl).
  intros r [].
Defined.

(** ** Where an exception can come from *)

Lemma postProcess_typed (st : QueryVariableState.t) : postProcess st <> Untyped.
Proof.
  rewrite postProcess_eq. unfold updateLinkText.
  destruct (CurrentValue.tags _) as [[| tag0 tags0] |]; try discriminate.
  destruct (filterR (selectedAndNotInTag (tag0 :: tags0)) _) as [sel | e |] eqn:Hf;
    [discriminate | discriminate |].
  exfalso. exact (filterR_typed _ _ (selectedAndNotInTag_typed _) Hf).
Qed.

(** X21. The instance reducer raises in these situations only:
    ReplaceOptionsFromResults when the normalizer it calls raises (the
    pattern compiler raises, or the numeric sort meets an option without
    text); ResolveInitLock on a missing or [null] lock; and a transition
    that runs the pipeline when [updateLinkText] raises on the state handed
    to it. AddInstance, ReplaceTagsFromResults, BeginInitLock,
    ReleaseInitLock and unknown events always return. The one event that
    can store an option without text or value is
    ReplaceOptionsFromResults, when the normalizer returns one. *)
Theorem reducer_raises_exactly (env : RegexService) (s : QueryVariableState.t)
  (a : Action) :
  (forall e,
      queryVariableReducer env s a = Throw e <->
      (exists variable results,
          a = updateVariableOptions variable results
          /\ metricNamesToVariableValues env
               (QueryVariableModel.regex (QueryVariableState.variable s))
               (QueryVariableModel.sort (QueryVariableState.variable s)) results
             = Throw e)
      \/ (exists payload,
             a = resolveInitLock payload
             /\ e = TypeError
             /\ (QueryVariableModel.initLock (QueryVariableState.variable s) = LockUndefined
                 \/ QueryVariableModel.initLock (QueryVariableState.variable s) = LockNull))
      \/ (exists st, pipelineInput s a = Some st /\ updateLinkText st = Throw e))
  /\ (queryVariableReducer env s a = Untyped <->
      exists variable results,
        a = updateVariableOptions variable results
        /\ (metricNamesToVariableValues env
              (QueryVariableModel.regex (QueryVariableState.variable s))
              (QueryVariableModel.sort (QueryVariableState.variable s)) results
            = Untyped
            \/ exists raw,
                 metricNamesToVariableValues env
                   (QueryVariableModel.regex (QueryVariableState.variable s))
                   (QueryVariableModel.sort (QueryVariableState.variable s)) results
                 = Ok raw
                 /\ exists o, In o raw
                              /\ (noText (RawOption.text o) = true
                                  \/ noText (RawOption.value o) = true))).
Proof.
  destruct (pipelineInput s a) as [st |] eqn:Hp.
  - rewrite (reducer_pipeline env s st a Hp). split.
    + intros e. rewrite postProcess_Throw. split.
      * intros H. right. right. exists st. split; [reflexivity | exact H].
      * intros [[variable [results [-> _]]] | [[payload [-> _]] | [st' [Hst H]]]];
          try discriminate Hp.
        injection Hst as <-. exact H.
    + split.
      * intros H. exfalso. exact (postProcess_typed st H).
      * intros [variable [results [-> _]]]. discriminate Hp.
  - destruct a; simpl in *; try discriminate Hp;
      try (split;
           [intros e; split;
            [discriminate
            | intros [[v [r [H _]]] | [[p [H _]] | [st [H _]]]]; discriminate H]
           | split; [discriminate | intros [v [r [H _]]]; discriminate H]]).
    + (* updateVariableOptions *)
      destruct (metricNamesToVariableValues env _ _ results) as [raw | e' |] eqn:Hn; simpl.
      * destruct (typedOptions_outcome raw) as [Hthrow Huntyped].
        destruct (typedOptions raw) as [options | e'' |] eqn:Ht; simpl.
        -- split.
           ++ intros e. split; [discriminate |].
              intros [[v [r [H H']]] | [[p [H _]] | [st [H _]]]]; try discriminate H.
              injection H as _ <-. rewrite Hn in H'. discriminate H'.
           ++ split; [discriminate |].
              intros [v [r [H [H' | [raw' [H' Hex]]]]]]; injection H as _ <-;
                rewrite Hn in H'; [discriminate H' |].
              injection H' as <-.
              assert (Hu : @Ok (list VariableOption.t) options = Untyped)
                by (apply Huntyped; exact Hex).
              discriminate Hu.
        -- exfalso. exact (Hthrow e'' eq_refl).
        -- split.
           ++ intros e. split; [discriminate |].
              intros [[v [r [H H']]] | [[p [H _]] | [st [H _]]]]; try discriminate H.
              injection H as _ <-. rewrite Hn in H'. discriminate H'.
           ++ split; [intros _ | reflexivity].
              exists variable, results. split; [reflexivity |]. right.
              exists raw. split; [exact Hn | apply Huntyped; reflexivity].
      * split.
        -- intros e. split.
           ++ intros H. injection H as ->. left. exists variable, results.
              split; [reflexivity | exact Hn].
           ++ intros [[v [r [H H']]] | [[p [H _]] | [st [H _]]]]; try discriminate H.
              injection H as _ <-. rewrite Hn in H'. injection H' as ->. reflexivity.
        -- split; [discriminate |].
           intros [v [r [H [H' | [raw' [H' _]]]]]]; injection H as _ <-;
             rewrite Hn in H'; discriminate H'.
      * split.
        -- intros e. split; [discriminate |].
           intros [[v [r [H H']]] | [[p [H _]] | [st [H _]]]]; try discriminate H.
           injection H as _ <-. rewrite Hn in H'. discriminate H'.
        -- split; [intros _ | reflexivity].
           exists variable, results. split; [reflexivity |]. left. exact Hn.
    + (* resolveInitLock *)
      unfold resolveInitLock_state.
      destruct (QueryVariableModel.initLock (QueryVariableState.variable s)) eqn:Hl.
      * split.
        -- intros e. split.
           ++ intros H. injection H as <-. right. left. exists payload.
              split; [reflexivity |]. split; [reflexivity | left; reflexivity].
           ++ intros [[v [r [H _]]] | [[p [_ [-> _]]] | [st [H _]]]];
                [discriminate H | reflexivity | discriminate H].
        -- split; [discriminate | intros [v [r [H _]]]; discriminate H].
      * split.
        -- intros e. split.
           ++ intros H. injection H as <-. right. left. exists payload.
              split; [reflexivity |]. split; [reflexivity | right; reflexivity].
           ++ intros [[v [r [H _]]] | [[p [_ [-> _]]] | [st [H _]]]];
                [discriminate H | reflexivity | discriminate H].
        -- split; [discriminate | intros [v [r [H _]]]; discriminate H].
      * split.
        -- intros e. split; [discriminate |].
           intros [[v [r [H _]]] | [[p [_ [_ [H | H]]]] | [st [H _]]]]; discriminate H.
        -- split; [discriminate | intros [v [r [H _]]]; discriminate H].
Qed.

(** ** ReplaceTagsFromResults *)

(** X22. After ReplaceTagsFromResults the variable has one tag per result,
    in order and with the result's text, all unselected and without
    [values]; the options and the picker are as before. Whatever transition
    runs the pipeline next leaves [picker.selectedTags] empty. *)
Theorem updateVariableTags_result (env : RegexService) (s : QueryVariableState.t)
  (variable : VariableIdentifier.t) (results : list TagResult.t) :
  exists s1,
    queryVariableReducer env s (updateVariableTags variable results) = Ok s1
    /\ map VariableTag.text (QueryVariableModel.tags (QueryVariableState.variable s1))
       = map TagResult.text results
    /\ (forall t, In t (QueryVariableModel.tags (QueryVariableState.variable s1)) ->
          VariableTag.selected t = false /\ VariableTag.values t = None)
    /\ QueryVariableModel.options (QueryVariableState.variable s1)
       = QueryVariableModel.options (QueryVariableState.variable s)
    /\ QueryVariableState.picker s1 = QueryVariableState.picker s
    /\ (forall a st s2,
          pipelineInput s1 a = Some st ->
          queryVariableReducer env s1 a = Ok s2 ->
          QueryVariablePickerState.selectedTags (QueryVariableState.picker s2) = []).
Proof.
  eexists. split; [reflexivity |]. simpl.
  split; [unfold tagsOfResults; rewrite map_map; reflexivity |].
  split.
  { intros t Ht. unfold tagsOfResults in Ht. apply in_map_iff in Ht.
    destruct Ht as [r [<- _]]. split; reflexivity. }
  split; [reflexivity |]. split; [reflexivity |].
  intros a st s2 Hp H.
  rewrite (reducer_pipeline env _ st a Hp) in H.
  apply postProcess_Ok in H. destruct H as [_ [_ [_ ->]]].
  assert (Htags : QueryVariableModel.tags (QueryVariableState.variable st)
                  = tagsOfResults results).
  { destruct a; simpl in Hp; try discriminate Hp; injection Hp as <-; reflexivity. }
  rewrite Htags. unfold tagsOfResults. clear Hp Htags.
  induction results as [| r results IH]; [reflexivity | exact IH].
Qed.

(** ** SetCurrent and the dropdown events *)

Lemma currentText_not_array (current : CurrentValue.t) (t : string) (ts : list string) :
  currentText current <> TArray (t :: ts).
Proof.
  unfold currentText.
  destruct (CurrentValue.text current) as [| | x | [| x xs]] eqn:Ht;
    try discriminate;
    destruct (CurrentValue.value current) as [| | v | vs]; try discriminate;
    destruct (negb _); discriminate.
Qed.

(** X23. After SetCurrent the current selection of the variable is the one
    of the event with its text coerced: the text is never a non-empty
    array; an array text is joined with [" + "]; otherwise an array value
    whose first element is not [$__all] gives the joined values as text (the
    empty text for the empty array), and any other value (an array that
    starts with [$__all], a string, [undefined], [null]) leaves the text as
    given. The previous flags play no part: [picker.selectedValues] holds
    exactly the options whose value is the current value or occurs in it,
    so none for the empty array. *)
Theorem setCurrentVariableValue_result (env : RegexService) (s s' : QueryVariableState.t)
  (variable : VariableIdentifier.t) (current : CurrentValue.t) :
  queryVariableReducer env s (setCurrentVariableValue variable current) = Ok s' ->
  let current' := QueryVariableModel.current (QueryVariableState.variable s') in
  CurrentValue.value current' = CurrentValue.value current
  /\ CurrentValue.tags current' = CurrentValue.tags current
  /\ (forall t ts, CurrentValue.text current' <> TArray (t :: ts))
  /\ (forall t ts, CurrentValue.text current = TArray (t :: ts) ->
        CurrentValue.text current' = TString (join " + " (t :: ts)))
  /\ (forall vs,
        (forall t ts, CurrentValue.text current <> TArray (t :: ts)) ->
        CurrentValue.value current = TArray vs ->
        CurrentValue.text current'
        = if match vs with v0 :: _ => String.eqb v0 ALL_VARIABLE_VALUE | [] => false end
          then CurrentValue.text current
          else TString (join " + " vs))
  /\ ((forall t ts, CurrentValue.text current <> TArray (t :: ts)) ->
      (forall vs, CurrentValue.value current <> TArray vs) ->
      CurrentValue.text current' = CurrentValue.text current)
  /\ (forall o', In o' (QueryVariablePickerState.selectedValues (QueryVariableState.picker s'))
        <-> exists o,
              In o (QueryVariableModel.options (QueryVariableState.variable s))
              /\ o' = VariableOption.with_selected o true
              /\ (CurrentValue.value current = TString (VariableOption.value o)
                  \/ exists vs, CurrentValue.value current = TArray vs
                                /\ In (VariableOption.value o) vs))
  /\ (CurrentValue.value current = TArray [] ->
      QueryVariablePickerState.selectedValues (QueryVariableState.picker s') = []).
Proof.
  simpl. intros H. apply postProcess_Ok in H. destruct H as [Hv [_ [Hsv _]]].
  rewrite Hv, Hsv. simpl.
  split; [reflexivity |]. split; [reflexivity |].
  split; [intros t ts; apply currentText_not_array |].
  split.
  { intros t ts Ht. unfold currentText. rewrite Ht. reflexivity. }
  split.
  { intros vs Hnot Hvs. unfold currentText. rewrite Hvs.
    destruct (CurrentValue.text current) as [| | x | [| x xs]] eqn:Ht;
      try (destruct (match vs with [] => false | v0 :: _ => _ end); reflexivity).
    exfalso. apply (Hnot x xs). reflexivity. }
  split.
  { intros Htext Hvalue. unfold currentText.
    destruct (CurrentValue.value current) as [| | v | vs] eqn:Hcv;
      [| | | exfalso; apply (Hvalue vs); reflexivity];
      (destruct (CurrentValue.text current) as [| | x | [| x xs]] eqn:Hct;
       [reflexivity | reflexivity | reflexivity | reflexivity
       | exfalso; apply (Htext x xs); reflexivity]). }
  split.
  { intros o'. rewrite filter_In, in_map_iff. split.
    - intros [[o [<- Hin]] Hsel]. simpl in Hsel. exists o.
      split; [exact Hin |]. split; [rewrite Hsel; reflexivity |].
      apply selectedByCurrent_true. exact Hsel.
    - intros [o [Hin [-> Hmatch]]]. apply selectedByCurrent_true in Hmatch.
      split; [| reflexivity]. exists o. split; [rewrite Hmatch; reflexivity | exact Hin]. }
  intros Hempty. rewrite Hempty.
  induction (QueryVariableModel.options (QueryVariableState.variable s)) as [| o l IH];
    [reflexivity | exact IH].
Qed.

Lemma setCurrentVariableValue_result_witness :
  exists s',
    queryVariableReducer literalRegexService
      (stateWith true [optionNamed "a" true; optionNamed "b" false] noCurrent LockUndefined)
      (setCurrentVariableValue hostKey
         (CurrentValue.mk (TArray ["A"; "B"]) (TArray ["a"; "b"]) None)) = Ok s'
    /\ CurrentValue.text (QueryVariableModel.current (QueryVariableState.variable s'))
       = TString (join " + " ["A"; "B"]).
Proof.
  eexists. split; [reflexivity |].
  apply (proj1 (proj2 (proj2 (proj2
           (setCurrentVariableValue_result literalRegexService
              (stateWith true [optionNamed "a" true; optionNamed "b" false]
                 noCurrent LockUndefined) _ hostKey
              (CurrentValue.mk (TArray ["A"; "B"]) (TArray ["a"; "b"]) None) eq_refl))))).
  reflexivity.
Defined.

(** X24. OpenDropdown and CloseDropdown never change the variable. After
    OpenDropdown the dropdown is shown, no entry is highlighted, the old
    text is the text of the current selection, and the search query is the
    one typed before when the query has a search filter and that query was
    not empty; it is the empty string in every other case, a [null] query
    included. After CloseDropdown the dropdown is hidden and the
    search query is as before. *)
Theorem dropdown_events_result (env : RegexService) (s s' : QueryVariableState.t)
  (payload : VariableIdentifier.t) :
  (queryVariableReducer env s (showQueryVariableDropDown payload) = Ok s' ->
   QueryVariableState.variable s' = QueryVariableState.variable s
   /\ QueryVariablePickerState.showDropDown (QueryVariableState.picker s') = true
   /\ QueryVariablePickerState.highlightIndex (QueryVariableState.picker s') = (-1)%Z
   /\ QueryVariablePickerState.oldVariableText (QueryVariableState.picker s')
      = CurrentValue.text (QueryVariableModel.current (QueryVariableState.variable s))
   /\ (forall c q,
         QueryVariablePickerState.queryHasSearchFilter (QueryVariableState.picker s) = true ->
         QueryVariablePickerState.searchQuery (QueryVariableState.picker s)
         = Some (String c q) ->
         QueryVariablePickerState.searchQuery (QueryVariableState.picker s')
         = Some (String c q))
   /\ (QueryVariablePickerState.queryHasSearchFilter (QueryVariableState.picker s) = false
       \/ QueryVariablePickerState.searchQuery (QueryVariableState.picker s) = None
       \/ QueryVariablePickerState.searchQuery (QueryVariableState.picker s) = Some "" ->
       QueryVariablePickerState.searchQuery (QueryVariableState.picker s') = Some ""))
  /\ (queryVariableReducer env s (hideQueryVariableDropDown payload) = Ok s' ->
      QueryVariableState.variable s' = QueryVariableState.variable s
      /\ QueryVariablePickerState.showDropDown (QueryVariableState.picker s') = false
      /\ QueryVariablePickerState.searchQuery (QueryVariableState.picker s')
         = QueryVariablePickerState.searchQuery (QueryVariableState.picker s)).
Proof.
  split; simpl; intros H; destruct (postProcess_Ok_shape _ _ H) as [text [_ ->]]; simpl.
  - repeat (split; [reflexivity |]).
    split.
    + intros c q Hf Hq. rewrite Hf, Hq. reflexivity.
    + intros [Hf | [Hq | Hq]].
      * rewrite Hf. reflexivity.
      * rewrite Hq.
        destruct (QueryVariablePickerState.queryHasSearchFilter (QueryVariableState.picker s));
          reflexivity.
      * rewrite Hq.
        destruct (QueryVariablePickerState.queryHasSearchFilter (QueryVariableState.picker s));
          reflexivity.
  - repeat split.
Qed.

Lemma dropdown_events_result_witness :
  exists s',
    queryVariableReducer literalRegexService
      (stateWith true [optionNamed "a" true] noCurrent LockUndefined)
      (showQueryVariableDropDown hostKey) = Ok s'
    /\ QueryVariableState.variable s'
       = QueryVariableState.variable
           (stateWith true [optionNamed "a" true] noCurrent LockUndefined).
Proof.
  eexists. split; [reflexivity |].
  apply (proj1 (dropdown_events_result literalRegexService
                  (stateWith true [optionNamed "a" true] noCurrent LockUndefined) _
                  hostKey)).
  reflexivity.
Defined.
